(** * Anthropic/OpenAI translation proxy: a shallow embedding of
    [src/anthropicHandlers.ts] and the properties of its conversion engine.

    The development follows the source file top to bottom:
    - [Js]: the few JavaScript string primitives the handlers use
      ([trim], [startsWith], [slice], [split], [indexOf]);
    - [Json]: JSON values, a reference reader and printer;
    - [Schema]: [cleanJsonSchema] on JSON values;
    - [SchemaStore]: [cleanJsonSchema] on a store of mutable objects;
    - [Validation]: [validateRequest];
    - [NonStreaming]: [convertNormalResponse];
    - [Streaming]: [convertStreamResponse] and [processProviderStream];
    - [Handler]: [handleAnthropicMessagesRequest];
    - [RequestTranslation]: [convertMessages], [convertAnthropicToOpenAI];
    - [Auth], [Routing], [Worker], [ProviderHeaders], [ChatCompletions]:
      [verifyApiKey] and [urlBuilder] of [utils.ts], the worker's [fetch],
      the headers sent upstream and the handler of [handlers.ts];
    - [StreamText], [StreamBoundary], [ResponseContent],
      [SchemaProperties]: further properties of the two converters and
      of the cleaner.

    JavaScript strings are modelled as [string]: the sequence of the code
    units of the string, for strings whose code units are all below 256;
    numbers that the handlers use as integers as [Z], objects
    the handlers read through a fixed set of fields as records whose
    optional fields are [option]s, and exceptions as an explicit result
    type. *)

From Stdlib Require Import String Ascii ZArith List Lia Bool DecimalString.
From stdpp Require Import base gmap.
Import ListNotations.

Local Open Scope string_scope.
Local Open Scope Z_scope.
Local Open Scope list_scope.

(** String concatenation ([+] on strings), kept apart from list append. *)
Fixpoint concat_str (a b : string) : string :=
  match a with
  | EmptyString => b
  | String c r => String c (concat_str r b)
  end.

Infix "^^" := concat_str (at level 60, right associativity).

(* ================================================================== *)
(** * JavaScript string primitives *)
(* ================================================================== *)

Module Js.

(** A string is the sequence of its code units, all below 256. The white
    space [String.prototype.trim] removes is, among these code units,
    TAB, LF, VT, FF, CR, SPACE and the no-break space (160). *)
Definition is_ws (c : ascii) : bool :=
  let n := nat_of_ascii c in
  ((9 <=? n)%nat && (n <=? 13)%nat) || (n =? 32)%nat || (n =? 160)%nat.

Fixpoint trimStart (s : string) : string :=
  match s with
  | String c r => if is_ws c then trimStart r else s
  | EmptyString => EmptyString
  end.

(** [trimEnd] keeps a character when it is not white space or when
    something survives to its right. *)
Fixpoint trimEnd (s : string) : string :=
  match s with
  | EmptyString => EmptyString
  | String c r =>
      match trimEnd r with
      | EmptyString => if is_ws c then EmptyString else String c EmptyString
      | r' => String c r'
      end
  end.

Definition trim (s : string) : string := trimEnd (trimStart s).

(** [s.startsWith(p)]. *)
Definition startsWith (p s : string) : bool := String.prefix p s.

(** [s.slice(n)] for [0 <= n]: the string without its first [n]
    characters (empty when [s] is shorter). *)
Fixpoint slice (n : nat) (s : string) : string :=
  match n, s with
  | O, _ => s
  | S n', String _ r => slice n' r
  | S _, EmptyString => EmptyString
  end.

(** Truthiness of a string: only the empty string is falsy. *)
Definition truthy (s : string) : bool :=
  match s with EmptyString => false | String _ _ => true end.

(** Truthiness of an optional string field: absent, [null] and [""] are
    falsy. *)
Definition truthy_opt (o : option string) : bool :=
  match o with Some s => truthy s | None => false end.

(** [s.split(sep)] for a one-character separator: never empty; the last
    element is what follows the last separator. *)
Fixpoint split (sep : ascii) (s : string) : list string :=
  match s with
  | EmptyString => [EmptyString]
  | String c r =>
      if Ascii.eqb c sep then EmptyString :: split sep r
      else match split sep r with
           | h :: t => String c h :: t
           | [] => [String c EmptyString]
           end
  end.

(** [lines.pop()]: the list without its last element, and that element
    ([undefined], rendered [None], on an empty list). *)
Fixpoint pop (l : list string) : list string * option string :=
  match l with
  | [] => ([], None)
  | [x] => ([], Some x)
  | x :: r => let (i, o) := pop r in (x :: i, o)
  end.

(** [s.indexOf(c) < 0] for a one-character needle. *)
Fixpoint lacks (c : ascii) (s : string) : bool :=
  match s with
  | EmptyString => true
  | String d r => negb (Ascii.eqb d c) && lacks c r
  end.

Definition LF : ascii := ascii_of_nat 10.
Definition nl : string := String LF EmptyString.

(** ** Splitting and appending *)

Lemma append_nil_r s : s ^^ "" = s.
Proof. induction s as [|c s IH]; simpl; [reflexivity | now rewrite IH]. Qed.

Lemma append_assoc a b c : (a ^^ b) ^^ c = a ^^ b ^^ c.
Proof. induction a as [|x a IH]; simpl; [reflexivity | now rewrite IH]. Qed.

(** The complete lines of a text and what follows its last line feed,
    by one pass. *)
Fixpoint lines_rest (s : string) : list string * string :=
  match s with
  | EmptyString => ([], EmptyString)
  | String c r =>
      let (ls, rest) := lines_rest r in
      if Ascii.eqb c LF then (EmptyString :: ls, rest)
      else match ls with
           | [] => ([], String c rest)
           | h :: t => (String c h :: t, rest)
           end
  end.

Lemma pop_split s :
  pop (split LF s) = (fst (lines_rest s), Some (snd (lines_rest s))).
Proof.
  induction s as [|c r IH]; simpl; [reflexivity|].
  destruct (lines_rest r) as [ls rest]. simpl in IH.
  destruct (Ascii.eqb c LF).
  - destruct (split LF r) as [|h t]; [discriminate IH|].
    change (pop (EmptyString :: h :: t)) with
      (let (i, o) := pop (h :: t) in (EmptyString :: i, o)).
    rewrite IH. reflexivity.
  - destruct (split LF r) as [|h t]; [discriminate IH|].
    destruct t as [|h' t].
    + simpl in IH. injection IH as <- <-. reflexivity.
    + change (pop (String c h :: h' :: t)) with
        (let (i, o) := pop (h' :: t) in (String c h :: i, o)).
      change (pop (h :: h' :: t)) with
        (let (i, o) := pop (h' :: t) in (h :: i, o)) in IH.
      destruct (pop (h' :: t)) as [i o]. injection IH as <- ->. reflexivity.
Qed.

(** Lines do not depend on where the text was cut. *)
Lemma lines_rest_app a b :
  lines_rest (a ^^ b) =
  let (la, ra) := lines_rest a in
  let (lb, rb) := lines_rest (ra ^^ b) in
  (la ++ lb, rb).
Proof.
  induction a as [|c r IH]; simpl.
  - destruct (lines_rest b); reflexivity.
  - rewrite IH. destruct (lines_rest r) as [la ra].
    destruct (Ascii.eqb c LF) eqn:Ec.
    + destruct (lines_rest (ra ^^ b)) as [lb rb]. reflexivity.
    + destruct la as [|h t]; simpl.
      * rewrite Ec. destruct (lines_rest (ra ^^ b)) as [[|h t] rb]; reflexivity.
      * destruct (lines_rest (ra ^^ b)) as [lb rb]. reflexivity.
Qed.

(** ** Trimming a line that starts with a keyword *)

Lemma trimEnd_empty s : trimEnd s = "" -> trimStart s = "".
Proof.
  induction s as [|c s IH]; simpl; [reflexivity|].
  destruct (trimEnd s); [|discriminate].
  destruct (is_ws c); [intros _; now apply IH | discriminate].
Qed.

Lemma trim_truthy_trimEnd s : truthy (trim s) = true -> truthy (trimEnd s) = true.
Proof.
  unfold trim. destruct (trimEnd s) eqn:E; [|reflexivity].
  now rewrite (trimEnd_empty _ E).
Qed.

Lemma trimEnd_app p s :
  truthy (trimEnd s) = true -> trimEnd (p ^^ s) = p ^^ trimEnd s.
Proof.
  intros H. induction p as [|c p IH]; [reflexivity|].
  change (String c p ^^ s) with (String c (p ^^ s)).
  change (String c p ^^ trimEnd s) with (String c (p ^^ trimEnd s)).
  cbn [trimEnd]. rewrite IH.
  destruct (p ^^ trimEnd s) eqn:E; [|reflexivity].
  destruct p; simpl in E; [|discriminate E].
  rewrite E in H. discriminate H.
Qed.

Lemma startsWith_split p s :
  startsWith p s = true -> s = p ^^ slice (String.length p) s.
Proof.
  unfold startsWith. revert s. induction p as [|a p IH]; intros s;
    [reflexivity|].
  destruct s as [|b s]; simpl; [intros H; discriminate H|].
  destruct (ascii_dec a b) as [<-|]; [|intros H; discriminate H].
  intros H. now rewrite <- (IH _ H).
Qed.

Lemma startsWith_app p s : startsWith p (p ^^ s) = true.
Proof.
  unfold startsWith. induction p as [|a p IH]; simpl; [now destruct s|].
  destruct (ascii_dec a a) as [|Hn]; [exact IH | now contradiction Hn].
Qed.

(** A line that starts with [data: ] and holds a payload still starts
    with it once trimmed. *)
Lemma data_line_trim line :
  startsWith "data: " line = true ->
  truthy (trim (slice 6 line)) = true ->
  truthy (trim line) = true /\ startsWith "data: " (trim line) = true.
Proof.
  intros Hp Ht. pose proof (startsWith_split _ _ Hp) as E.
  change (String.length "data: ") with 6%nat in E.
  apply trim_truthy_trimEnd in Ht.
  remember (slice 6 line) as r eqn:Er. clear Er Hp. subst line.
  unfold trim.
  change (trimStart ("data: " ^^ r)) with ("data: " ^^ r).
  rewrite (trimEnd_app _ _ Ht). split; [reflexivity|apply startsWith_app].
Qed.

End Js.

(* ================================================================== *)
(** * JSON values *)
(* ================================================================== *)

Module Json.

(** A JSON value as [JSON.parse] returns it. Object members are kept in
    property-enumeration order. Numbers are the integers. *)
#[warnings="-register-all"]
Inductive json : Type :=
| JNull
| JBool (b : bool)
| JNum (n : Z)
| JStr (s : string)
| JArr (elems : list json)
| JObj (members : list (string * json)).

(** [typeof v === 'object']: objects, arrays and [null]. *)
Definition typeof_object (v : json) : bool :=
  match v with
  | JNull | JArr _ | JObj _ => true
  | _ => false
  end.

Definition isArray (v : json) : bool :=
  match v with JArr _ => true | _ => false end.

(** [!v]. *)
Definition falsy (v : json) : bool :=
  match v with
  | JNull => true
  | JBool b => negb b
  | JNum n => n =? 0
  | JStr s => negb (Js.truthy s)
  | JArr _ | JObj _ => false
  end.

(** Own-property lookup in an enumeration-ordered member list. *)
Fixpoint lookup (key : string) (members : list (string * json)) : option json :=
  match members with
  | [] => None
  | (k, v) :: r => if String.eqb k key then Some v else lookup key r
  end.

(** [o.key] for a value that is not [null]: [None] is [undefined]. *)
Definition get (key : string) (o : json) : option json :=
  match o with
  | JObj ms => lookup key ms
  | _ => None
  end.

(** The property name of array index [i]. *)
Definition index_key (i : nat) : string :=
  NilZero.string_of_uint (Nat.to_uint i).

(** ** A reference reader and printer

    [JSON.parse] and [JSON.stringify] belong to the runtime; the handlers
    below take them as parameters. [parse] and [stringify] are a reference
    implementation to run the handlers on concrete documents: the JSON
    grammar with integer numbers and without [\u] escapes (documents using
    a fraction, an exponent or a [\u] escape are rejected by [parse],
    which [JSON.parse] would accept). Members are kept in textual order,
    a repeated key keeping its first place and its last value. *)

Definition dquote : ascii := ascii_of_nat 34.
Definition backslash : ascii := ascii_of_nat 92.

Definition json_ws (c : ascii) : bool :=
  let n := nat_of_ascii c in
  (n =? 32)%nat || (n =? 9)%nat || (n =? 10)%nat || (n =? 13)%nat.

Fixpoint skip_ws (s : string) : string :=
  match s with
  | String c r => if json_ws c then skip_ws r else s
  | EmptyString => EmptyString
  end.

(** The character an escape letter stands for. *)
Definition unescape (e : ascii) : option ascii :=
  if Ascii.eqb e dquote then Some dquote
  else if Ascii.eqb e backslash then Some backslash
  else if Ascii.eqb e "/" then Some "/"%char
  else if Ascii.eqb e "b" then Some (ascii_of_nat 8)
  else if Ascii.eqb e "f" then Some (ascii_of_nat 12)
  else if Ascii.eqb e "n" then Some (ascii_of_nat 10)
  else if Ascii.eqb e "r" then Some (ascii_of_nat 13)
  else if Ascii.eqb e "t" then Some (ascii_of_nat 9)
  else None.

(** The characters of a string literal after its opening quote, and what
    follows the closing quote. *)
Fixpoint read_string (s : string) : option (string * string) :=
  match s with
  | EmptyString => None
  | String c r =>
      if Ascii.eqb c dquote then Some (EmptyString, r)
      else if Ascii.eqb c backslash then
        match r with
        | String e r' =>
            match unescape e, read_string r' with
            | Some ch, Some (t, rest) => Some (String ch t, rest)
            | _, _ => None
            end
        | EmptyString => None
        end
      else if (nat_of_ascii c <? 32)%nat then None
      else match read_string r with
           | Some (t, rest) => Some (String c t, rest)
           | None => None
           end
  end.

Definition digit_value (c : ascii) : option Z :=
  let n := nat_of_ascii c in
  if (48 <=? n)%nat && (n <=? 57)%nat then Some (Z.of_nat (n - 48)) else None.

Fixpoint read_digits (acc : Z) (s : string) : Z * string :=
  match s with
  | String c r =>
      match digit_value c with
      | Some d => read_digits (10 * acc + d) r
      | None => (acc, s)
      end
  | EmptyString => (acc, s)
  end.

(** An integer numeral: no leading zero, and not the start of a fraction
    or an exponent. *)
Definition read_nat (s : string) : option (Z * string) :=
  match s with
  | String c r =>
      match digit_value c with
      | Some d =>
          let (n, rest) := if d =? 0 then (0, r) else read_digits d r in
          match rest with
          | String c' _ =>
              if Ascii.eqb c' "." || Ascii.eqb c' "e" || Ascii.eqb c' "E" then None
              else match digit_value c' with
                   | Some _ => None
                   | None => Some (n, rest)
                   end
          | EmptyString => Some (n, rest)
          end
      | None => None
      end
  | EmptyString => None
  end.

Definition read_literal (word : string) (v : json) (s : string)
  : option (json * string) :=
  if String.prefix word s then Some (v, Js.slice (String.length word) s) else None.

(** A repeated key keeps its first place and takes the last value. *)
Fixpoint set_member (k : string) (v : json) (ms : list (string * json))
  : list (string * json) :=
  match ms with
  | [] => [(k, v)]
  | (k0, v0) :: r =>
      if String.eqb k0 k then (k0, v) :: r else (k0, v0) :: set_member k v r
  end.

Fixpoint read_value (fuel : nat) (s : string) : option (json * string) :=
  match fuel with
  | O => None
  | S fuel' =>
      match skip_ws s with
      | EmptyString => None
      | String c r =>
          if Ascii.eqb c "n" then read_literal "ull" JNull r
          else if Ascii.eqb c "t" then read_literal "rue" (JBool true) r
          else if Ascii.eqb c "f" then read_literal "alse" (JBool false) r
          else if Ascii.eqb c dquote then
            match read_string r with
            | Some (t, rest) => Some (JStr t, rest)
            | None => None
            end
          else if Ascii.eqb c "[" then
            match skip_ws r with
            | String "]" rest => Some (JArr [], rest)
            | _ =>
                match read_elems fuel' r with
                | Some (vs, rest) => Some (JArr vs, rest)
                | None => None
                end
            end
          else if Ascii.eqb c "{" then
            match skip_ws r with
            | String "}" rest => Some (JObj [], rest)
            | _ =>
                match read_members fuel' [] r with
                | Some (ms, rest) => Some (JObj ms, rest)
                | None => None
                end
            end
          else if Ascii.eqb c "-" then
            match read_nat r with
            | Some (n, rest) => Some (JNum (- n), rest)
            | None => None
            end
          else
            match read_nat (String c r) with
            | Some (n, rest) => Some (JNum n, rest)
            | None => None
            end
      end
  end
with read_elems (fuel : nat) (s : string) : option (list json * string) :=
  match fuel with
  | O => None
  | S fuel' =>
      match read_value fuel' s with
      | Some (v, r) =>
          match skip_ws r with
          | String "," r' =>
              match read_elems fuel' r' with
              | Some (vs, rest) => Some (v :: vs, rest)
              | None => None
              end
          | String "]" rest => Some ([v], rest)
          | _ => None
          end
      | None => None
      end
  end
with read_members (fuel : nat) (acc : list (string * json)) (s : string)
  : option (list (string * json) * string) :=
  match fuel with
  | O => None
  | S fuel' =>
      match skip_ws s with
      | String c r =>
          if Ascii.eqb c dquote then
            match read_string r with
            | Some (k, r1) =>
                match skip_ws r1 with
                | String ":" r2 =>
                    match read_value fuel' r2 with
                    | Some (v, r3) =>
                        match skip_ws r3 with
                        | String "," r4 => read_members fuel' (set_member k v acc) r4
                        | String "}" rest => Some (set_member k v acc, rest)
                        | _ => None
                        end
                    | None => None
                    end
                | _ => None
                end
            | None => None
            end
          else None
      | EmptyString => None
      end
  end.

(** The reference [JSON.parse]: [None] is a [SyntaxError]. *)
Definition parse (s : string) : option json :=
  match read_value (2 * String.length s + 2) s with
  | Some (v, rest) =>
      match skip_ws rest with
      | EmptyString => Some v
      | String _ _ => None
      end
  | None => None
  end.

Definition hex_digit (n : nat) : ascii :=
  ascii_of_nat (if (n <? 10)%nat then 48 + n else 87 + n).

(** The escaped form of one character inside a string literal. *)
Definition escape (c : ascii) : string :=
  let n := nat_of_ascii c in
  if Ascii.eqb c dquote then String backslash (String dquote EmptyString)
  else if Ascii.eqb c backslash then String backslash (String backslash EmptyString)
  else if (n =? 8)%nat then String backslash "b"
  else if (n =? 12)%nat then String backslash "f"
  else if (n =? 10)%nat then String backslash "n"
  else if (n =? 13)%nat then String backslash "r"
  else if (n =? 9)%nat then String backslash "t"
  else if (n <? 32)%nat then
    String backslash ("u00" ^^ String (hex_digit (n / 16)) (String (hex_digit (n mod 16)) EmptyString))
  else String c EmptyString.

Fixpoint escape_all (s : string) : string :=
  match s with
  | EmptyString => EmptyString
  | String c r => escape c ^^ escape_all r
  end.

Definition quote (s : string) : string :=
  String dquote (escape_all s ^^ String dquote EmptyString).

Definition print_Z (n : Z) : string := NilZero.string_of_int (Z.to_int n).

(** The reference [JSON.stringify] (no indentation). *)
Fixpoint stringify (v : json) : string :=
  match v with
  | JNull => "null"
  | JBool true => "true"
  | JBool false => "false"
  | JNum n => print_Z n
  | JStr s => quote s
  | JArr l =>
      "[" ^^ (fix go (first : bool) (l : list json) : string :=
                match l with
                | [] => "]"
                | x :: r => (if first then "" else ",") ^^ stringify x ^^ go false r
                end) true l
  | JObj ms =>
      "{" ^^ (fix go (first : bool) (l : list (string * json)) : string :=
                match l with
                | [] => "}"
                | (k, x) :: r =>
                    (if first then "" else ",") ^^ quote k ^^ ":" ^^ stringify x ^^ go false r
                end) true ms
  end.

(** Documents are written with apostrophes where JSON has double quotes;
    [qq] puts the double quotes back. *)
Fixpoint qq (s : string) : string :=
  match s with
  | EmptyString => EmptyString
  | String c r => String (if Ascii.eqb c "'" then dquote else c) (qq r)
  end.

(** Depth-first size, the measure behind the induction principle. *)
Fixpoint size (v : json) : nat :=
  match v with
  | JArr l => S (fold_right (fun x n => (size x + n)%nat) O l)
  | JObj ms => S (fold_right (fun kv n => (size (snd kv) + n)%nat) O ms)
  | _ => 1%nat
  end.

(** Induction with the hypothesis available for every element of an
    array and every member value of an object. *)
Lemma json_induction (P : json -> Prop) :
  P JNull ->
  (forall b, P (JBool b)) ->
  (forall n, P (JNum n)) ->
  (forall s, P (JStr s)) ->
  (forall l, (forall x, In x l -> P x) -> P (JArr l)) ->
  (forall ms, (forall k x, In (k, x) ms -> P x) -> P (JObj ms)) ->
  forall v, P v.
Proof.
  intros Hnull Hbool Hnum Hstr Harr Hobj v.
  remember (size v) as n eqn:Hn.
  assert (Hle : (size v <= n)%nat) by lia. clear Hn.
  revert v Hle. induction n as [|n IH]; intros v Hle.
  - destruct v; simpl in Hle; lia.
  - destruct v as [| b | z | s | l | ms]; auto.
    + apply Harr. simpl in Hle. apply le_S_n in Hle.
      induction l as [|y l IHl]; intros x Hx; [destruct Hx|].
      simpl in Hle. destruct Hx as [->|Hx].
      * apply IH. lia.
      * apply IHl; [lia | exact Hx].
    + apply Hobj. simpl in Hle. apply le_S_n in Hle.
      induction ms as [|[k0 y] ms IHms]; intros k x Hx; [destruct Hx|].
      simpl in Hle. destruct Hx as [Heq|Hx].
      * inversion Heq; subst. apply IH. lia.
      * apply (IHms ltac:(lia) k x Hx).
Qed.

Example parse_object :
  parse (qq "{ 'a' : [1, -20, true, null], 'b': {'c':'x\ny'}, 'a': 'z' }")
  = Some (JObj [("a", JStr "z"); ("b", JObj [("c", JStr ("x" ^^ Js.nl ^^ "y"))])]).
Proof. vm_compute. reflexivity. Qed.

Example parse_rejects_prefix : parse (qq "{'a':") = None.
Proof. vm_compute. reflexivity. Qed.

Example stringify_object :
  stringify (JObj [("a", JNum 1); ("b", JArr [JStr "x"; JNull; JNum (-7)])])
  = qq "{'a':1,'b':['x',null,-7]}".
Proof. vm_compute. reflexivity. Qed.

End Json.

(* ================================================================== *)
(** * Tool-schema cleaner: [cleanJsonSchema] *)
(* ================================================================== *)

Module Schema.
Import Json.

(** The keys the loop deletes wherever it meets them. *)
Definition is_banned (key : string) : bool :=
  String.eqb key "$schema" || String.eqb key "additionalProperties" ||
  String.eqb key "title" || String.eqb key "examples".

(** [cleaned.type === 'string']. *)
Definition type_is_string (cleaned : list (string * json)) : bool :=
  match lookup "type" cleaned with
  | Some (JStr "string") => true
  | _ => false
  end.

(** One iteration of [for (const key in cleaned)]: what becomes of the
    property [key], holding [v], given the value [cleaned_v] a recursive
    call returns on [v]. [None] is [delete cleaned[key]]. The loop writes
    only the property it is visiting and never makes [type] the string
    "string" nor stops it from being it, so [cleaned.type === 'string']
    is the same in every iteration; it is passed as [type_string]. *)
Definition clean_key (type_string : bool) (key : string) (v cleaned_v : json)
  : option json :=
  if is_banned key then None
  else if String.eqb key "format" && type_string then None
  else if String.eqb key "properties" && typeof_object v then Some cleaned_v
  else if String.eqb key "items" && typeof_object v then Some cleaned_v
  else if typeof_object v && negb (isArray v) then Some cleaned_v
  else Some v.

(** [cleanJsonSchema]. The early return covers every value that is falsy
    or not of type object. [{ ...schema }] copies the members of an
    object, and turns an array into an object keyed by its indices. *)
Fixpoint cleanJsonSchema (schema : json) : json :=
  match schema with
  | JObj members =>
      JObj ((fix loop (todo : list (string * json)) : list (string * json) :=
               match todo with
               | [] => []
               | (key, v) :: rest =>
                   match clean_key (type_is_string members) key v (cleanJsonSchema v) with
                   | None => loop rest
                   | Some v' => (key, v') :: loop rest
                   end
               end) members)
  | JArr elems =>
      JObj ((fix loop (i : nat) (todo : list json) : list (string * json) :=
               match todo with
               | [] => []
               | v :: rest =>
                   match clean_key false (index_key i) v (cleanJsonSchema v) with
                   | None => loop (S i) rest
                   | Some v' => (index_key i, v') :: loop (S i) rest
                   end
               end) O elems)
  | _ => schema
  end.

(** The two loops, named, and the equations of [cleanJsonSchema]. *)
Fixpoint clean_members (type_string : bool) (todo : list (string * json))
  : list (string * json) :=
  match todo with
  | [] => []
  | (key, v) :: rest =>
      match clean_key type_string key v (cleanJsonSchema v) with
      | None => clean_members type_string rest
      | Some v' => (key, v') :: clean_members type_string rest
      end
  end.

Fixpoint clean_elems (i : nat) (todo : list json) : list (string * json) :=
  match todo with
  | [] => []
  | v :: rest =>
      match clean_key false (index_key i) v (cleanJsonSchema v) with
      | None => clean_elems (S i) rest
      | Some v' => (index_key i, v') :: clean_elems (S i) rest
      end
  end.

(** A banned key occurs nowhere in [v]: the reading of "at any depth"
    that looks inside arrays too. *)
Fixpoint key_free (bad : string -> bool) (v : json) : bool :=
  match v with
  | JObj ms =>
      (fix go (l : list (string * json)) : bool :=
         match l with
         | [] => true
         | (k, x) :: r => negb (bad k) && key_free bad x && go r
         end) ms
  | JArr l =>
      (fix go (l : list json) : bool :=
         match l with
         | [] => true
         | x :: r => key_free bad x && go r
         end) l
  | _ => true
  end.

(** What the cleaner does guarantee: below every object reached through
    member values that are not arrays, no banned key, and no [format]
    beside [type: "string"]. An array met on the way is not entered. *)
Fixpoint reach_clean (v : json) : bool :=
  match v with
  | JObj ms =>
      (fix go (l : list (string * json)) : bool :=
         match l with
         | [] => true
         | (k, x) :: r =>
             negb (is_banned k) &&
             negb (String.eqb k "format" && type_is_string ms) &&
             reach_clean x && go r
         end) ms
  | _ => true
  end.

Fixpoint reach_clean_members (type_string : bool) (l : list (string * json)) : bool :=
  match l with
  | [] => true
  | (k, x) :: r =>
      negb (is_banned k) && negb (String.eqb k "format" && type_string) &&
      reach_clean x && reach_clean_members type_string r
  end.

(** ** Equations *)

Lemma cleanJsonSchema_obj ms :
  cleanJsonSchema (JObj ms) = JObj (clean_members (type_is_string ms) ms).
Proof.
  simpl. f_equal. generalize (type_is_string ms) as ts. intros ts.
  induction ms as [|[k v] ms IH]; simpl; [reflexivity|].
  rewrite IH. reflexivity.
Qed.

Lemma cleanJsonSchema_arr l :
  cleanJsonSchema (JArr l) = JObj (clean_elems 0 l).
Proof.
  reflexivity.
Qed.

Lemma reach_clean_obj ms :
  reach_clean (JObj ms) = reach_clean_members (type_is_string ms) ms.
Proof.
  simpl. generalize (type_is_string ms) as ts. intros ts.
  induction ms as [|[k v] ms IH]; simpl; [reflexivity|].
  rewrite IH. reflexivity.
Qed.

(** ** Index keys are decimal numerals *)

Definition is_digit (c : ascii) : bool :=
  let n := nat_of_ascii c in (48 <=? n)%nat && (n <=? 57)%nat.

Lemma index_key_digit i :
  exists c r, index_key i = String c r /\ is_digit c = true.
Proof.
  unfold index_key. generalize (Nat.to_uint i) as u. intros u.
  destruct u; simpl; eauto.
Qed.

Lemma digit_key_kept c r :
  is_digit c = true ->
  is_banned (String c r) = false /\ String.eqb (String c r) "format" = false /\
  String.eqb (String c r) "type" = false.
Proof.
  intros Hc. unfold is_banned. simpl.
  destruct c as [[] [] [] [] [] [] [] []]; try discriminate Hc; simpl; auto.
Qed.

Lemma digit_key_plain c r :
  is_digit c = true ->
  String.eqb (String c r) "properties" = false /\
  String.eqb (String c r) "items" = false.
Proof.
  intros Hc. simpl.
  destruct c as [[] [] [] [] [] [] [] []]; try discriminate Hc; simpl; auto.
Qed.

Lemma index_key_kept i :
  is_banned (index_key i) = false /\ String.eqb (index_key i) "format" = false /\
  String.eqb (index_key i) "type" = false.
Proof.
  destruct (index_key_digit i) as (c & r & -> & Hc). now apply digit_key_kept.
Qed.

Lemma index_key_plain i :
  String.eqb (index_key i) "properties" = false /\
  String.eqb (index_key i) "items" = false.
Proof.
  destruct (index_key_digit i) as (c & r & -> & Hc). now apply digit_key_plain.
Qed.

(** ** The shape of a cleaned value *)

Lemma cleanJsonSchema_typeof v :
  typeof_object v = true ->
  cleanJsonSchema v = JNull \/ exists ms, cleanJsonSchema v = JObj ms.
Proof.
  destruct v; simpl; try discriminate; eauto.
Qed.

Lemma cleanJsonSchema_not_array v :
  typeof_object v = true -> isArray (cleanJsonSchema v) = false.
Proof.
  intros H. destruct (cleanJsonSchema_typeof v H) as [->|[ms ->]]; reflexivity.
Qed.

Lemma cleanJsonSchema_prim v :
  typeof_object v = false -> cleanJsonSchema v = v.
Proof. destruct v; simpl; try discriminate; reflexivity. Qed.

(** A key the loop deletes is not [type]. *)
Lemma clean_key_deletes_not_type ts k v cv :
  clean_key ts k v cv = None -> String.eqb k "type" = false.
Proof.
  unfold clean_key. destruct (String.eqb_spec k "type") as [->|]; [|reflexivity].
  simpl. destruct (typeof_object v && negb (isArray v)); discriminate.
Qed.

Lemma type_is_string_clean_members ts ms :
  type_is_string (clean_members ts ms) = type_is_string ms.
Proof.
  unfold type_is_string.
  induction ms as [|[k v] ms IH]; simpl; [reflexivity|].
  destruct (clean_key ts k v (cleanJsonSchema v)) as [v'|] eqn:E.
  - simpl. destruct (String.eqb k "type") eqn:Ek; [|exact IH].
    apply String.eqb_eq in Ek. subst k. unfold clean_key in E. simpl in E.
    destruct (typeof_object v && negb (isArray v)) eqn:Ev.
    + injection E as <-. apply andb_true_iff in Ev as [Ht _].
      destruct (cleanJsonSchema_typeof v Ht) as [->|[ms' ->]];
        destruct v; try discriminate; reflexivity.
    + injection E as <-. reflexivity.
  - rewrite (clean_key_deletes_not_type _ _ _ _ E). exact IH.
Qed.

(** ** One loop iteration is stable under a second cleaning *)

Lemma clean_key_stable ts k v v' :
  cleanJsonSchema (cleanJsonSchema v) = cleanJsonSchema v ->
  clean_key ts k v (cleanJsonSchema v) = Some v' ->
  clean_key ts k v' (cleanJsonSchema v') = Some v'.
Proof.
  intros IH. unfold clean_key.
  destruct (is_banned k); [discriminate|].
  destruct (String.eqb k "format" && ts); [discriminate|].
  destruct (typeof_object v) eqn:Ht.
  - pose proof (cleanJsonSchema_typeof v Ht) as Hshape.
    rewrite !andb_true_r.
    destruct (String.eqb k "properties"); simpl.
    { intros [= <-]. rewrite IH.
      destruct Hshape as [->|[ms ->]]; reflexivity. }
    destruct (String.eqb k "items"); simpl.
    { intros [= <-]. rewrite IH.
      destruct Hshape as [->|[ms ->]]; reflexivity. }
    destruct (isArray v) eqn:Ha; simpl.
    + intros [= <-]. rewrite Ha. destruct v; try discriminate. reflexivity.
    + intros [= <-]. rewrite IH.
      destruct Hshape as [->|[ms ->]]; reflexivity.
  - rewrite !andb_false_r. simpl. intros [= <-]. rewrite Ht.
    rewrite !andb_false_r. reflexivity.
Qed.

Lemma clean_members_stable ts ms :
  (forall k x, In (k, x) ms ->
     cleanJsonSchema (cleanJsonSchema x) = cleanJsonSchema x) ->
  clean_members ts (clean_members ts ms) = clean_members ts ms.
Proof.
  induction ms as [|[k v] ms IHms]; intros IH; simpl; [reflexivity|].
  assert (Hv : cleanJsonSchema (cleanJsonSchema v) = cleanJsonSchema v)
    by (apply (IH k v); left; reflexivity).
  assert (Hrest : clean_members ts (clean_members ts ms) = clean_members ts ms)
    by (apply IHms; intros k' x Hx; apply (IH k' x); right; exact Hx).
  destruct (clean_key ts k v (cleanJsonSchema v)) as [v'|] eqn:E.
  - simpl. rewrite (clean_key_stable ts k v v' Hv E), Hrest. reflexivity.
  - exact Hrest.
Qed.

(** Members made from array elements: a second pass treats them the
    same whatever it finds for [cleaned.type], the keys being numerals. *)
Lemma clean_elems_stable ts i l :
  (forall x, In x l ->
     cleanJsonSchema (cleanJsonSchema x) = cleanJsonSchema x) ->
  clean_members ts (clean_elems i l) = clean_elems i l.
Proof.
  revert i. induction l as [|v l IHl]; intros i IH; simpl; [reflexivity|].
  assert (Hv : cleanJsonSchema (cleanJsonSchema v) = cleanJsonSchema v)
    by (apply IH; left; reflexivity).
  assert (Hrest : clean_members ts (clean_elems (S i) l) = clean_elems (S i) l)
    by (apply IHl; intros x Hx; apply IH; right; exact Hx).
  destruct (clean_key false (index_key i) v (cleanJsonSchema v)) as [v'|] eqn:E.
  - simpl. pose proof (clean_key_stable false _ _ _ Hv E) as E2.
    assert (E3 : clean_key ts (index_key i) v' (cleanJsonSchema v') = Some v').
    { revert E2. unfold clean_key.
      destruct (index_key_kept i) as (_ & -> & _). simpl. exact (fun H => H). }
    rewrite E3, Hrest. reflexivity.
  - exact Hrest.
Qed.

Lemma cleanJsonSchema_idempotent s :
  cleanJsonSchema (cleanJsonSchema s) = cleanJsonSchema s.
Proof.
  induction s as [| b | n | str | l IH | ms IH] using json_induction;
    try reflexivity.
  - rewrite cleanJsonSchema_arr, cleanJsonSchema_obj.
    f_equal. apply clean_elems_stable. exact IH.
  - rewrite cleanJsonSchema_obj, cleanJsonSchema_obj.
    rewrite type_is_string_clean_members.
    f_equal. apply clean_members_stable. exact IH.
Qed.

(** ** What is banned is gone, as far as the recursion goes *)

Lemma clean_key_reach ts k v v' :
  reach_clean (cleanJsonSchema v) = true ->
  clean_key ts k v (cleanJsonSchema v) = Some v' ->
  is_banned k = false /\ String.eqb k "format" && ts = false /\
  reach_clean v' = true.
Proof.
  intros IH. unfold clean_key.
  destruct (is_banned k); [discriminate|].
  destruct (String.eqb k "format" && ts); [discriminate|].
  assert (Hraw : typeof_object v && negb (isArray v) = false -> reach_clean v = true).
  { destruct v; simpl; try reflexivity. discriminate. }
  destruct (String.eqb k "properties" && typeof_object v);
    [intros [= <-]; auto|].
  destruct (String.eqb k "items" && typeof_object v);
    [intros [= <-]; auto|].
  destruct (typeof_object v && negb (isArray v));
    intros [= <-]; auto.
Qed.

Lemma clean_members_reach ts ms :
  (forall k x, In (k, x) ms -> reach_clean (cleanJsonSchema x) = true) ->
  reach_clean_members ts (clean_members ts ms) = true.
Proof.
  induction ms as [|[k v] ms IHms]; intros IH; simpl; [reflexivity|].
  assert (Hrest : reach_clean_members ts (clean_members ts ms) = true)
    by (apply IHms; intros k' x Hx; apply (IH k' x); right; exact Hx).
  destruct (clean_key ts k v (cleanJsonSchema v)) as [v'|] eqn:E; [|exact Hrest].
  destruct (clean_key_reach ts k v v' (IH k v (or_introl eq_refl)) E)
    as (Hb & Hf & Hv).
  simpl. rewrite Hb, Hf, Hv, Hrest. reflexivity.
Qed.

Lemma clean_elems_reach ts i l :
  (forall x, In x l -> reach_clean (cleanJsonSchema x) = true) ->
  reach_clean_members ts (clean_elems i l) = true.
Proof.
  revert i. induction l as [|v l IHl]; intros i IH; simpl; [reflexivity|].
  assert (Hrest : reach_clean_members ts (clean_elems (S i) l) = true)
    by (apply IHl; intros x Hx; apply IH; right; exact Hx).
  destruct (clean_key false (index_key i) v (cleanJsonSchema v)) as [v'|] eqn:E;
    [|exact Hrest].
  destruct (clean_key_reach false _ v v' (IH v (or_introl eq_refl)) E)
    as (Hb & _ & Hv).
  destruct (index_key_kept i) as (_ & Hf & _).
  simpl. rewrite Hb, Hf, Hv, Hrest. reflexivity.
Qed.

Lemma cleanJsonSchema_reach_clean s :
  reach_clean (cleanJsonSchema s) = true.
Proof.
  induction s as [| b | n | str | l IH | ms IH] using json_induction;
    try reflexivity.
  - rewrite cleanJsonSchema_arr, reach_clean_obj.
    apply clean_elems_reach. exact IH.
  - rewrite cleanJsonSchema_obj, reach_clean_obj.
    rewrite type_is_string_clean_members.
    apply clean_members_reach. exact IH.
Qed.

(** ** Members that survive keep their place *)

Lemma lookup_clean_members ts key ms v v' :
  lookup key ms = Some v ->
  clean_key ts key v (cleanJsonSchema v) = Some v' ->
  lookup key (clean_members ts ms) = Some v'.
Proof.
  intros Hl Hk. induction ms as [|[k0 v0] ms IH]; simpl in *; [discriminate|].
  destruct (String.eqb k0 key) eqn:Ek.
  - apply String.eqb_eq in Ek. subst k0. injection Hl as ->.
    rewrite Hk. simpl. rewrite String.eqb_refl. reflexivity.
  - destruct (clean_key ts k0 v0 (cleanJsonSchema v0)); [|auto].
    simpl. rewrite Ek. auto.
Qed.

(** What the loop leaves at an array index: a plain object (or [null])
    cleaned, anything else as it was. *)
Definition clean_elem (v : json) : json :=
  if typeof_object v && negb (isArray v) then cleanJsonSchema v else v.

Lemma clean_elems_spread i l :
  clean_elems i l =
  combine (map index_key (seq i (length l))) (map clean_elem l).
Proof.
  revert i. induction l as [|v l IH]; intros i; simpl; [reflexivity|].
  unfold clean_key, clean_elem.
  destruct (index_key_kept i) as (-> & -> & _).
  destruct (index_key_plain i) as (-> & ->). simpl.
  rewrite IH. destruct (typeof_object v && negb (isArray v)); reflexivity.
Qed.


(** A tuple-form schema. *)
Definition tuple_items : list json :=
  [ JObj [("type", JStr "string"); ("title", JStr "Name")];
    JObj [("type", JStr "number")] ].

Definition tuple_schema : list (string * json) :=
  [ ("type", JStr "array"); ("items", JArr tuple_items) ].


Example tuple_schema_cleaned :
  cleanJsonSchema (JObj tuple_schema) =
  JObj [ ("type", JStr "array");
         ("items", JObj [ ("0", JObj [("type", JStr "string")]);
                          ("1", JObj [("type", JStr "number")]) ]) ].
Proof. reflexivity. Qed.

(** A schema with a banned key inside an array that is not [items]. *)
Definition any_of_schema : json :=
  JObj [ ("anyOf", JArr [ JObj [ ("type", JStr "string");
                                 ("title", JStr "Name");
                                 ("format", JStr "email") ] ]) ].

(** C6 (as stated) fails on "at any depth": the cleaner returns the
    schema above as it is, with [title], and [format] beside
    [type: "string"], one level down. *)
Lemma C6_counterexample_banned_key_in_array :
  cleanJsonSchema any_of_schema = any_of_schema /\
  key_free is_banned (cleanJsonSchema any_of_schema) = false.
Proof. split; reflexivity. Qed.

End Schema.

(* ================================================================== *)
(** * [cleanJsonSchema] on a store of mutable objects *)
(* ================================================================== *)

(** The same function with objects and arrays held in a store and
    referred to by location, so that reading, allocating and assigning are
    distinguished: [{ ...schema }] allocates, [delete cleaned[key]] and
    [cleaned[key] = ...] write to the allocated object. *)
Module SchemaStore.
Import Json.

Definition loc := nat.

Inductive value :=
| VNull
| VBool (b : bool)
| VNum (n : Z)
| VStr (s : string)
| VRef (l : loc).

Inductive object :=
| OObj (members : list (string * value))
| OArr (elems : list value).

Local Abbreviation store := (gmap loc object).

Definition typeof_object (v : value) : bool :=
  match v with VNull | VRef _ => true | _ => false end.

Definition isArray (h : store) (v : value) : bool :=
  match v with
  | VRef l => match h !! l with Some (OArr _) => true | _ => false end
  | _ => false
  end.

Fixpoint lookup (key : string) (members : list (string * value)) : option value :=
  match members with
  | [] => None
  | (k, v) :: r => if String.eqb k key then Some v else lookup key r
  end.

(** [cleaned.type === 'string']. *)
Definition type_is_string (cleaned : list (string * value)) : bool :=
  match lookup "type" cleaned with
  | Some (VStr "string") => true
  | _ => false
  end.

(** The own enumerable properties [{ ...schema }] copies. *)
Fixpoint spread_from (i : nat) (elems : list value) : list (string * value) :=
  match elems with
  | [] => []
  | v :: r => (index_key i, v) :: spread_from (S i) r
  end.

Definition spread (o : object) : list (string * value) :=
  match o with
  | OObj ms => ms
  | OArr vs => spread_from 0 vs
  end.

Section Loop.

(** The recursive call, and the location of [cleaned]. *)
Variable rec : store -> value -> option (store * value).
Variable cleaned : loc.

(** [for (const key in cleaned)]: [todo] holds the properties still to
    visit, [done] the ones visited and kept; the object at [cleaned] is
    [done ++ todo] on entry. Each write replaces the object at
    [cleaned]. [None] is a recursive call that fails for lack of fuel. *)
Fixpoint loop (h : store) (done todo : list (string * value)) : option store :=
  match todo with
  | [] => Some h
  | (key, v) :: rest =>
      let delete := loop (<[cleaned := OObj (done ++ rest)]> h) done rest in
      let assign :=
        match rec h v with
        | Some (h', v') =>
            loop (<[cleaned := OObj (done ++ (key, v') :: rest)]> h')
                 (done ++ [(key, v')]) rest
        | None => None
        end in
      if Schema.is_banned key then delete
      else if String.eqb key "format" && type_is_string (done ++ todo) then delete
      else if String.eqb key "properties" && typeof_object v then assign
      else if String.eqb key "items" && typeof_object v then assign
      else if typeof_object v && negb (isArray h v) then assign
      else loop h (done ++ [(key, v)]) rest
  end.

End Loop.

(** [cleanJsonSchema]: the store after the call and the value returned.
    [fuel] bounds the depth of the recursion. *)
Fixpoint cleanJsonSchema (fuel : nat) (h : store) (schema : value)
  : option (store * value) :=
  match fuel with
  | O => None
  | S fuel' =>
      match schema with
      | VRef l =>
          match h !! l with
          | Some o =>
              let cleaned := fresh (dom h) in
              match loop (cleanJsonSchema fuel') cleaned
                      (<[cleaned := OObj (spread o)]> h) [] (spread o) with
              | Some h' => Some (h', VRef cleaned)
              | None => None
              end
          | None => None
          end
      | _ => Some (h, schema)
      end
  end.

(** ** The input is left as it was *)

Lemma loop_extends rec cleaned (h0 : store) :
  (forall h v h' v', rec h v = Some (h', v') -> h ⊆ h') ->
  h0 !! cleaned = None ->
  forall todo done h hf,
    h0 ⊆ h -> loop rec cleaned h done todo = Some hf -> h0 ⊆ hf.
Proof.
  intros Hrec Hc. induction todo as [|[key v] rest IH]; intros done h hf Hsub; simpl.
  - intros [= <-]. exact Hsub.
  - assert (Hdel : loop rec cleaned (<[cleaned := OObj (done ++ rest)]> h) done rest
                   = Some hf -> h0 ⊆ hf).
    { apply IH. now apply insert_subseteq_r. }
    assert (Hasg : match rec h v with
                   | Some (h', v') =>
                       loop rec cleaned
                         (<[cleaned := OObj (done ++ (key, v') :: rest)]> h')
                         (done ++ [(key, v')]) rest
                   | None => None
                   end = Some hf -> h0 ⊆ hf).
    { destruct (rec h v) as [[h' v']|] eqn:E; [|discriminate].
      apply IH. apply insert_subseteq_r; [exact Hc|].
      etransitivity; [exact Hsub | eapply Hrec; eauto]. }
    destruct (Schema.is_banned key); [exact Hdel|].
    destruct (_ && type_is_string _); [exact Hdel|].
    destruct (_ && _); [exact Hasg|].
    destruct (_ && _); [exact Hasg|].
    destruct (_ && _); [exact Hasg|].
    now apply IH.
Qed.

(** Whatever the store and the value, a call that returns has changed
    no object that existed before it. *)
Lemma cleanJsonSchema_extends fuel (h : store) v h' v' :
  cleanJsonSchema fuel h v = Some (h', v') -> h ⊆ h'.
Proof.
  revert h v h' v'. induction fuel as [|fuel IH]; intros h v h' v'; simpl;
    [discriminate|].
  destruct v as [| b | n | s | l]; try (intros [= <- <-]; reflexivity).
  destruct (h !! l) as [o|]; [|discriminate].
  destruct (loop _ _ _ _ _) as [hf|] eqn:E; [|discriminate].
  intros [= <- <-].
  eapply (loop_extends _ (fresh (dom h)) h IH); [| |exact E].
  - apply not_elem_of_dom, is_fresh.
  - apply insert_subseteq, not_elem_of_dom, is_fresh.
Qed.

(** ** Stores that hold a JSON value *)

(** [repr A h t v]: in [h], the value [v] is the JSON value [t], every
    object and array of it living at a location outside [A]. *)
Fixpoint repr (A : loc -> Prop) (h : store) (t : json) (v : value) {struct t}
  : Prop :=
  match t, v with
  | JNull, VNull => True
  | JBool b, VBool b' => b = b'
  | JNum n, VNum n' => n = n'
  | JStr s, VStr s' => s = s'
  | JArr ts, VRef l =>
      ~ A l /\ exists vs, h !! l = Some (OArr vs) /\
        (fix all2 (ts : list json) (vs : list value) : Prop :=
           match ts, vs with
           | [], [] => True
           | t :: ts', v :: vs' => repr A h t v /\ all2 ts' vs'
           | _, _ => False
           end) ts vs
  | JObj ts, VRef l =>
      ~ A l /\ exists ms, h !! l = Some (OObj ms) /\
        (fix all2 (ts : list (string * json)) (ms : list (string * value)) : Prop :=
           match ts, ms with
           | [], [] => True
           | (k, t) :: ts', (k', v) :: ms' => k = k' /\ repr A h t v /\ all2 ts' ms'
           | _, _ => False
           end) ts ms
  | _, _ => False
  end.

Definition mrel (A : loc -> Prop) (h : store)
  (kt : string * json) (kv : string * value) : Prop :=
  fst kt = fst kv /\ repr A h (snd kt) (snd kv).

Lemma repr_arr A h ts l :
  repr A h (JArr ts) (VRef l) <->
  ~ A l /\ exists vs, h !! l = Some (OArr vs) /\ Forall2 (repr A h) ts vs.
Proof.
  simpl. split; intros (Hl & vs & Hh & H); (split; [exact Hl|]);
    exists vs; (split; [exact Hh|]); clear Hh.
  - revert vs H. induction ts as [|t ts IH]; intros [|v vs] H;
      try contradiction; constructor; [apply H | apply IH, H].
  - induction H as [|t v ts vs Htv _ IH]; [exact I | split; assumption].
Qed.

Lemma repr_obj A h ts l :
  repr A h (JObj ts) (VRef l) <->
  ~ A l /\ exists ms, h !! l = Some (OObj ms) /\ Forall2 (mrel A h) ts ms.
Proof.
  simpl. split; intros (Hl & ms & Hh & H); (split; [exact Hl|]);
    exists ms; (split; [exact Hh|]); clear Hh.
  - revert ms H. induction ts as [|[k t] ts IH]; intros [|[k' v] ms] H;
      try contradiction; constructor.
    + split; [apply H | apply H].
    + apply IH, H.
  - induction H as [|[k t] [k' v] ts ms [Hk Htv] _ IH]; [exact I|].
    simpl in Hk, Htv. auto.
Qed.

Lemma Forall2_impl_In {X Y} (P Q : X -> Y -> Prop) l1 l2 :
  Forall2 P l1 l2 ->
  (forall x y, In x l1 -> P x y -> Q x y) ->
  Forall2 Q l1 l2.
Proof.
  induction 1 as [|x y l1 l2 Hxy _ IH]; intros H; constructor.
  - apply H; [left; reflexivity | exact Hxy].
  - apply IH. intros x' y' Hin. apply H. right. exact Hin.
Qed.

(** A value stays what it is when the objects outside [A] stay, and it
    avoids [A'] as soon as those do. *)
Lemma repr_transport A A' (h h' : store) t v :
  (forall l o, ~ A l -> h !! l = Some o -> ~ A' l /\ h' !! l = Some o) ->
  repr A h t v -> repr A' h' t v.
Proof.
  intros Hagree. revert v.
  induction t as [| b | n | s | ts IH | ts IH] using json_induction;
    intros v; try (destruct v; simpl; tauto).
  - destruct v as [| | | |l]; try (simpl; tauto).
    rewrite !repr_arr. intros (Hl & vs & Hh & H).
    destruct (Hagree _ _ Hl Hh) as [Hl' Hh'].
    split; [exact Hl'|]. exists vs. split; [exact Hh'|].
    eapply Forall2_impl_In; [exact H|]. intros x y Hin. now apply IH.
  - destruct v as [| | | |l]; try (simpl; tauto).
    rewrite !repr_obj. intros (Hl & ms & Hh & H).
    destruct (Hagree _ _ Hl Hh) as [Hl' Hh'].
    split; [exact Hl'|]. exists ms. split; [exact Hh'|].
    eapply Forall2_impl_In; [exact H|].
    intros [k x] [k' y] Hin [Hk Hxy]. split; [exact Hk|].
    simpl in *. eapply IH; eauto.
Qed.

Lemma mrel_transport A A' (h h' : store) ts ms :
  (forall l o, ~ A l -> h !! l = Some o -> ~ A' l /\ h' !! l = Some o) ->
  Forall2 (mrel A h) ts ms -> Forall2 (mrel A' h') ts ms.
Proof.
  intros Hagree H. eapply Forall2_impl_In; [exact H|].
  intros x y _ [Hk Hxy]. split; [exact Hk|].
  eapply repr_transport; eauto.
Qed.

(** The tests of the loop read the same on both sides. *)
Lemma repr_tests A (h : store) t v :
  repr A h t v ->
  typeof_object v = Json.typeof_object t /\ isArray h v = Json.isArray t.
Proof.
  destruct t, v; simpl; try tauto.
  - intros (_ & vs & -> & _). auto.
  - intros (_ & ms & -> & _). auto.
Qed.

Definition is_string_string (t : json) : bool :=
  match t with JStr "string" => true | _ => false end.

Lemma lookup_app key a b :
  Json.lookup key (a ++ b) =
  match Json.lookup key a with Some y => Some y | None => Json.lookup key b end.
Proof.
  induction a as [|[k x] a IH]; simpl; [reflexivity|].
  destruct (String.eqb k key); [reflexivity | exact IH].
Qed.

Lemma type_is_string_drop a k x b :
  String.eqb k "type" = false ->
  Schema.type_is_string (a ++ b) = Schema.type_is_string (a ++ (k, x) :: b).
Proof.
  intros Hk. unfold Schema.type_is_string. rewrite !lookup_app. simpl.
  now rewrite Hk.
Qed.

Lemma type_is_string_replace a k x x' b :
  is_string_string x = is_string_string x' ->
  Schema.type_is_string ((a ++ [(k, x')]) ++ b) =
  Schema.type_is_string (a ++ (k, x) :: b).
Proof.
  intros Hx. rewrite <- app_assoc. simpl.
  unfold Schema.type_is_string. rewrite !lookup_app. simpl.
  destruct (Json.lookup "type" a); [reflexivity|].
  destruct (String.eqb k "type"); [|reflexivity].
  exact (eq_sym Hx).
Qed.

Lemma type_is_string_repr A (h : store) ts ms :
  Forall2 (mrel A h) ts ms ->
  type_is_string ms = Schema.type_is_string ts.
Proof.
  unfold type_is_string, Schema.type_is_string.
  induction 1 as [|[k t] [k' v] ts ms [Hk Htv] _ IH]; [reflexivity|].
  simpl in *. subst k'. destruct (String.eqb k "type"); [|exact IH].
  destruct t, v; simpl in Htv; try tauto; subst; reflexivity.
Qed.

(** ** The store version computes [Schema.cleanJsonSchema] *)

(** With fuel [f], on any store that holds [t], the call returns, extends
    the store, and returns a value that is the cleaned [t]. *)
Definition refines (f : nat) (t : json) : Prop :=
  forall (A : loc -> Prop) (h : store) v,
    repr A h t v ->
    (forall l, A l -> is_Some (h !! l)) ->
    exists h' v',
      cleanJsonSchema f h v = Some (h', v') /\
      h ⊆ h' /\
      repr A h' (Schema.cleanJsonSchema t) v'.

Lemma clean_not_string_string t :
  Json.typeof_object t = true ->
  is_string_string t = is_string_string (Schema.cleanJsonSchema t).
Proof. destruct t; simpl; try discriminate; reflexivity. Qed.

Lemma loop_refines f (A : loc -> Prop) c :
  A c ->
  forall todo_t,
    (forall k t, In (k, t) todo_t -> refines f t) ->
    forall todo done_t done (h : store),
      Forall2 (mrel A h) todo_t todo ->
      Forall2 (mrel A h) done_t done ->
      (forall l, A l -> is_Some (h !! l)) ->
      h !! c = Some (OObj (done ++ todo)) ->
      exists hf done',
        loop (cleanJsonSchema f) c h done todo = Some hf /\
        (forall l o, l <> c -> h !! l = Some o -> hf !! l = Some o) /\
        hf !! c = Some (OObj done') /\
        Forall2 (mrel A hf)
          (done_t ++ Schema.clean_members
                       (Schema.type_is_string (done_t ++ todo_t)) todo_t)
          done'.
Proof.
  intros Hc. induction todo_t as [|[k t] rest_t IH];
    intros Hrec todo done_t done h Htodo Hdone Hdom Hcell.
  - inversion Htodo; subst. exists h, done. simpl.
    rewrite app_nil_r in *. auto.
  - inversion Htodo as [|? [k' v] ? rest [Hk Htv] Hrest]; subst.
    simpl in Hk, Htv. subst k'.
    set (tis := Schema.type_is_string (done_t ++ (k, t) :: rest_t)).
    assert (Htis : type_is_string (done ++ (k, v) :: rest) = tis).
    { apply (type_is_string_repr A h). apply Forall2_app; [exact Hdone|].
      constructor; [split; auto | exact Hrest]. }
    destruct (repr_tests _ _ _ _ Htv) as [Htype Harr].
    assert (Hrec' : forall k' t', In (k', t') rest_t -> refines f t')
      by (intros k' t' Hin; apply (Hrec k' t'); right; exact Hin).
    (* the three continuations *)
    assert (Hdel : String.eqb k "type" = false ->
      exists hf done',
        loop (cleanJsonSchema f) c (<[c := OObj (done ++ rest)]> h) done rest
          = Some hf /\
        (forall l o, l <> c -> h !! l = Some o -> hf !! l = Some o) /\
        hf !! c = Some (OObj done') /\
        Forall2 (mrel A hf) (done_t ++ Schema.clean_members tis rest_t) done').
    { intros Hkt.
      assert (Hag : forall l o, ~ A l -> h !! l = Some o ->
                ~ A l /\ <[c := OObj (done ++ rest)]> h !! l = Some o).
      { intros l o Hl Hlo. split; [exact Hl|].
        rewrite lookup_insert_ne; [exact Hlo | intros ->; auto]. }
      destruct (IH Hrec' rest done_t done (<[c := OObj (done ++ rest)]> h))
        as (hf & done' & E & Hagree & Hcell' & HF).
      - exact (mrel_transport _ _ _ _ _ _ Hag Hrest).
      - exact (mrel_transport _ _ _ _ _ _ Hag Hdone).
      - intros l Hl. destruct (decide (c = l)) as [->|Hne].
        + rewrite lookup_insert_eq. eauto.
        + rewrite lookup_insert_ne; auto.
      - apply lookup_insert_eq.
      - exists hf, done'. repeat split; auto.
        + intros l o Hne Hlo. apply Hagree; [exact Hne|].
          rewrite lookup_insert_ne; auto.
        + rewrite (type_is_string_drop done_t k t rest_t Hkt) in HF. exact HF. }
    assert (Hasg : Json.typeof_object t = true ->
      exists hf done',
        match cleanJsonSchema f h v with
        | Some (h', v') =>
            loop (cleanJsonSchema f) c
              (<[c := OObj (done ++ (k, v') :: rest)]> h') (done ++ [(k, v')]) rest
        | None => None
        end = Some hf /\
        (forall l o, l <> c -> h !! l = Some o -> hf !! l = Some o) /\
        hf !! c = Some (OObj done') /\
        Forall2 (mrel A hf)
          (done_t ++ (k, Schema.cleanJsonSchema t)
                  :: Schema.clean_members tis rest_t) done').
    { intros Hobj.
      destruct (Hrec k t (or_introl eq_refl) A h v Htv Hdom)
        as (h' & v' & E & Hsub & Hv').
      rewrite E.
      assert (Hag : forall l o, ~ A l -> h !! l = Some o ->
                ~ A l /\ <[c := OObj (done ++ (k, v') :: rest)]> h' !! l = Some o).
      { intros l o Hl Hlo. split; [exact Hl|].
        rewrite lookup_insert_ne; [|intros ->; auto].
        eapply lookup_weaken; eauto. }
      assert (Hag' : forall l o, ~ A l -> h' !! l = Some o ->
                ~ A l /\ <[c := OObj (done ++ (k, v') :: rest)]> h' !! l = Some o).
      { intros l o Hl Hlo. split; [exact Hl|].
        rewrite lookup_insert_ne; [exact Hlo | intros ->; auto]. }
      destruct (IH Hrec' rest (done_t ++ [(k, Schema.cleanJsonSchema t)])
                  (done ++ [(k, v')])
                  (<[c := OObj (done ++ (k, v') :: rest)]> h'))
        as (hf & done' & E' & Hagree & Hcell' & HF).
      - exact (mrel_transport _ _ _ _ _ _ Hag Hrest).
      - apply Forall2_app; [exact (mrel_transport _ _ _ _ _ _ Hag Hdone)|].
        constructor; [|constructor]. split; [reflexivity|].
        exact (repr_transport _ _ _ _ _ _ Hag' Hv').
      - intros l Hl. destruct (decide (c = l)) as [->|Hne].
        + rewrite lookup_insert_eq. eauto.
        + rewrite lookup_insert_ne; [|exact Hne].
          destruct (Hdom l Hl) as [o Ho]. exists o. eapply lookup_weaken; eauto.
      - rewrite lookup_insert_eq, <- app_assoc. reflexivity.
      - exists hf, done'. repeat split; auto.
        + intros l o Hne Hlo. apply Hagree; [exact Hne|].
          rewrite lookup_insert_ne; [|auto]. eapply lookup_weaken; eauto.
        + rewrite (type_is_string_replace done_t k t _ rest_t
                     (clean_not_string_string t Hobj)) in HF.
          rewrite <- app_assoc in HF. exact HF. }
    assert (Hkeep :
      exists hf done',
        loop (cleanJsonSchema f) c h (done ++ [(k, v)]) rest = Some hf /\
        (forall l o, l <> c -> h !! l = Some o -> hf !! l = Some o) /\
        hf !! c = Some (OObj done') /\
        Forall2 (mrel A hf)
          (done_t ++ (k, t) :: Schema.clean_members tis rest_t) done').
    { destruct (IH Hrec' rest (done_t ++ [(k, t)]) (done ++ [(k, v)]) h)
        as (hf & done' & E' & Hagree & Hcell' & HF).
      - exact Hrest.
      - apply Forall2_app; [exact Hdone|].
        constructor; [split; auto | constructor].
      - exact Hdom.
      - rewrite <- app_assoc. exact Hcell.
      - exists hf, done'. repeat split; auto.
        rewrite (type_is_string_replace done_t k t t rest_t eq_refl) in HF.
        rewrite <- app_assoc in HF. exact HF. }
    (* the tests *)
    cbn [loop Schema.clean_members]. rewrite Htis, Htype, Harr.
    fold tis. unfold Schema.clean_key.
    destruct (Schema.is_banned k) eqn:Eb.
    { apply Hdel. destruct (String.eqb_spec k "type") as [->|]; [discriminate Eb | reflexivity]. }
    destruct (String.eqb k "format" && tis) eqn:Ef.
    { apply Hdel. apply andb_true_iff in Ef as [Ef _].
      apply String.eqb_eq in Ef. subst k. reflexivity. }
    destruct (String.eqb k "properties" && Json.typeof_object t) eqn:Ep.
    { apply Hasg. now apply andb_true_iff in Ep as [_ ?]. }
    destruct (String.eqb k "items" && Json.typeof_object t) eqn:Ei.
    { apply Hasg. now apply andb_true_iff in Ei as [_ ?]. }
    destruct (Json.typeof_object t && negb (Json.isArray t)) eqn:Eg.
    { apply Hasg. now apply andb_true_iff in Eg as [? _]. }
    exact Hkeep.
Qed.

(** The members [{ ...array }] has, on the JSON side. *)
Fixpoint tree_spread (i : nat) (ts : list json) : list (string * json) :=
  match ts with
  | [] => []
  | t :: r => (index_key i, t) :: tree_spread (S i) r
  end.

Lemma tree_spread_In i ts k t : In (k, t) (tree_spread i ts) -> In t ts.
Proof.
  revert i. induction ts as [|x ts IH]; intros i; simpl; [tauto|].
  intros [[= _ <-]|H]; [left; reflexivity | right; eauto].
Qed.

Lemma spread_repr A (h : store) i ts vs :
  Forall2 (repr A h) ts vs ->
  Forall2 (mrel A h) (tree_spread i ts) (spread_from i vs).
Proof.
  intros H. revert i. induction H as [|t v ts vs Htv _ IH]; intros i; simpl;
    constructor; [split; auto | apply IH].
Qed.

Lemma clean_elems_members tis i ts :
  Schema.clean_elems i ts = Schema.clean_members tis (tree_spread i ts).
Proof.
  revert i. induction ts as [|t ts IH]; intros i; simpl; [reflexivity|].
  rewrite <- IH. unfold Schema.clean_key.
  destruct (Schema.index_key_kept i) as (_ & -> & _). reflexivity.
Qed.

Lemma size_member k t ts :
  In (k, t) ts ->
  (size t <=
   fold_right (fun (kv : string * json) n => size (snd kv) + n) 0 ts)%nat.
Proof.
  induction ts as [|[k' t'] ts IH]; simpl; [tauto|].
  intros [[= -> ->]|H]; [lia | specialize (IH H); lia].
Qed.

Lemma size_elem t ts :
  In t ts -> (size t <= fold_right (fun x n => size x + n) 0 ts)%nat.
Proof.
  induction ts as [|t' ts IH]; simpl; [tauto|].
  intros [->|H]; [lia | specialize (IH H); lia].
Qed.

(** One allocation, then the loop: the case of an object or an array. *)
Lemma allocate_refines f (A : loc -> Prop) (h : store) l o ts ms :
  (forall k t, In (k, t) ts -> refines f t) ->
  h !! l = Some o ->
  spread o = ms ->
  Forall2 (mrel A h) ts ms ->
  (forall l, A l -> is_Some (h !! l)) ->
  exists h' v',
    cleanJsonSchema (S f) h (VRef l) = Some (h', v') /\
    h ⊆ h' /\
    repr A h' (JObj (Schema.clean_members (Schema.type_is_string ts) ts)) v'.
Proof.
  intros Hrec Hl Hspread Hms Hdom. simpl. rewrite Hl, Hspread.
  set (c := fresh (dom h)).
  assert (Hfresh : h !! c = None) by apply not_elem_of_dom, is_fresh.
  set (A' := fun l => A l \/ l = c).
  assert (Hin : forall l o, ~ A l -> h !! l = Some o ->
            ~ A' l /\ <[c := OObj ms]> h !! l = Some o).
  { intros l0 o0 Hl0 Hlo. assert (l0 <> c) by congruence. split.
    - intros [?|?]; auto.
    - rewrite lookup_insert_ne; auto. }
  destruct (loop_refines f A' c (or_intror eq_refl) ts Hrec ms [] []
              (<[c := OObj ms]> h)) as (hf & done' & E & Hagree & Hcell & HF).
  - exact (mrel_transport _ _ _ _ _ _ Hin Hms).
  - constructor.
  - intros l0 Hl0. destruct (decide (c = l0)) as [->|Hne].
    + rewrite lookup_insert_eq. eauto.
    + rewrite lookup_insert_ne; [|exact Hne].
      destruct Hl0 as [Hl0|Hl0]; [auto | congruence].
  - apply lookup_insert_eq.
  - rewrite E. exists hf, (VRef c). split; [reflexivity|]. split.
    + apply map_subseteq_spec. intros l0 o0 Hlo.
      assert (l0 <> c) by congruence.
      apply Hagree; [assumption|]. rewrite lookup_insert_ne; auto.
    + apply repr_obj. split.
      * intros Hc. destruct (Hdom c Hc) as [x Hx]. congruence.
      * exists done'. split; [exact Hcell|].
        refine (mrel_transport A' A hf hf _ _ _ HF).
        intros l0 o0 Hl0 Hlo. split; [|exact Hlo].
        intros Ha. apply Hl0. left. exact Ha.
Qed.

Lemma cleanJsonSchema_refines t f : (size t <= f)%nat -> refines f t.
Proof.
  revert f. induction t as [| b | n | s | ts IH | ts IH] using json_induction;
    intros f Hf A h v Hv Hdom;
    try (destruct v; simpl in Hv; try contradiction;
         destruct f as [|f]; [simpl in Hf; lia|];
         eexists _, _; simpl; split; [reflexivity|]; split;
         [reflexivity | exact Hv]).
  - destruct v as [| | | |l]; try (simpl in Hv; contradiction).
    apply repr_arr in Hv as (Hl & vs & Hh & Hvs).
    destruct f as [|f]; [simpl in Hf; lia|]. simpl in Hf.
    rewrite Schema.cleanJsonSchema_arr,
      (clean_elems_members (Schema.type_is_string (tree_spread 0 ts))).
    eapply allocate_refines; eauto.
    + intros k t Hin. apply IH; [eapply tree_spread_In; eauto|].
      pose proof (size_elem t ts (tree_spread_In _ _ _ _ Hin)). lia.
    + now apply spread_repr.
  - destruct v as [| | | |l]; try (simpl in Hv; contradiction).
    apply repr_obj in Hv as (Hl & ms & Hh & Hms).
    destruct f as [|f]; [simpl in Hf; lia|]. simpl in Hf.
    rewrite Schema.cleanJsonSchema_obj.
    eapply allocate_refines; eauto.
    intros k t Hin. apply (IH k t Hin).
    pose proof (size_member k t ts Hin). lia.
Qed.

(** On a store that holds the schema, [cleanJsonSchema] returns; every
    object of the store is afterwards what it was, the argument is still
    the same schema, and the value returned is the cleaned schema. *)
Lemma cleanJsonSchema_pure t (h : store) v :
  repr (fun _ => False) h t v ->
  exists h' v',
    cleanJsonSchema (size t) h v = Some (h', v') /\
    h ⊆ h' /\
    repr (fun _ => False) h' t v /\
    repr (fun _ => False) h' (Schema.cleanJsonSchema t) v'.
Proof.
  intros Hv.
  destruct (cleanJsonSchema_refines t (size t) (le_n _) _ h v Hv)
    as (h' & v' & E & Hsub & Hv'); [contradiction|].
  exists h', v'. repeat split; auto.
  eapply repr_transport; [|exact Hv].
  intros l o Hl Hlo. split; [exact Hl | eapply lookup_weaken; eauto].
Qed.

(** The schema [{ "type": "string", "title": "Name" }] at location 0. *)
Example store_run :
  cleanJsonSchema 2
    (<[0%nat := OObj [("type", VStr "string"); ("title", VStr "Name")]]> ∅)
    (VRef 0%nat) =
  Some (<[1%nat := OObj [("type", VStr "string")]]>
          (<[0%nat := OObj [("type", VStr "string"); ("title", VStr "Name")]]> ∅),
        VRef 1%nat).
Proof. vm_compute. reflexivity. Qed.

(** C6 (as amended). Cleaning is idempotent. The result holds none of
    [$schema], [additionalProperties], [title], [examples], and no
    [format] beside [type: "string"], in any object reached through
    member values that are not arrays (an array under [items] or
    [properties] has become an object and is entered; an array under
    another key is returned as it was, with the keys it holds). The input
    is not mutated: a call changes no object that existed before it, and
    on a store holding the schema it returns the cleaned schema in fresh
    objects while its argument still is the schema it was. *)
Theorem C6_clean_idempotent_not_mutating :
  (forall s,
     Schema.cleanJsonSchema (Schema.cleanJsonSchema s) = Schema.cleanJsonSchema s) /\
  (forall s, Schema.reach_clean (Schema.cleanJsonSchema s) = true) /\
  (forall fuel (h : store) v h' v',
     cleanJsonSchema fuel h v = Some (h', v') -> h ⊆ h') /\
  (forall t (h : store) v,
     repr (fun _ => False) h t v ->
     exists h' v',
       cleanJsonSchema (size t) h v = Some (h', v') /\
       h ⊆ h' /\
       repr (fun _ => False) h' t v /\
       repr (fun _ => False) h' (Schema.cleanJsonSchema t) v').
Proof.
  split; [exact Schema.cleanJsonSchema_idempotent|].
  split; [exact Schema.cleanJsonSchema_reach_clean|].
  split; [exact cleanJsonSchema_extends | exact cleanJsonSchema_pure].
Qed.

Definition titled_string : json :=
  JObj [("type", JStr "string"); ("title", JStr "Name")].

Definition titled_string_store : store :=
  <[0%nat := OObj [("type", VStr "string"); ("title", VStr "Name")]]> ∅.

Lemma C6_witness :
  exists h' v',
    cleanJsonSchema (size titled_string) titled_string_store (VRef 0%nat)
      = Some (h', v') /\
    titled_string_store ⊆ h' /\
    repr (fun _ => False) h' titled_string (VRef 0%nat) /\
    repr (fun _ => False) h' (Schema.cleanJsonSchema titled_string) v'.
Proof.
  apply (proj2 (proj2 (proj2 C6_clean_idempotent_not_mutating))).
  simpl. split; [tauto|]. eexists. split; [reflexivity|]. simpl. auto.
Defined.

End SchemaStore.

(* ================================================================== *)
(** * Responses and exceptions *)
(* ================================================================== *)

(** What [formatAnthropicErrorResponse] builds: the body's [error.type]
    and [error.message], and the HTTP status. *)
Record ErrorResponse := {
  err_message : string;
  err_type : string;
  err_status : Z
}.

Definition formatAnthropicErrorResponse (message type : string) (status : Z)
  : ErrorResponse :=
  {| err_message := message; err_type := type; err_status := status |}.

(** The exceptions the translators can raise. *)
Inductive exn := SyntaxError | TypeError | Error (message : string).

Inductive result (A : Type) :=
| Ok (a : A)
| Throw (e : exn).
Arguments Ok {A} a.
Arguments Throw {A} e.

(* ================================================================== *)
(** * Request validation: [validateRequest] *)
(* ================================================================== *)

Module Validation.

(** [AnthropicMessage.content]: a string or an array of blocks. *)
Inductive MessageContent :=
| ContentString (s : string)
| ContentBlocks (blocks : list Json.json).

(** A message as the validator reads it; [None] is a field that is
    absent or [null]. The records of this module are the bodies whose
    members have the types of the Messages API. To a member of another
    type the code applies JavaScript's truthiness and its coercion to a
    number (a [max_tokens] that is a string of letters passes the test
    [max_tokens <= 0]); such bodies are outside these records. *)
Record AnthropicMessage := {
  role : option string;
  content : option MessageContent
}.

(** The [messages] field: absent (or [null]), present and not an array,
    or an array. *)
Inductive MessagesField :=
| MessagesAbsent
| MessagesNotArray
| MessagesArray (l : list AnthropicMessage).

Record AnthropicMessagesRequest := {
  model : option string;
  max_tokens : option Z;
  messages : MessagesField
}.

(** [!message.content]: absent, [null] and the empty string are falsy; an
    array, even empty, is truthy. *)
Definition content_truthy (c : option MessageContent) : bool :=
  match c with
  | Some (ContentString s) => Js.truthy s
  | Some (ContentBlocks _) => true
  | None => false
  end.

Definition invalid_request (message : string) : ErrorResponse :=
  formatAnthropicErrorResponse message "invalid_request_error" 400.

(** The body of [for (const message of requestBody.messages)]. *)
Fixpoint validateMessages (l : list AnthropicMessage) : option ErrorResponse :=
  match l with
  | [] => None
  | message :: rest =>
      if negb (Js.truthy_opt (role message)) ||
         (negb (String.eqb (default "" (role message)) "user") &&
          negb (String.eqb (default "" (role message)) "assistant"))
      then Some (invalid_request "Each message must have a valid role (user or assistant)")
      else if negb (content_truthy (content message))
      then Some (invalid_request "Each message must have content")
      else validateMessages rest
  end.

(** [validateRequest]. The argument is what [request.clone().json()]
    yields: [None] when the body is not JSON (the [catch] branch). The
    result is the error response, or [None] for [null]. *)
Definition validateRequest (body : option AnthropicMessagesRequest)
  : option ErrorResponse :=
  match body with
  | None => Some (invalid_request "Invalid request body JSON")
  | Some requestBody =>
      if negb (Js.truthy_opt (model requestBody))
      then Some (invalid_request "Model parameter is required")
      else if match max_tokens requestBody with
              | None => true
              | Some n => (n =? 0) || (n <=? 0)
              end
      then Some (invalid_request "max_tokens parameter is required and must be positive")
      else match messages requestBody with
           | MessagesAbsent | MessagesNotArray | MessagesArray [] =>
               Some (invalid_request
                       "Messages parameter is required and must be a non-empty array")
           | MessagesArray l => validateMessages l
           end
  end.

(** ** The conditions, stated apart from the code *)

Definition role_ok (m : AnthropicMessage) : bool :=
  match role m with
  | Some r => String.eqb r "user" || String.eqb r "assistant"
  | None => false
  end.

(** The request is acceptable in the sense of the validator: a message
    needs a truthy content. *)
Definition acceptable (b : AnthropicMessagesRequest) : bool :=
  Js.truthy_opt (model b) &&
  match max_tokens b with Some n => 0 <? n | None => false end &&
  match messages b with
  | MessagesArray (m :: l) =>
      forallb (fun m => role_ok m && content_truthy (content m)) (m :: l)
  | _ => false
  end.

(** The same with "content is not null" for the last condition. *)
Definition acceptable_non_null (b : AnthropicMessagesRequest) : bool :=
  Js.truthy_opt (model b) &&
  match max_tokens b with Some n => 0 <? n | None => false end &&
  match messages b with
  | MessagesArray (m :: l) =>
      forallb (fun m => role_ok m && match content m with Some _ => true | None => false end)
              (m :: l)
  | _ => false
  end.

Lemma role_guard m :
  negb (Js.truthy_opt (role m)) ||
  (negb (String.eqb (default "" (role m)) "user") &&
   negb (String.eqb (default "" (role m)) "assistant")) = negb (role_ok m).
Proof.
  unfold role_ok. destruct (role m) as [[|c r]|]; simpl; try reflexivity.
  now rewrite negb_orb.
Qed.

Lemma validateMessages_none l :
  validateMessages l = None <->
  forallb (fun m => role_ok m && content_truthy (content m)) l = true.
Proof.
  induction l as [|m l IH]; simpl; [tauto|].
  rewrite role_guard.
  destruct (role_ok m); simpl; [|split; intros H; discriminate H].
  destruct (content_truthy (content m)); simpl; [exact IH|].
  split; intros H; discriminate H.
Qed.

Lemma validateMessages_error l e :
  validateMessages l = Some e ->
  err_status e = 400 /\ err_type e = "invalid_request_error".
Proof.
  induction l as [|m l IH]; simpl; [discriminate|].
  destruct (_ || _); [intros [= <-]; auto|].
  destruct (negb _); [intros [= <-]; auto|]. exact IH.
Qed.

Lemma validateRequest_none b :
  validateRequest (Some b) = None <-> acceptable b = true.
Proof.
  unfold validateRequest, acceptable.
  destruct (Js.truthy_opt (model b)); simpl; [|split; discriminate].
  destruct (max_tokens b) as [n|]; simpl; [|split; discriminate].
  destruct (Z.eqb_spec n 0) as [->|Hn]; simpl; [split; discriminate|].
  destruct (Z.leb_spec n 0), (Z.ltb_spec 0 n); try lia; simpl;
    [split; discriminate|].
  destruct (messages b) as [| |[|m l]]; try (split; discriminate).
  apply validateMessages_none.
Qed.

Lemma validateRequest_error body e :
  validateRequest body = Some e ->
  err_status e = 400 /\ err_type e = "invalid_request_error".
Proof.
  unfold validateRequest. destruct body as [b|]; [|intros [= <-]; auto].
  destruct (negb _); [intros [= <-]; auto|].
  destruct (match max_tokens b with Some _ => _ | None => _ end);
    [intros [= <-]; auto|].
  destruct (messages b) as [| |[|m l]]; try (intros [= <-]; auto; fail).
  apply validateMessages_error.
Qed.

(** A request whose only message has the empty string for content: every
    field is present and nothing is null. *)
Definition empty_content_request : AnthropicMessagesRequest :=
  {| model := Some "gpt-4o#openai";
     max_tokens := Some 16;
     messages := MessagesArray
       [ {| role := Some "user"; content := Some (ContentString "") |} ] |}.

(** C7 (as stated) fails: the request above meets every condition of the
    claim, its content being non-null, and is rejected. *)
Lemma C7_counterexample_empty_content :
  acceptable_non_null empty_content_request = true /\
  validateRequest (Some empty_content_request) =
    Some (formatAnthropicErrorResponse "Each message must have content"
            "invalid_request_error" 400).
Proof. split; reflexivity. Qed.

End Validation.

(* ================================================================== *)
(** * Non-streaming responses: [convertNormalResponse] *)
(* ================================================================== *)

Module NonStreaming.
Import Json.

(** The OpenAI chat completion, through the fields the translator reads.
    [None] is a field that is absent or [null]. *)
Record ToolCallFunction := {
  fn_name : string;
  fn_arguments : string
}.

Record ToolCall := {
  tc_id : string;
  tc_function : ToolCallFunction
}.

Record ChatMessage := {
  msg_content : option string;
  msg_tool_calls : option (list ToolCall)
}.

Record Choice := {
  message : option ChatMessage;
  finish_reason : option string
}.

Record Usage := {
  prompt_tokens : option Z;
  completion_tokens : option Z
}.

Record OpenAIData := {
  choices : option (list Choice);
  usage : option Usage
}.

(** The Anthropic message the translator builds. *)
Inductive ContentBlock :=
| text_block (text : string)
| tool_use_block (id name : string) (input : json).

Record AnthropicUsage := {
  input_tokens : option Z;
  output_tokens : option Z
}.

Record AnthropicResponse := {
  resp_id : string;
  resp_content : list ContentBlock;
  stop_reason : option string;
  resp_usage : option AnthropicUsage
}.

Section Translator.

Variable JSON_parse : string -> option json.

(** [for (const toolCall of message.tool_calls) content.push(...)]: the
    first arguments string that does not parse raises [SyntaxError]. *)
Fixpoint pushToolCalls (content : list ContentBlock) (toolCalls : list ToolCall)
  : result (list ContentBlock) :=
  match toolCalls with
  | [] => Ok content
  | toolCall :: rest =>
      match JSON_parse (fn_arguments (tc_function toolCall)) with
      | None => Throw SyntaxError
      | Some input =>
          pushToolCalls
            (content ++ [tool_use_block (tc_id toolCall)
                           (fn_name (tc_function toolCall)) input])
            rest
      end
  end.

(** [convertNormalResponse]. [body] is what [openAIResponse.json()]
    yields ([None]: the body is not JSON) and [id] the value of
    [generateId()]. *)
Definition convertNormalResponse (id : string) (body : option OpenAIData)
  : result AnthropicResponse :=
  match body with
  | None => Throw SyntaxError
  | Some openAIData =>
      let finish content stop :=
        Ok {| resp_id := id; resp_content := content; stop_reason := stop;
              resp_usage :=
                match usage openAIData with
                | Some u => Some {| input_tokens := prompt_tokens u;
                                    output_tokens := completion_tokens u |}
                | None => None
                end |} in
      match choices openAIData with
      | Some (choice :: _) =>
          match message choice with
          | None => Throw TypeError
          | Some message =>
              let content :=
                match msg_content message with
                | Some text => if Js.truthy text then [text_block text] else []
                | None => []
                end in
              match msg_tool_calls message with
              | Some toolCalls =>
                  match pushToolCalls content toolCalls with
                  | Ok content' => finish content' (Some "tool_use")
                  | Throw e => Throw e
                  end
              | None =>
                  if String.eqb (default "" (finish_reason choice)) "length"
                  then finish content (Some "max_tokens")
                  else finish content (Some "end_turn")
              end
          end
      | _ => finish [] None
      end
  end.

(** ** Stop reason *)

(** The stop reason depends on whether the [tool_calls] field is there,
    not on what it holds. *)
Lemma convertNormalResponse_stop_reason id d choice rest m r :
  choices d = Some (choice :: rest) ->
  message choice = Some m ->
  convertNormalResponse id (Some d) = Ok r ->
  stop_reason r =
    Some (match msg_tool_calls m with
          | Some _ => "tool_use"
          | None => if String.eqb (default "" (finish_reason choice)) "length"
                    then "max_tokens" else "end_turn"
          end).
Proof.
  intros Hc Hm. unfold convertNormalResponse. rewrite Hc, Hm.
  destruct (msg_tool_calls m) as [tcs|].
  - destruct (pushToolCalls _ tcs); [intros [= <-]; reflexivity | discriminate].
  - destruct (String.eqb _ _); intros [= <-]; reflexivity.
Qed.

(** ** Tool arguments that do not parse *)

Lemma pushToolCalls_throws content toolCalls :
  Exists (fun tc => JSON_parse (fn_arguments (tc_function tc)) = None) toolCalls ->
  pushToolCalls content toolCalls = Throw SyntaxError.
Proof.
  intros H. revert content.
  induction H as [tc l Htc | tc l _ IH]; intros content; simpl.
  - rewrite Htc. reflexivity.
  - destruct (JSON_parse _); [apply IH | reflexivity].
Qed.

Lemma pushToolCalls_ok content toolCalls content' :
  pushToolCalls content toolCalls = Ok content' ->
  exists inputs,
    Forall2 (fun tc input => JSON_parse (fn_arguments (tc_function tc)) = Some input)
            toolCalls inputs /\
    content' = content ++
      map (fun p => tool_use_block (tc_id (fst p)) (fn_name (tc_function (fst p))) (snd p))
          (combine toolCalls inputs).
Proof.
  revert content. induction toolCalls as [|tc l IH]; intros content; simpl.
  - intros [= <-]. exists []. split; [constructor | now rewrite app_nil_r].
  - destruct (JSON_parse _) as [input|] eqn:E; [|discriminate].
    intros H. destruct (IH _ H) as (inputs & HF & ->).
    exists (input :: inputs). split; [constructor; assumption|].
    simpl. now rewrite <- app_assoc.
Qed.

Lemma convertNormalResponse_malformed id d choice rest m toolCalls :
  choices d = Some (choice :: rest) ->
  message choice = Some m ->
  msg_tool_calls m = Some toolCalls ->
  Exists (fun tc => JSON_parse (fn_arguments (tc_function tc)) = None) toolCalls ->
  convertNormalResponse id (Some d) = Throw SyntaxError.
Proof.
  intros Hc Hm Ht Hex. unfold convertNormalResponse.
  rewrite Hc, Hm, Ht, (pushToolCalls_throws _ _ Hex). reflexivity.
Qed.

End Translator.

(** ** An empty [tool_calls] array *)

(** A completion cut by the token limit whose message carries the text
    and an empty [tool_calls] array. *)
Definition truncated_no_tools : OpenAIData :=
  {| choices := Some
       [ {| message := Some {| msg_content := Some "partial answer";
                               msg_tool_calls := Some [] |};
            finish_reason := Some "length" |} ];
     usage := None |}.

(** C5 at that input: the message carries no tool call and the finish
    reason is [length], yet the stop reason is [tool_use], beside a
    content without any [tool_use] block. *)
Theorem C5_empty_tool_calls_stop_reason :
  convertNormalResponse Json.parse "msg_1" (Some truncated_no_tools) =
  Ok {| resp_id := "msg_1";
        resp_content := [text_block "partial answer"];
        stop_reason := Some "tool_use";
        resp_usage := None |}.
Proof. reflexivity. Qed.

(** Without the [tool_calls] field the same completion maps to
    [max_tokens]. *)
Example truncated_without_field :
  convertNormalResponse Json.parse "msg_1"
    (Some {| choices := Some
               [ {| message := Some {| msg_content := Some "partial answer";
                                       msg_tool_calls := None |};
                    finish_reason := Some "length" |} ];
             usage := None |}) =
  Ok {| resp_id := "msg_1";
        resp_content := [text_block "partial answer"];
        stop_reason := Some "max_tokens";
        resp_usage := None |}.
Proof. reflexivity. Qed.

End NonStreaming.

(* ================================================================== *)
(** * Streaming re-encoder: [convertStreamResponse], [processProviderStream] *)
(* ================================================================== *)

Module Streaming.
Import Json.

(** ** Outbound events

    An event is the payload of one [event: ...\ndata: {...}\n\n] frame. The
    [input] of a [tool_use] block is always [{}] and is left out; the
    random [id] of [message_start] is left out too. *)
Inductive ContentBlock :=
| text_block (text : string)
| tool_use_block (id name : string).

Inductive BlockDelta :=
| text_delta (text : string)
| input_json_delta (partial_json : string).

Inductive Event :=
| message_start
| content_block_start (index : Z) (content_block : ContentBlock)
| content_block_delta (index : Z) (delta : BlockDelta)
| content_block_stop (index : Z)
| message_stop.

(** ** Upstream chunks

    One [chat.completion.chunk], through the fields the callback reads.
    [None] is a field that is absent or [null]. *)
Record FunctionDelta := {
  fd_name : option string;
  fd_arguments : option string
}.

Record ToolCallDelta := {
  tcd_index : option Z;
  tcd_id : option string;
  tcd_function : option FunctionDelta
}.

Record Delta := {
  d_content : option string;
  d_tool_calls : option (list ToolCallDelta)
}.

Record StreamChoice := {
  sc_delta : option Delta;
  sc_finish_reason : option string
}.

Record StreamChunk := {
  choices : option (list StreamChoice)
}.

(** The chunk a JSON value is read as. A member of another type than the
    one the chunk format gives it is read as absent; the code coerces
    such a member, or throws on it and drops the chunk. The reading is
    the code's on the chunks of the format ([StreamText.in_format]). *)
Definition as_string (v : option json) : option string :=
  match v with Some (JStr s) => Some s | _ => None end.

Definition as_number (v : option json) : option Z :=
  match v with Some (JNum n) => Some n | _ => None end.

Definition as_function (v : option json) : option FunctionDelta :=
  match v with
  | Some (JObj ms) =>
      Some {| fd_name := as_string (lookup "name" ms);
              fd_arguments := as_string (lookup "arguments" ms) |}
  | _ => None
  end.

Definition as_tool_call (v : json) : ToolCallDelta :=
  {| tcd_index := as_number (get "index" v);
     tcd_id := as_string (get "id" v);
     tcd_function := as_function (get "function" v) |}.

Definition as_delta (v : option json) : option Delta :=
  match v with
  | Some (JObj ms) =>
      Some {| d_content := as_string (lookup "content" ms);
              d_tool_calls :=
                match lookup "tool_calls" ms with
                | Some (JArr l) => Some (map as_tool_call l)
                | _ => None
                end |}
  | _ => None
  end.

Definition as_choice (v : json) : StreamChoice :=
  {| sc_delta := as_delta (get "delta" v);
     sc_finish_reason := as_string (get "finish_reason" v) |}.

Definition as_chunk (v : json) : StreamChunk :=
  {| choices :=
       match get "choices" v with
       | Some (JArr l) => Some (map as_choice l)
       | _ => None
       end |}.

(** ** Per-stream state of the callback *)

(** An entry of [toolCallsBuffer]. *)
Record BufferedCall := {
  bc_id : option string;
  bc_name : option string;
  bc_arguments : option string
}.

Definition empty_call : BufferedCall :=
  {| bc_id := None; bc_name := None; bc_arguments := None |}.

(** What the callback returns when it does not return [null]. *)
Record LineResult := {
  events : list Event;
  textBlockIndex : Z;
  toolUseBlockIndex : Z
}.

(** The three events of a completed tool call. *)
Definition tool_lifecycle (blockIndex : Z) (id name partial_json : string)
  : list Event :=
  [ content_block_start blockIndex (tool_use_block id name);
    content_block_delta blockIndex (input_json_delta partial_json);
    content_block_stop blockIndex ].

Section Callback.

Variable JSON_parse : string -> option json.
Variable JSON_stringify : json -> string.

(** The entry for [index] after the three conditional assignments. *)
Definition mergeToolCall (bufferedCall : BufferedCall) (toolCall : ToolCallDelta)
  : BufferedCall :=
  let name := match tcd_function toolCall with Some f => fd_name f | None => None end in
  let arguments :=
    match tcd_function toolCall with Some f => fd_arguments f | None => None end in
  {| bc_id :=
       if Js.truthy_opt (tcd_id toolCall) then tcd_id toolCall
       else bc_id bufferedCall;
     bc_name :=
       if Js.truthy_opt name then name else bc_name bufferedCall;
     bc_arguments :=
       if Js.truthy_opt arguments
       then Some (default "" (bc_arguments bufferedCall) ^^ default "" arguments)
       else bc_arguments bufferedCall |}.

(** The callback's view of a buffered call that can be emitted. *)
Definition complete (b : BufferedCall) : bool :=
  Js.truthy_opt (bc_id b) && Js.truthy_opt (bc_name b) &&
  Js.truthy_opt (bc_arguments b).

(** The body of [for (const toolCall of delta.tool_calls)]. The state is
    the buffer map, the events pushed so far and [currentToolIndex]. *)
Definition toolCallStep (currentTextIndex : Z)
  (st : gmap Z BufferedCall * list Event * Z) (toolCall : ToolCallDelta)
  : gmap Z BufferedCall * list Event * Z :=
  let '(toolCallsBuffer, events, currentToolIndex) := st in
  let index := default 0 (tcd_index toolCall) in
  let bufferedCall :=
    mergeToolCall (default empty_call (toolCallsBuffer !! index)) toolCall in
  let toolCallsBuffer := <[index := bufferedCall]> toolCallsBuffer in
  if complete bufferedCall then
    match JSON_parse (default "" (bc_arguments bufferedCall)) with
    | Some args =>
        let blockIndex := if 0 <? currentTextIndex then 1 + index else index in
        (delete index toolCallsBuffer,
         events ++ tool_lifecycle blockIndex
                     (default "" (bc_id bufferedCall))
                     (default "" (bc_name bufferedCall))
                     (JSON_stringify args),
         Z.max currentToolIndex (index + 1))
    | None => (toolCallsBuffer, events, currentToolIndex)
    end
  else (toolCallsBuffer, events, currentToolIndex).

(** The callback [convertStreamResponse] hands to [processProviderStream],
    with the buffer map it closes over passed in and out. [None] is
    [null]: no choice, or an exception caught by the outer [try]. *)
Definition processLine (toolCallsBuffer : gmap Z BufferedCall)
  (jsonStr : string) (textIndex toolIndex : Z)
  : gmap Z BufferedCall * option LineResult :=
  match JSON_parse jsonStr with
  | None => (toolCallsBuffer, None)
  | Some openAIData =>
      match choices (as_chunk openAIData) with
      | None | Some [] => (toolCallsBuffer, None)
      | Some (choice :: _) =>
          match sc_delta choice with
          | None => (toolCallsBuffer, None)
          | Some delta =>
              let '(events, currentTextIndex) :=
                if Js.truthy_opt (d_content delta) then
                  ((if textIndex =? 0
                    then [content_block_start 0 (text_block "")] else [])
                   ++ [content_block_delta 0
                         (text_delta (default "" (d_content delta)))],
                   1)
                else ([], textIndex) in
              let '(toolCallsBuffer, events, currentToolIndex) :=
                match d_tool_calls delta with
                | Some toolCalls =>
                    fold_left (toolCallStep currentTextIndex) toolCalls
                      (toolCallsBuffer, events, toolIndex)
                | None => (toolCallsBuffer, events, toolIndex)
                end in
              let events :=
                if Js.truthy_opt (sc_finish_reason choice) && (0 <? currentTextIndex)
                then events ++ [content_block_stop 0] else events in
              (toolCallsBuffer,
               Some {| events := events;
                       textBlockIndex := currentTextIndex;
                       toolUseBlockIndex := currentToolIndex |})
          end
      end
  end.

End Callback.

(** ** [processProviderStream] *)

Section ProviderStream.

(** The callback and the state it closes over. *)
Context {Closure : Type}.
Variable processLine :
  Closure -> string -> Z -> Z -> Closure * option LineResult.

Variable JSON_parse : string -> option json.

(** [TextDecoder]: its state, and [decoder.decode(value, { stream: true })]. *)
Context {Decoder : Type}.
Variable decode : Decoder -> list Byte.byte -> Decoder * string.

(** The variables of [start(controller)] that the line loop reads and
    writes, and the state the callback closes over. *)
Record Progress := {
  hasStartedContent : bool;
  toolUseIndex : Z;
  closure : Closure
}.

(** The variables only the chunk loop touches. *)
Record Reader := {
  decoder : Decoder;
  buffer : string
}.

(** [if (result) { ... }] after a call of the callback: the flag, the
    tool index (the loop assigns it, the final flush does not) and the
    events to enqueue. *)
Definition applyResult (assignToolIndex : bool) (st : Progress)
  (closure' : Closure) (result : option LineResult) : Progress * list Event :=
  match result with
  | Some r =>
      ({| hasStartedContent :=
            if 0 <? textBlockIndex r then true else hasStartedContent st;
          toolUseIndex :=
            if assignToolIndex then toolUseBlockIndex r else toolUseIndex st;
          closure := closure' |},
       events r)
  | None =>
      ({| hasStartedContent := hasStartedContent st;
          toolUseIndex := toolUseIndex st; closure := closure' |}, [])
  end.

Definition callProcessLine (assignToolIndex : bool) (st : Progress)
  (jsonStr : string) : Progress * list Event :=
  let (closure', result) :=
    processLine (closure st) jsonStr
      (if hasStartedContent st then 1 else 0) (toolUseIndex st) in
  applyResult assignToolIndex st closure' result.

(** The body of [for (const line of lines)]. *)
Definition handleLine (st : Progress) (line : string) : Progress * list Event :=
  if negb (Js.truthy (Js.trim line)) || negb (Js.startsWith "data: " line)
  then (st, [])
  else
    let jsonStr := Js.trim (Js.slice 6 line) in
    if String.eqb jsonStr "[DONE]" then
      (st, if hasStartedContent st then [content_block_stop 0] else [])
    else if negb (Js.truthy jsonStr) then (st, [])
    else callProcessLine true st jsonStr.

Fixpoint handleLines (st : Progress) (lines : list string)
  : Progress * list Event :=
  match lines with
  | [] => (st, [])
  | line :: rest =>
      let (st1, ev1) := handleLine st line in
      let (st2, ev2) := handleLines st1 rest in
      (st2, ev1 ++ ev2)
  end.

(** One turn of [while (true)] on a chunk that was read: decode, split,
    keep the last piece as the new buffer, handle the other lines. *)
Definition readChunk (rd : Reader) (st : Progress) (value : list Byte.byte)
  : Reader * Progress * list Event :=
  let (decoder', text) := decode (decoder rd) value in
  let chunk := buffer rd ^^ text in
  let (lines, last) := Js.pop (Js.split Js.LF chunk) in
  let (st', ev) := handleLines st lines in
  ({| decoder := decoder'; buffer := default "" last |}, st', ev).

Fixpoint readAll (rd : Reader) (st : Progress) (chunks : list (list Byte.byte))
  : Reader * Progress * list Event :=
  match chunks with
  | [] => (rd, st, [])
  | value :: rest =>
      let '(rd1, st1, ev1) := readChunk rd st value in
      let '(rd2, st2, ev2) := readAll rd1 st1 rest in
      (rd2, st2, ev1 ++ ev2)
  end.

(** [if (buffer.trim()) { ... }] of the [finally] block. *)
Definition flushBuffer (buffer : string) (st : Progress) : Progress * list Event :=
  if Js.truthy (Js.trim buffer) then
    if Js.startsWith "data: " (Js.trim buffer) then
      let finalJsonStr := Js.trim (Js.slice 6 buffer) in
      if Js.truthy finalJsonStr && negb (String.eqb finalJsonStr "[DONE]")
      then callProcessLine false st finalJsonStr
      else (st, [])
    else
      match JSON_parse (Js.trim buffer) with
      | Some _ => callProcessLine false st (Js.trim buffer)
      | None => (st, [])
      end
  else (st, []).

(** The [finally] block: the flush, the closing stop, [message_stop]. *)
Definition finish (buffer : string) (st : Progress) : list Event :=
  let (st1, ev1) := flushBuffer buffer st in
  ev1 ++ (if hasStartedContent st1 then [content_block_stop 0] else [])
      ++ [message_stop].

Definition start_progress (closure0 : Closure) : Progress :=
  {| hasStartedContent := false; toolUseIndex := 0; closure := closure0 |}.

(** [processProviderStream]: everything enqueued on the controller, in
    order. [body] is [providerResponse.body]: [None] when there is no
    reader, else the values of the successive [reader.read()] up to
    [done]. *)
Definition processProviderStream (decoder0 : Decoder) (closure0 : Closure)
  (body : option (list (list Byte.byte))) : list Event :=
  match body with
  | None => []
  | Some chunks =>
      let '(rd, st, ev) :=
        readAll {| decoder := decoder0; buffer := "" |}
                (start_progress closure0) chunks in
      message_start :: ev ++ finish (buffer rd) st
  end.

(** ** Chunk boundaries do not matter *)

Lemma handleLines_app st l1 l2 :
  handleLines st (l1 ++ l2) =
  let (st1, e1) := handleLines st l1 in
  let (st2, e2) := handleLines st1 l2 in
  (st2, e1 ++ e2).
Proof.
  revert st. induction l1 as [|x l1 IH]; intros st; simpl.
  - destruct (handleLines st l2); reflexivity.
  - destruct (handleLine st x) as [sx ex]. rewrite IH.
    destruct (handleLines sx l1) as [s1 e1].
    destruct (handleLines s1 l2) as [s2 e2].
    now rewrite app_assoc.
Qed.

(** ** The line left in the buffer *)

(** The flag only decides whether the tool index is assigned. *)
Lemma callProcessLine_flag st jsonStr :
  snd (callProcessLine false st jsonStr) = snd (callProcessLine true st jsonStr) /\
  hasStartedContent (fst (callProcessLine false st jsonStr)) =
  hasStartedContent (fst (callProcessLine true st jsonStr)).
Proof.
  unfold callProcessLine.
  destruct (processLine _ _ _ _) as [c [r|]]; split; reflexivity.
Qed.

(** A buffer that starts with [data: ] and holds a payload other than
    [[DONE]] goes to the callback, at the close as in the loop. *)
Lemma flushBuffer_data_line buffer st :
  Js.startsWith "data: " buffer = true ->
  Js.truthy (Js.trim (Js.slice 6 buffer)) = true ->
  String.eqb (Js.trim (Js.slice 6 buffer)) "[DONE]" = false ->
  flushBuffer buffer st = callProcessLine false st (Js.trim (Js.slice 6 buffer)) /\
  handleLine st buffer = callProcessLine true st (Js.trim (Js.slice 6 buffer)).
Proof.
  intros Hp Ht Hd.
  destruct (Js.data_line_trim _ Hp Ht) as [Hb Hs].
  unfold flushBuffer, handleLine.
  now rewrite Hb, Hs, Hp, Ht, Hd.
Qed.

Section Chunking.

(** The decoder in streaming mode decodes a value read in two pieces as
    it decodes the whole. *)
Hypothesis decode_nil : forall d, decode d [] = (d, "").
Hypothesis decode_app : forall d a b,
  decode d (a ++ b) =
  let (d1, s1) := decode d a in
  let (d2, s2) := decode d1 b in
  (d2, s1 ^^ s2).

Lemma readChunk_app rd st a b :
  readChunk rd st (a ++ b) =
  let '(rd1, st1, e1) := readChunk rd st a in
  let '(rd2, st2, e2) := readChunk rd1 st1 b in
  (rd2, st2, e1 ++ e2).
Proof.
  unfold readChunk. rewrite decode_app.
  destruct (decode (decoder rd) a) as [d1 s1].
  destruct (decode d1 b) as [d2 s2] eqn:E2.
  rewrite <- Js.append_assoc, !Js.pop_split, Js.lines_rest_app.
  destruct (Js.lines_rest (buffer rd ^^ s1)) as [la ra]. simpl.
  destruct (Js.lines_rest (ra ^^ s2)) as [lb rb] eqn:Eb. simpl.
  rewrite handleLines_app.
  destruct (handleLines st la) as [st1 e1]. simpl. rewrite E2.
  rewrite Js.pop_split, Eb. simpl.
  destruct (handleLines st1 lb) as [st2 e2]. reflexivity.
Qed.

Lemma readAll_cons rd st value rest :
  readAll rd st (value :: rest) = readChunk rd st (value ++ concat rest).
Proof.
  revert rd st value. induction rest as [|v rest IH]; intros rd st value.
  - simpl. rewrite app_nil_r.
    destruct (readChunk rd st value) as [[rd1 st1] e1].
    now rewrite app_nil_r.
  - change (readAll rd st (value :: v :: rest)) with
      (let '(rd1, st1, ev1) := readChunk rd st value in
       let '(rd2, st2, ev2) := readAll rd1 st1 (v :: rest) in
       (rd2, st2, ev1 ++ ev2)).
    simpl concat. rewrite readChunk_app.
    destruct (readChunk rd st value) as [[rd1 st1] e1].
    rewrite IH. reflexivity.
Qed.

Lemma readAll_concat d st chunks :
  readAll {| decoder := d; buffer := "" |} st chunks =
  readChunk {| decoder := d; buffer := "" |} st (concat chunks).
Proof.
  destruct chunks as [|value rest]; [|apply readAll_cons].
  unfold readChunk. simpl. rewrite decode_nil. reflexivity.
Qed.

(** C4. The events [processProviderStream] enqueues depend on the bytes
    of the stream only, not on how they were cut into chunks: they are the
    events of the complete lines of the whole text, in order, followed by
    those of the [finally] block run on what follows the last line feed.
    Two ways of cutting one byte stream therefore give the same events,
    and a last line without a line feed is kept in the buffer until the
    stream closes and is handled then: when it is a [data: ] line with a
    payload other than [[DONE]], the [finally] block enqueues the events
    the loop enqueues for that line, then the closing stop of the text
    block if one was started, then [message_stop]. The streaming decoder
    is assumed to decode independently of the cuts. *)
Theorem C4_chunking_invariance d0 c0 chunks :
  processProviderStream d0 c0 (Some chunks) =
    (let (d, text) := decode d0 (concat chunks) in
     let (lines, last) := Js.pop (Js.split Js.LF text) in
     let (st, ev) := handleLines (start_progress c0) lines in
     message_start :: ev ++ finish (default "" last) st)
  /\
  (forall chunks', concat chunks' = concat chunks ->
     processProviderStream d0 c0 (Some chunks') =
     processProviderStream d0 c0 (Some chunks))
  /\
  (forall st buffer,
     Js.startsWith "data: " buffer = true ->
     Js.truthy (Js.trim (Js.slice 6 buffer)) = true ->
     String.eqb (Js.trim (Js.slice 6 buffer)) "[DONE]" = false ->
     finish buffer st =
       snd (handleLine st buffer)
       ++ (if hasStartedContent (fst (handleLine st buffer))
           then [content_block_stop 0] else [])
       ++ [message_stop]).
Proof.
  assert (H : forall cs,
    processProviderStream d0 c0 (Some cs) =
    (let (d, text) := decode d0 (concat cs) in
     let (lines, last) := Js.pop (Js.split Js.LF text) in
     let (st, ev) := handleLines (start_progress c0) lines in
     message_start :: ev ++ finish (default "" last) st)).
  { intros cs. unfold processProviderStream. rewrite readAll_concat.
    unfold readChunk. simpl.
    destruct (decode d0 (concat cs)) as [d text].
    destruct (Js.pop (Js.split Js.LF text)) as [lines last].
    destruct (handleLines (start_progress c0) lines) as [st ev].
    reflexivity. }
  split; [apply H|]. split.
  - intros chunks' E. rewrite (H chunks'), (H chunks), E. reflexivity.
  - intros st buffer Hp Ht Hd. unfold finish.
    destruct (flushBuffer_data_line buffer st Hp Ht Hd) as [-> ->].
    destruct (callProcessLine_flag st (Js.trim (Js.slice 6 buffer))) as [<- <-].
    destruct (callProcessLine false st _); reflexivity.
Qed.

End Chunking.

End ProviderStream.

(** ** The shape of the event sequence *)

(** Every delta has a start of its index before it ([seen] holds the
    indices started so far). *)
Fixpoint started_before (seen : list Z) (l : list Event) : Prop :=
  match l with
  | [] => True
  | content_block_start i _ :: r => started_before (i :: seen) r
  | content_block_delta i _ :: r => In i seen /\ started_before seen r
  | _ :: r => started_before seen r
  end.

(** Every delta has a stop of its index after it. *)
Fixpoint stopped_after (l : list Event) : Prop :=
  match l with
  | [] => True
  | content_block_delta i _ :: r => In (content_block_stop i) r /\ stopped_after r
  | _ :: r => stopped_after r
  end.

Definition is_text_start (e : Event) : bool :=
  match e with content_block_start _ (text_block _) => true | _ => false end.

Definition is_start_at (i : Z) (e : Event) : bool :=
  match e with content_block_start j _ => i =? j | _ => false end.

Definition is_stop_at (i : Z) (e : Event) : bool :=
  match e with content_block_stop j => i =? j | _ => false end.

Definition is_delta_at (i : Z) (e : Event) : bool :=
  match e with content_block_delta j _ => i =? j | _ => false end.

Definition count (p : Event -> bool) (l : list Event) : nat :=
  length (List.filter p l).

Lemma started_before_split seen pre i d post :
  started_before seen (pre ++ content_block_delta i d :: post) ->
  In i seen \/ exists cb, In (content_block_start i cb) pre.
Proof.
  revert seen. induction pre as [|e pre IH]; intros seen; simpl.
  - intros [H _]. left. exact H.
  - destruct e as [| j cb | j d' | j |]; intros H;
      try (destruct (IH _ H) as [Hs|[cb' Hc]]; [left; exact Hs | right; eauto]).
    + destruct (IH _ H) as [[<-|Hs]|[cb' Hc]]; eauto.
    + destruct H as [_ H].
      destruct (IH _ H) as [Hs|[cb' Hc]]; [left; exact Hs | right; eauto].
Qed.

Lemma stopped_after_split pre i d post :
  stopped_after (pre ++ content_block_delta i d :: post) ->
  In (content_block_stop i) post.
Proof.
  induction pre as [|e pre IH]; simpl.
  - intros [H _]. exact H.
  - destruct e; try exact IH. intros [_ H]. exact (IH H).
Qed.

Section Lifecycle.

Variable JSON_parse : string -> option json.
Variable JSON_stringify : json -> string.

(** The grammar of what the callback and the line loop emit between
    [message_start] and the [finally] block. The flags say whether the
    text block was opened before and after the events. A text delta
    comes with the start of block 0 exactly when the block was not opened
    yet; a tool call comes whole, carrying arguments that parsed; a stop
    of block 0 only comes once the text block is opened. *)
Inductive shaped : bool -> list Event -> bool -> Prop :=
| shaped_nil b : shaped b [] b
| shaped_text_start text l b' :
    shaped true l b' ->
    shaped false (content_block_start 0 (text_block "")
                  :: content_block_delta 0 (text_delta text) :: l) b'
| shaped_text_delta text l b' :
    shaped true l b' ->
    shaped true (content_block_delta 0 (text_delta text) :: l) b'
| shaped_tool b i id name src args l b' :
    JSON_parse src = Some args ->
    shaped b l b' ->
    shaped b (tool_lifecycle i id name (JSON_stringify args) ++ l) b'
| shaped_stop l b' :
    shaped true l b' ->
    shaped true (content_block_stop 0 :: l) b'.

Lemma shaped_app b1 l1 b2 l2 b3 :
  shaped b1 l1 b2 -> shaped b2 l2 b3 -> shaped b1 (l1 ++ l2) b3.
Proof.
  intros H1 H2.
  induction H1 as [b | text l b' _ IH | text l b' _ IH
                   | b i id name src args l b' Hp _ IH | l b' _ IH].
  - exact H2.
  - apply shaped_text_start, IH, H2.
  - apply shaped_text_delta, IH, H2.
  - apply (shaped_tool b i id name src args (l ++ l2) b3 Hp), IH, H2.
  - apply shaped_stop, IH, H2.
Qed.

Lemma shaped_opened b l b' : shaped b l b' -> b = true -> b' = true.
Proof. induction 1; auto; discriminate. Qed.

Lemma shaped_started_before b l b' seen :
  shaped b l b' -> (b = true -> In 0 seen) -> started_before seen l.
Proof.
  intros H. revert seen.
  induction H as [b | text l b' _ IH | text l b' _ IH
                  | b i id name src args l b' Hp _ IH | l b' _ IH];
    intros seen Hs; simpl.
  - exact I.
  - split; [left; reflexivity|]. apply IH. intros _. left. reflexivity.
  - split; [apply Hs; reflexivity|]. apply IH. exact Hs.
  - split; [left; reflexivity|]. apply IH. intros Hb. right. apply Hs, Hb.
  - apply IH. exact Hs.
Qed.

Lemma shaped_stopped_after b l b' tail :
  shaped b l b' -> stopped_after tail ->
  (b' = true -> In (content_block_stop 0) tail) ->
  stopped_after (l ++ tail).
Proof.
  intros H Ht Hb.
  induction H as [b | text l b' Hl IH | text l b' Hl IH
                  | b i id name src args l b' Hp _ IH | l b' _ IH]; simpl.
  - exact Ht.
  - split; [|exact (IH Hb)]. apply in_or_app. right. apply Hb.
    exact (shaped_opened _ _ _ Hl eq_refl).
  - split; [|exact (IH Hb)]. apply in_or_app. right. apply Hb.
    exact (shaped_opened _ _ _ Hl eq_refl).
  - split; [left; reflexivity | exact (IH Hb)].
  - exact (IH Hb).
Qed.

(** The text block is started when the flag goes up, and only then. *)
Lemma shaped_text_starts b l b' :
  shaped b l b' ->
  count is_text_start l = (if b then 0 else if b' then 1 else 0)%nat.
Proof.
  unfold count.
  induction 1 as [b | text l b' Hl IH | text l b' Hl IH
                  | b i id name src args l b' Hp _ IH | l b' _ IH]; simpl.
  - destruct b; reflexivity.
  - rewrite IH, (shaped_opened _ _ _ Hl eq_refl). reflexivity.
  - exact IH.
  - exact IH.
  - exact IH.
Qed.

(** A tool block is never left open. *)
Lemma shaped_tool_whole b l b' pre i id name post :
  shaped b l b' ->
  l = pre ++ content_block_start i (tool_use_block id name) :: post ->
  exists src args post',
    JSON_parse src = Some args /\
    post = content_block_delta i (input_json_delta (JSON_stringify args))
           :: content_block_stop i :: post'.
Proof.
  intros H. revert pre. induction H; intros pre E.
  - destruct pre; discriminate.
  - destruct pre as [|e1 [|e2 pre]]; try discriminate.
    injection E as _ _ E. eauto.
  - destruct pre as [|e1 pre]; try discriminate.
    injection E as _ E. eauto.
  - destruct pre as [|e1 [|e2 [|e3 pre]]]; try discriminate.
    + injection E as <- <- <- <-. eauto.
    + injection E as _ _ _ E. eauto.
  - destruct pre as [|e1 pre]; try discriminate.
    injection E as _ E. eauto.
Qed.

(** *** The callback emits shaped events *)

Local Abbreviation callback := (processLine JSON_parse JSON_stringify).

Lemma toolCallStep_shaped cti b b1 buf ev cur toolCall :
  shaped b ev b1 ->
  shaped b (snd (fst (toolCallStep JSON_parse JSON_stringify cti
                        (buf, ev, cur) toolCall))) b1.
Proof.
  intros H. unfold toolCallStep.
  destruct (complete _); [|exact H].
  destruct (JSON_parse _) as [args|] eqn:E; [|exact H].
  simpl. eapply shaped_app; [exact H|].
  rewrite <- (app_nil_r (tool_lifecycle _ _ _ _)).
  eapply shaped_tool; [exact E | constructor].
Qed.

Lemma fold_toolCallStep_shaped cti b b1 toolCalls st :
  shaped b (snd (fst st)) b1 ->
  shaped b (snd (fst (fold_left (toolCallStep JSON_parse JSON_stringify cti)
                        toolCalls st))) b1.
Proof.
  revert st. induction toolCalls as [|tc l IH]; intros st H; simpl; [exact H|].
  apply IH. destruct st as [[buf ev] cur]. now apply toolCallStep_shaped.
Qed.

Lemma processLine_shaped (b : bool) buf jsonStr toolIndex buf' r :
  callback buf jsonStr (if b then 1 else 0) toolIndex = (buf', Some r) ->
  shaped b (events r) (if 0 <? textBlockIndex r then true else b).
Proof.
  unfold processLine.
  destruct (JSON_parse jsonStr) as [openAIData|]; [|discriminate].
  destruct (choices (as_chunk openAIData)) as [[|choice rest]|]; try discriminate.
  destruct (sc_delta choice) as [delta|]; [|discriminate].
  set (text := Js.truthy_opt (d_content delta)).
  set (first := if text
                then ((if (if b then 1 else 0) =? 0
                       then [content_block_start 0 (text_block "")] else [])
                      ++ [content_block_delta 0
                            (text_delta (default "" (d_content delta)))], 1)
                else ([], if b then 1 else 0)).
  assert (Hfirst : shaped b (fst first) (if 0 <? snd first then true else b) /\
                   (snd first = 1 \/ snd first = (if b then 1 else 0))).
  { unfold first. destruct text; simpl.
    - split; [|left; reflexivity].
      destruct b; simpl; repeat constructor.
    - split; [|right; reflexivity]. destruct b; constructor. }
  destruct first as [ev1 cti]. simpl in Hfirst. destruct Hfirst as [H1 Hcti].
  set (st0 := (buf, ev1, toolIndex)).
  set (folded := match d_tool_calls delta with
                 | Some toolCalls =>
                     fold_left (toolCallStep JSON_parse JSON_stringify cti) toolCalls st0
                 | None => st0
                 end).
  assert (H2 : shaped b (snd (fst folded)) (if 0 <? cti then true else b)).
  { unfold folded. destruct (d_tool_calls delta);
      [apply fold_toolCallStep_shaped|]; exact H1. }
  destruct folded as [[buf2 ev2] cur2]. simpl in H2.
  intros [= <- <-]. simpl.
  destruct (Js.truthy_opt (sc_finish_reason choice) && (0 <? cti)) eqn:Ef;
    [|exact H2].
  apply andb_true_iff in Ef as [_ Ef]. rewrite Ef in *.
  eapply shaped_app; [exact H2|]. repeat constructor.
Qed.

(** *** The line loop emits shaped events *)

Lemma callProcessLine_shaped assign st jsonStr st' ev :
  callProcessLine callback assign st jsonStr = (st', ev) ->
  shaped (hasStartedContent st) ev (hasStartedContent st').
Proof.
  unfold callProcessLine.
  destruct (callback _ _ _ _) as [closure' [r|]] eqn:E; simpl.
  - intros [= <- <-]. simpl. eapply processLine_shaped. exact E.
  - intros [= <- <-]. constructor.
Qed.

Lemma handleLine_shaped st line st' ev :
  handleLine callback st line = (st', ev) ->
  shaped (hasStartedContent st) ev (hasStartedContent st').
Proof.
  unfold handleLine.
  destruct (_ || _); [intros [= <- <-]; constructor|].
  destruct (String.eqb _ _).
  { intros [= <- <-]. destruct (hasStartedContent st); repeat constructor. }
  destruct (negb _); [intros [= <- <-]; constructor|].
  apply callProcessLine_shaped.
Qed.

Lemma handleLines_shaped lines st st' ev :
  handleLines callback st lines = (st', ev) ->
  shaped (hasStartedContent st) ev (hasStartedContent st').
Proof.
  revert st st' ev. induction lines as [|line rest IH]; intros st st' ev; simpl.
  - intros [= <- <-]. constructor.
  - destruct (handleLine callback st line) as [st1 ev1] eqn:E1.
    destruct (handleLines callback st1 rest) as [st2 ev2] eqn:E2.
    intros [= <- <-]. eapply shaped_app.
    + eapply handleLine_shaped; eauto.
    + eapply IH; eauto.
Qed.

Context {Decoder : Type}.
Variable decode : Decoder -> list Byte.byte -> Decoder * string.

Lemma readAll_shaped chunks rd st rd' st' ev :
  readAll callback decode rd st chunks = (rd', st', ev) ->
  shaped (hasStartedContent st) ev (hasStartedContent st').
Proof.
  revert rd st rd' st' ev.
  induction chunks as [|value rest IH]; intros rd st rd' st' ev; simpl.
  - intros [= <- <- <-]. constructor.
  - destruct (readChunk callback decode rd st value) as [[rd1 st1] ev1] eqn:E1.
    destruct (readAll callback decode rd1 st1 rest) as [[rd2 st2] ev2] eqn:E2.
    intros [= <- <- <-]. eapply shaped_app; [|eapply IH; eauto].
    revert E1. unfold readChunk.
    destruct (decode _ _) as [d text]. destruct (Js.pop _) as [lines last].
    destruct (handleLines callback st lines) as [sx ex] eqn:Ex.
    intros [= <- <- <-]. eapply handleLines_shaped; eauto.
Qed.

Lemma flushBuffer_shaped buffer st st' ev :
  flushBuffer callback JSON_parse buffer st = (st', ev) ->
  shaped (hasStartedContent st) ev (hasStartedContent st').
Proof.
  unfold flushBuffer.
  destruct (Js.truthy _); [|intros [= <- <-]; constructor].
  destruct (Js.startsWith _ _).
  - destruct (_ && _); [apply callProcessLine_shaped|].
    intros [= <- <-]; constructor.
  - destruct (JSON_parse _); [apply callProcessLine_shaped|].
    intros [= <- <-]; constructor.
Qed.

(** The whole output: [message_start], shaped events, the closing stop
    of block 0 when the text block was opened, [message_stop]. *)
Lemma convertStream_shape d0 chunks :
  exists body b,
    shaped false body b /\
    processProviderStream callback JSON_parse decode d0
      (∅ : gmap Z BufferedCall) (Some chunks) =
    message_start :: body ++
      (if b then [content_block_stop 0] else []) ++ [message_stop].
Proof.
  unfold processProviderStream.
  destruct (readAll _ _ _ _ _) as [[rd st] ev] eqn:E.
  apply readAll_shaped in E. simpl in E.
  unfold finish.
  destruct (flushBuffer _ _ _ _) as [st1 ev1] eqn:E1.
  apply flushBuffer_shaped in E1.
  exists (ev ++ ev1), (hasStartedContent st1). split.
  - eapply shaped_app; eauto.
  - now rewrite <- app_assoc.
Qed.

Lemma shaped_inner b l b' e :
  shaped b l b' -> In e l -> e <> message_start /\ e <> message_stop.
Proof.
  induction 1 as [b | text l b' _ IH | text l b' _ IH
                  | b i id name src args l b' Hp _ IH | l b' _ IH]; simpl.
  - intros [].
  - intros [<-|[<-|H]]; auto; split; discriminate.
  - intros [<-|H]; auto; split; discriminate.
  - intros [<-|[<-|[<-|H]]]; auto; split; discriminate.
  - intros [<-|H]; auto; split; discriminate.
Qed.

Lemma shaped_text_start_index b l b' i cb :
  shaped b l b' -> In (content_block_start i cb) l ->
  is_text_start (content_block_start i cb) = true -> i = 0.
Proof.
  induction 1 as [b | text l b' _ IH | text l b' _ IH
                  | b j id name src args l b' Hp _ IH | l b' _ IH]; simpl.
  - intros [].
  - intros [[= <- <-]|[[=]|H]]; auto.
  - intros [[=]|H]; auto.
  - intros [[= <- <-]|[[=]|[[=]|H]]]; auto. discriminate.
  - intros [[=]|H]; auto.
Qed.

End Lifecycle.

(** [convertStreamResponse]: [processProviderStream] on the callback, with
    an empty [toolCallsBuffer]. *)
Definition convertStreamResponse
  (JSON_parse : string -> option json) (JSON_stringify : json -> string)
  {Decoder : Type} (decode : Decoder -> list Byte.byte -> Decoder * string)
  (decoder0 : Decoder) (body : option (list (list Byte.byte))) : list Event :=
  processProviderStream (processLine JSON_parse JSON_stringify) JSON_parse
    decode decoder0 (∅ : gmap Z BufferedCall) body.

(** ** Running the encoder on text

    A decoder for single-byte text: each byte is one character. *)
Definition ascii_decode (d : unit) (value : list Byte.byte) : unit * string :=
  (d, string_of_list_byte value).

(** The encoder on the reference JSON reader and printer and a stream
    given as text chunks. *)
Definition encode (chunks : list string) : list Event :=
  convertStreamResponse Json.parse Json.stringify ascii_decode tt
    (Some (map list_byte_of_string chunks)).

Definition data (json_text : string) : string :=
  "data: " ^^ qq json_text ^^ Js.nl.

Definition done : string := "data: [DONE]" ^^ Js.nl.

(** ** Chunking, on text *)

Lemma string_of_list_byte_app a b :
  string_of_list_byte (a ++ b) = string_of_list_byte a ^^ string_of_list_byte b.
Proof.
  induction a as [|x a IH]; simpl; [reflexivity|].
  unfold string_of_list_byte in *. simpl. now rewrite IH.
Qed.

Lemma ascii_decode_app (d : unit) a b :
  ascii_decode d (a ++ b) =
  let (d1, s1) := ascii_decode d a in
  let (d2, s2) := ascii_decode d1 b in
  (d2, s1 ^^ s2).
Proof. unfold ascii_decode. now rewrite string_of_list_byte_app. Qed.

(** One stream cut in the middle of a keyword and of a JSON object, and
    left without a final line feed: the two cuts give the same events,
    and these hold the text of the line left in the buffer. *)
Lemma C4_witness :
  encode [ "da"; "ta: {" ^^ qq "'choices':[{'delta':"; qq "{'content':'Hi'}}]}" ] =
  encode [ "data: {" ^^ qq "'choices':[{'delta':{'content':'Hi'}}]}" ] /\
  encode [ "da"; "ta: {" ^^ qq "'choices':[{'delta':"; qq "{'content':'Hi'}}]}" ] =
    [ message_start;
      content_block_start 0 (text_block "");
      content_block_delta 0 (text_delta "Hi");
      content_block_stop 0;
      message_stop ] /\
  finish (processLine Json.parse Json.stringify) Json.parse
    ("data: {" ^^ qq "'choices':[{'delta':{'content':'Hi'}}]}")
    (start_progress ∅) =
    [ content_block_start 0 (text_block "");
      content_block_delta 0 (text_delta "Hi");
      content_block_stop 0;
      message_stop ].
Proof.
  pose proof (C4_chunking_invariance (processLine Json.parse Json.stringify)
                Json.parse ascii_decode (fun d => eq_refl) ascii_decode_app tt ∅
                [ list_byte_of_string
                    ("data: {" ^^ qq "'choices':[{'delta':{'content':'Hi'}}]}") ])
    as (_ & Hcut & Hflush).
  split; [|split].
  - unfold encode, convertStreamResponse. apply Hcut. reflexivity.
  - vm_compute. reflexivity.
  - rewrite Hflush; reflexivity.
Defined.

Example trailing_line_flushed :
  encode [ "da"; "ta: {" ^^ qq "'choices':[{'delta':"; qq "{'content':'Hi'}}]}" ] =
    [ message_start;
      content_block_start 0 (text_block "");
      content_block_delta 0 (text_delta "Hi");
      content_block_stop 0;
      message_stop ].
Proof. vm_compute. reflexivity. Qed.

(** ** Incremental tool calls *)

(** A call delivered at one position, as seen from outside the code:
    the last truthy [id], the last truthy [name], and the arguments
    fragments joined in order of arrival. *)
Fixpoint last_truthy (l : list (option string)) : option string :=
  match l with
  | [] => None
  | o :: r =>
      match last_truthy r with
      | Some s => Some s
      | None => if Js.truthy_opt o then o else None
      end
  end.

Definition delta_name (d : ToolCallDelta) : option string :=
  match tcd_function d with Some f => fd_name f | None => None end.

Definition fragment (d : ToolCallDelta) : string :=
  match tcd_function d with
  | Some f => default "" (fd_arguments f)
  | None => ""
  end.

Fixpoint joined (ds : list ToolCallDelta) : string :=
  match ds with
  | [] => ""
  | d :: r => fragment d ^^ joined r
  end.

Definition accumulated (ds : list ToolCallDelta) : BufferedCall :=
  {| bc_id := last_truthy (map tcd_id ds);
     bc_name := last_truthy (map delta_name ds);
     bc_arguments := if Js.truthy (joined ds) then Some (joined ds) else None |}.

Lemma truthy_append a b : Js.truthy (a ^^ b) = Js.truthy a || Js.truthy b.
Proof. destruct a; reflexivity. Qed.

Lemma truthy_opt_some o : Js.truthy_opt o = true -> exists s, o = Some s.
Proof. destruct o; [eauto | discriminate]. Qed.

Lemma last_truthy_snoc l x :
  last_truthy (l ++ [x]) = if Js.truthy_opt x then x else last_truthy l.
Proof.
  induction l as [|o l IH]; simpl.
  - destruct (Js.truthy_opt x); reflexivity.
  - rewrite IH. destruct (Js.truthy_opt x) eqn:E; [|reflexivity].
    destruct (truthy_opt_some _ E) as [s ->]. reflexivity.
Qed.

Lemma joined_snoc ds d : joined (ds ++ [d]) = joined ds ^^ fragment d.
Proof.
  induction ds as [|x ds IH]; simpl.
  - apply Js.append_nil_r.
  - now rewrite IH, Js.append_assoc.
Qed.

Lemma mergeToolCall_accumulated ds d :
  mergeToolCall (accumulated ds) d = accumulated (ds ++ [d]).
Proof.
  unfold mergeToolCall, accumulated.
  rewrite !map_app. cbn [map]. rewrite !last_truthy_snoc, joined_snoc. simpl.
  fold (delta_name d). f_equal.
  unfold fragment. destruct (tcd_function d) as [f|]; simpl.
  - destruct (fd_arguments f) as [a|]; simpl.
    + rewrite truthy_append.
      destruct (Js.truthy (joined ds)) eqn:Ej; simpl.
      * destruct a as [|c a]; simpl; [|reflexivity].
        now rewrite Js.append_nil_r.
      * destruct (joined ds); [|discriminate]. simpl.
        destruct a; reflexivity.
    + rewrite Js.append_nil_r. reflexivity.
  - rewrite Js.append_nil_r. reflexivity.
Qed.

Section Accumulation.

Variable JSON_parse : string -> option json.
Variable JSON_stringify : json -> string.

(** The parsed arguments of a call that can be emitted. *)
Definition ready (ds : list ToolCallDelta) : option json :=
  if complete (accumulated ds) then JSON_parse (joined ds) else None.

(** Deltas for one position, each with the text index in force when its
    chunk is handled. *)
Definition deliver (steps : list (Z * ToolCallDelta))
  (st : gmap Z BufferedCall * list Event * Z) :=
  fold_left (fun st s => toolCallStep JSON_parse JSON_stringify (fst s) st (snd s))
            steps st.

Lemma accumulated_arguments ds :
  default "" (bc_arguments (accumulated ds)) = joined ds.
Proof.
  simpl. destruct (joined ds); reflexivity.
Qed.

(** One more delta on a position that holds what came so far. *)
Lemma toolCallStep_accumulated cti (buf : gmap Z BufferedCall) ev cur p ds d :
  default 0 (tcd_index d) = p ->
  default empty_call (buf !! p) = accumulated ds ->
  toolCallStep JSON_parse JSON_stringify cti (buf, ev, cur) d =
    match ready (ds ++ [d]) with
    | Some args =>
        (delete p buf,
         ev ++ tool_lifecycle (if 0 <? cti then 1 + p else p)
                 (default "" (bc_id (accumulated (ds ++ [d]))))
                 (default "" (bc_name (accumulated (ds ++ [d]))))
                 (JSON_stringify args),
         Z.max cur (p + 1))
    | None => (<[p := accumulated (ds ++ [d])]> buf, ev, cur)
    end.
Proof.
  intros Hp Hb. unfold toolCallStep, ready. rewrite Hp, Hb.
  rewrite mergeToolCall_accumulated, accumulated_arguments.
  destruct (complete _); [|reflexivity].
  destruct (JSON_parse _); [|reflexivity].
  now rewrite delete_insert_eq.
Qed.

Lemma deliver_silent (buf : gmap Z BufferedCall) ev cur p steps :
  buf !! p = None ->
  Forall (fun s => default 0 (tcd_index (snd s)) = p) steps ->
  (forall k, (0 < k <= length steps)%nat ->
     ready (map snd (firstn k steps)) = None) ->
  steps <> [] ->
  deliver steps (buf, ev, cur) =
    (<[p := accumulated (map snd steps)]> buf, ev, cur).
Proof.
  intros Hbuf. induction steps as [|s steps IH] using rev_ind;
    intros Hall Hquiet Hne; [congruence|].
  apply Forall_app in Hall as [Hall Hs]. inversion_clear Hs as [|? ? Hp _].
  assert (Hlast : ready (map snd steps ++ [snd s]) = None).
  { rewrite <- (Hquiet (length (steps ++ [s]))).
    - now rewrite firstn_all, map_app.
    - rewrite length_app. simpl. lia. }
  unfold deliver. rewrite fold_left_app. cbn [fold_left].
  destruct steps as [|s0 steps'].
  - cbn [fold_left]. rewrite (toolCallStep_accumulated _ _ _ _ p [] _ Hp).
    + simpl app. simpl in Hlast. rewrite Hlast. reflexivity.
    + rewrite Hbuf. reflexivity.
  - assert (Hinit : deliver (s0 :: steps') (buf, ev, cur) =
                    (<[p := accumulated (map snd (s0 :: steps'))]> buf, ev, cur)).
    { apply IH; [exact Hall | | discriminate].
      intros k Hk. rewrite <- (Hquiet k).
      - rewrite firstn_app.
        replace (k - length (s0 :: steps'))%nat with 0%nat by lia.
        cbn [firstn]. now rewrite app_nil_r.
      - rewrite length_app. lia. }
    unfold deliver in Hinit. rewrite Hinit.
    rewrite (toolCallStep_accumulated _ _ _ _ p (map snd (s0 :: steps')) _ Hp).
    + rewrite Hlast, map_app. cbn [map]. now rewrite insert_insert_eq.
    + now rewrite lookup_insert_eq.
Qed.

(** C2 (as amended). Deltas arriving for one position [p], whose entry
    was absent, are merged into the entry: last truthy [id], last truthy
    [name], arguments fragments joined in order. As long as the merged
    call is not complete with arguments that parse, no event is pushed.
    The delta that completes it pushes exactly [content_block_start]
    ([tool_use] with the buffered [id] and [name]), one
    [content_block_delta] ([input_json_delta] with the parsed arguments
    printed back) and [content_block_stop], and deletes the entry of [p].
    Nothing keeps later deltas for [p] from building and emitting a call
    again. *)
Theorem C2_tool_call_accumulation
  (buf : gmap Z BufferedCall) ev cur p steps cti d :
  buf !! p = None ->
  Forall (fun s => default 0 (tcd_index (snd s)) = p) steps ->
  default 0 (tcd_index d) = p ->
  (forall k, (0 < k <= length steps)%nat ->
     ready (map snd (firstn k steps)) = None) ->
  let ds := map snd steps ++ [d] in
  let acc := accumulated ds in
  deliver steps (buf, ev, cur) =
    (match steps with
     | [] => buf
     | _ => <[p := accumulated (map snd steps)]> buf
     end, ev, cur) /\
  deliver (steps ++ [(cti, d)]) (buf, ev, cur) =
    match (if complete acc then JSON_parse (joined ds) else None) with
    | Some args =>
        (delete p buf,
         ev ++ [ content_block_start (if 0 <? cti then 1 + p else p)
                   (tool_use_block (default "" (bc_id acc)) (default "" (bc_name acc)));
                 content_block_delta (if 0 <? cti then 1 + p else p)
                   (input_json_delta (JSON_stringify args));
                 content_block_stop (if 0 <? cti then 1 + p else p) ],
         Z.max cur (p + 1))
    | None => (<[p := acc]> buf, ev, cur)
    end.
Proof.
  intros Hbuf Hall Hp Hquiet ds acc.
  assert (Hsilent : deliver steps (buf, ev, cur) =
            (match steps with
             | [] => buf
             | _ => <[p := accumulated (map snd steps)]> buf
             end, ev, cur)).
  { destruct steps as [|s0 steps']; [reflexivity|].
    apply deliver_silent; [assumption | assumption | assumption | discriminate]. }
  split; [exact Hsilent|].
  unfold deliver in *. rewrite fold_left_app, Hsilent. cbn [fold_left fst snd].
  rewrite (toolCallStep_accumulated _ _ _ _ p (map snd steps) _ Hp).
  - fold ds. fold acc. unfold ready. fold acc.
    destruct (if complete acc then JSON_parse (joined ds) else None) as [args|].
    + destruct steps; [reflexivity|]. now rewrite delete_insert_eq.
    + destruct steps; [reflexivity|]. now rewrite insert_insert_eq.
  - destruct steps; [now rewrite Hbuf | now rewrite lookup_insert_eq].
Qed.

End Accumulation.

(** The deltas of the call [f({"a":1})] at position 0: the [id], the
    [name], and the arguments in two fragments. *)
Definition only_id : ToolCallDelta :=
  {| tcd_index := Some 0; tcd_id := Some "call_1"; tcd_function := None |}.
Definition only_name : ToolCallDelta :=
  {| tcd_index := Some 0; tcd_id := None;
     tcd_function := Some {| fd_name := Some "f"; fd_arguments := None |} |}.
Definition only_arguments (a : string) : ToolCallDelta :=
  {| tcd_index := Some 0; tcd_id := None;
     tcd_function := Some {| fd_name := None; fd_arguments := Some a |} |}.

Lemma C2_witness :
  deliver Json.parse Json.stringify
    [(0, only_id); (0, only_name); (0, only_arguments (qq "{'a':"))]
    (∅, [], 0) =
    (<[0 := {| bc_id := Some "call_1"; bc_name := Some "f";
               bc_arguments := Some (qq "{'a':") |}]> ∅, [], 0) /\
  deliver Json.parse Json.stringify
    ([(0, only_id); (0, only_name); (0, only_arguments (qq "{'a':"))]
       ++ [(0, only_arguments "1}")])
    (∅, [], 0) =
    (delete 0 ∅,
     [] ++ [ content_block_start 0 (tool_use_block "call_1" "f");
             content_block_delta 0 (input_json_delta (qq "{'a':1}"));
             content_block_stop 0 ],
     Z.max 0 (0 + 1)).
Proof.
  apply (C2_tool_call_accumulation Json.parse Json.stringify ∅ [] 0 0
           [(0, only_id); (0, only_name); (0, only_arguments (qq "{'a':"))]
           0 (only_arguments "1}")).
  - reflexivity.
  - repeat constructor.
  - reflexivity.
  - intros [|[|[|[|k]]]] Hk; simpl in Hk; try lia; vm_compute; reflexivity.
Defined.

(** A line delivering the whole call [f({})] at position 0. *)
Definition complete_call : string :=
  data "{'choices':[{'delta':{'tool_calls':[{'index':0,'id':'call_1','function':{'name':'f','arguments':'{}'}}]}}]}".

(** C2 (as stated) fails on "at most once per position": the same
    complete call delivered twice at position 0 is emitted twice. *)
Lemma C2_counterexample_position_emitted_twice :
  encode [complete_call; complete_call] =
    [ message_start;
      content_block_start 0 (tool_use_block "call_1" "f");
      content_block_delta 0 (input_json_delta "{}");
      content_block_stop 0;
      content_block_start 0 (tool_use_block "call_1" "f");
      content_block_delta 0 (input_json_delta "{}");
      content_block_stop 0;
      message_stop ].
Proof. vm_compute. reflexivity. Qed.

(** The four chunks of the testable property, through the whole encoder. *)
Example incremental_tool_call :
  encode
    [ data "{'choices':[{'delta':{'tool_calls':[{'index':0,'id':'call_1'}]}}]}";
      data "{'choices':[{'delta':{'tool_calls':[{'index':0,'function':{'name':'f'}}]}}]}";
      data "{'choices':[{'delta':{'tool_calls':[{'index':0,'function':{'arguments':'{\'a\':'}}]}}]}";
      data "{'choices':[{'delta':{'tool_calls':[{'index':0,'function':{'arguments':'1}'}}]}}]}" ] =
    [ message_start;
      content_block_start 0 (tool_use_block "call_1" "f");
      content_block_delta 0 (input_json_delta (qq "{'a':1}"));
      content_block_stop 0;
      message_stop ].
Proof. vm_compute. reflexivity. Qed.

(** ** Block lifecycle *)

(** What one tool-call delta pushes: nothing, or a whole lifecycle at the
    index computed from its position and the text index. *)
Lemma toolCallStep_events JSON_parse JSON_stringify cti
  (buf : gmap Z BufferedCall) ev cur toolCall :
  let index := default 0 (tcd_index toolCall) in
  let ev' := snd (fst (toolCallStep JSON_parse JSON_stringify cti
                         (buf, ev, cur) toolCall)) in
  ev' = ev \/
  exists id name partial_json,
    ev' = ev ++ tool_lifecycle (if 0 <? cti then 1 + index else index)
                  id name partial_json.
Proof.
  unfold toolCallStep. cbv zeta.
  destruct (complete _); [|left; reflexivity].
  destruct (JSON_parse _); [|left; reflexivity].
  right. simpl. eauto.
Qed.

Lemma started_before_tail seen l (b : bool) :
  started_before seen l ->
  started_before seen
    (l ++ (if b then [content_block_stop 0] else []) ++ [message_stop]).
Proof.
  revert seen. induction l as [|e l IH]; intros seen; simpl.
  - intros _. destruct b; exact I.
  - destruct e; auto. intros [H1 H2]. split; auto.
Qed.

Lemma count_app p l1 l2 : count p (l1 ++ l2) = (count p l1 + count p l2)%nat.
Proof. unfold count. now rewrite List.filter_app, length_app. Qed.


(** A stream on which the claim is tried: a tool call at position 0,
    whole in one chunk, then a text delta. *)
Definition tool_then_text : list string :=
  [ data "{'choices':[{'delta':{'tool_calls':[{'index':0,'id':'call_1','function':{'name':'f','arguments':'{}'}}]}}]}";
    data "{'choices':[{'delta':{'content':'Hi'}}]}" ].



(** ** Stream boundary events *)

(** [message_start] comes first and [message_stop] last, once each. *)
Lemma convertStreamResponse_envelope
  (JSON_parse : string -> option json) (JSON_stringify : json -> string)
  {Decoder : Type} (decode : Decoder -> list Byte.byte -> Decoder * string)
  (d0 : Decoder) (chunks : list (list Byte.byte)) :
  exists inner,
    convertStreamResponse JSON_parse JSON_stringify decode d0 (Some chunks) =
      message_start :: inner ++ [message_stop] /\
    forall e, In e inner -> e <> message_start /\ e <> message_stop.
Proof.
  unfold convertStreamResponse.
  destruct (convertStream_shape JSON_parse JSON_stringify decode d0 chunks)
    as (body & b & Hs & ->).
  exists (body ++ if b then [content_block_stop 0] else []). split.
  - now rewrite <- app_assoc.
  - intros e Hin. apply in_app_or in Hin as [Hin|Hin].
    + eapply shaped_inner; eauto.
    + destruct b; simpl in Hin; [|destruct Hin].
      destruct Hin as [<-|[]]. split; discriminate.
Qed.

(** An ordinary text stream: a text delta, the chunk carrying the finish
    reason, then the stream closes. *)
Definition text_then_finish : list string :=
  [ data "{'choices':[{'delta':{'content':'Hi'}}]}";
    data "{'choices':[{'delta':{},'finish_reason':'stop'}]}" ].

(** C3 at that input: the finish signal closes block 0 and the [finally]
    block closes it again. *)
Theorem C3_final_stop_after_finish_signal :
  encode text_then_finish =
    [ message_start;
      content_block_start 0 (text_block "");
      content_block_delta 0 (text_delta "Hi");
      content_block_stop 0;
      content_block_stop 0;
      message_stop ].
Proof. vm_compute. reflexivity. Qed.

(** With the [DONE] sentinel the block is closed a third time. *)
Example text_finish_done :
  encode (text_then_finish ++ [done]) =
    [ message_start;
      content_block_start 0 (text_block "");
      content_block_delta 0 (text_delta "Hi");
      content_block_stop 0;
      content_block_stop 0;
      content_block_stop 0;
      message_stop ].
Proof. vm_compute. reflexivity. Qed.

(** ** Tool arguments that do not parse *)

(** C9 (as amended). Non-streaming: only the first choice is translated.
    When an arguments string of a tool call of the first choice does not
    parse, [convertNormalResponse] does not return a message without that
    call: the parser's [SyntaxError] leaves it (the code has no error of
    its own for this). The other choices are not read, so a tool call
    there, malformed or not, is dropped with its choice and raises
    nothing. Streaming: a delta whose accumulated arguments do not parse
    pushes no event and raises nothing, the entry staying in the buffer;
    and in the events of any stream a [tool_use] block that is started
    carries arguments that parsed and is closed at once, so that no
    partial block is emitted. *)
Theorem C9_malformed_tool_arguments
  (JSON_parse : string -> option json) (JSON_stringify : json -> string) :
  (forall id d choice rest m toolCalls,
     NonStreaming.choices d = Some (choice :: rest) ->
     NonStreaming.message choice = Some m ->
     NonStreaming.msg_tool_calls m = Some toolCalls ->
     Exists (fun tc =>
               JSON_parse (NonStreaming.fn_arguments (NonStreaming.tc_function tc))
               = None) toolCalls ->
     NonStreaming.convertNormalResponse JSON_parse id (Some d) = Throw SyntaxError) /\
  (forall cti (buf : gmap Z BufferedCall) ev cur toolCall,
     let index := default 0 (tcd_index toolCall) in
     let bufferedCall :=
       mergeToolCall (default empty_call (buf !! index)) toolCall in
     JSON_parse (default "" (bc_arguments bufferedCall)) = None ->
     toolCallStep JSON_parse JSON_stringify cti (buf, ev, cur) toolCall =
       (<[index := bufferedCall]> buf, ev, cur)) /\
  (forall (Decoder : Type) (decode : Decoder -> list Byte.byte -> Decoder * string)
          d0 chunks pre i id name post,
     convertStreamResponse JSON_parse JSON_stringify decode d0 (Some chunks) =
       pre ++ content_block_start i (tool_use_block id name) :: post ->
     exists src args post',
       JSON_parse src = Some args /\
       post = content_block_delta i (input_json_delta (JSON_stringify args))
              :: content_block_stop i :: post') /\
  (forall id choice rest rest' usage,
     NonStreaming.convertNormalResponse JSON_parse id
       (Some {| NonStreaming.choices := Some (choice :: rest);
                NonStreaming.usage := usage |}) =
     NonStreaming.convertNormalResponse JSON_parse id
       (Some {| NonStreaming.choices := Some (choice :: rest');
                NonStreaming.usage := usage |})).
Proof.
  split; [|split; [|split]].
  - intros id d choice rest m toolCalls.
    apply NonStreaming.convertNormalResponse_malformed.
  - intros cti buf ev cur toolCall index bufferedCall H.
    unfold toolCallStep. fold index. fold bufferedCall. rewrite H.
    destruct (complete bufferedCall); reflexivity.
  - intros Decoder decode d0 chunks pre i id name post.
    unfold convertStreamResponse.
    destruct (convertStream_shape JSON_parse JSON_stringify decode d0 chunks)
      as (body & b & Hs & ->).
    intros E.
    destruct pre as [|e0 pre]; [discriminate|]. injection E as _ E.
    assert (Hsplit : exists pre' post',
              body = pre' ++ content_block_start i (tool_use_block id name) :: post' /\
              post = post' ++ (if b then [content_block_stop 0] else [])
                           ++ [message_stop]).
    { clear Hs. revert pre E. induction body as [|x body IH]; intros pre E.
      - destruct b; simpl in E;
          repeat (destruct pre as [|? pre]; try discriminate E;
                  injection E as _ E).
      - destruct pre as [|e1 pre]; simpl in E.
        + injection E as -> E. exists [], body. split; [reflexivity|]. now symmetry.
        + injection E as -> E. destruct (IH _ E) as (pre' & post' & -> & ->).
          exists (e1 :: pre'), post'. split; reflexivity. }
    destruct Hsplit as (pre' & post' & Hb & ->).
    destruct (shaped_tool_whole _ _ _ _ _ _ _ _ _ _ Hs Hb)
      as (src & args & post'' & Hp & ->).
    exists src, args, (post'' ++ (if b then [content_block_stop 0] else [])
                              ++ [message_stop]).
    split; [exact Hp | reflexivity].
  - intros id choice rest rest' usage. reflexivity.
Qed.

(** A completion whose only tool call has truncated arguments. *)
Definition truncated_arguments : NonStreaming.OpenAIData :=
  {| NonStreaming.choices := Some
       [ {| NonStreaming.message := Some
              {| NonStreaming.msg_content := None;
                 NonStreaming.msg_tool_calls := Some
                   [ {| NonStreaming.tc_id := "call_1";
                        NonStreaming.tc_function :=
                          {| NonStreaming.fn_name := "f";
                             NonStreaming.fn_arguments := qq "{'a':" |} |} ] |};
            NonStreaming.finish_reason := Some "tool_calls" |} ];
     NonStreaming.usage := None |}.

Lemma C9_witness :
  NonStreaming.convertNormalResponse Json.parse "msg_1" (Some truncated_arguments)
  = Throw SyntaxError.
Proof.
  eapply (proj1 (C9_malformed_tool_arguments Json.parse Json.stringify)).
  - reflexivity.
  - reflexivity.
  - reflexivity.
  - constructor. vm_compute. reflexivity.
Defined.

(** A completion with two choices, the second of which holds the tool
    call with truncated arguments. *)
Definition malformed_second_choice : NonStreaming.OpenAIData :=
  {| NonStreaming.choices := Some
       [ {| NonStreaming.message := Some
              {| NonStreaming.msg_content := Some "Hello";
                 NonStreaming.msg_tool_calls := None |};
            NonStreaming.finish_reason := Some "stop" |};
         {| NonStreaming.message := Some
              {| NonStreaming.msg_content := None;
                 NonStreaming.msg_tool_calls := Some
                   [ {| NonStreaming.tc_id := "call_1";
                        NonStreaming.tc_function :=
                          {| NonStreaming.fn_name := "f";
                             NonStreaming.fn_arguments := qq "{'a':" |} |} ] |};
            NonStreaming.finish_reason := Some "tool_calls" |} ];
     NonStreaming.usage := None |}.

(** C9 (as stated) fails on a response that holds such a tool call
    outside its first choice: the arguments do not parse, and the
    translation raises no error; it returns the message of the first
    choice, the tool call silently left out. *)
Lemma C9_counterexample_other_choice_dropped :
  Json.parse (qq "{'a':") = None /\
  NonStreaming.convertNormalResponse Json.parse "msg_1"
    (Some malformed_second_choice) =
  Ok {| NonStreaming.resp_id := "msg_1";
        NonStreaming.resp_content := [NonStreaming.text_block "Hello"];
        NonStreaming.stop_reason := Some "end_turn";
        NonStreaming.resp_usage := None |}.
Proof. split; vm_compute; reflexivity. Qed.

(** The same call streamed: nothing of it reaches the client. *)
Example truncated_arguments_streamed :
  encode
    [ data "{'choices':[{'delta':{'tool_calls':[{'index':0,'id':'call_1','function':{'name':'f','arguments':'{\'a\':'}}]}}]}";
      data "{'choices':[{'delta':{},'finish_reason':'tool_calls'}]}";
      done ] =
    [ message_start; message_stop ].
Proof. vm_compute. reflexivity. Qed.

End Streaming.

(* ================================================================== *)
(** * The handler: [handleAnthropicMessagesRequest] *)
(* ================================================================== *)

Module Handler.
Import Validation.

(** ** Routing ([utils.ts]) *)

Definition OPENAI_ENDPOINT : list string :=
  ["cerebras"; "deepseek"; "groq"; "openai"; "perplexity-ai"; "compat"].
Definition OPENAI_V1_ENDPOINT : list string := ["grok"; "mistral"; "openrouter"].
Definition SUPPORTED_ENDPOINTS : list string :=
  ["azure-openai"; "anthropic"; "google-ai-studio"; "cohere"]
    ++ OPENAI_ENDPOINT ++ OPENAI_V1_ENDPOINT.
Definition SUPPORTED_UNIFIED_API_ENDPOINTS : list string :=
  ["anthropic"; "openai"; "groq"; "mistral"; "cohere"; "google-ai-studio";
   "grok"; "deepseek"; "cerebras"].

Definition includes (l : list string) (s : string) : bool :=
  existsb (String.eqb s) l.

Definition isSupportedUnifiedApiEndpoint (provider : string) : bool :=
  includes SUPPORTED_UNIFIED_API_ENDPOINTS provider.

Record AzureConfig := {
  resource : option string;
  deployment : option string;
  apiVersion : option string
}.

Definition join_slash (l : list string) : string :=
  match l with
  | [] => ""
  | x :: r => fold_left (fun acc s => acc ^^ "/" ^^ s) r x
  end.

(** [urlBuilder]; its two [throw]s are the [Throw] results. *)
Definition urlBuilder (endpoint provider : string) (azureConfig : AzureConfig)
  : result string :=
  if negb (includes SUPPORTED_ENDPOINTS provider)
  then Throw (Error ("Unsupported provider: " ^^ provider))
  else if isSupportedUnifiedApiEndpoint provider
  then Ok (endpoint ^^ "/compat/chat/completions")
  else if String.eqb provider "anthropic"
  then Ok (join_slash [endpoint; provider; "v1/messages"])
  else
    let azure := String.eqb provider "azure-openai" in
    if azure && negb (Js.truthy_opt (resource azureConfig) &&
                      Js.truthy_opt (deployment azureConfig))
    then Throw (Error ("Missing Azure config for provider: " ^^ provider))
    else
      Ok (join_slash
            ([endpoint; provider]
               ++ (if azure
                   then [default "" (resource azureConfig);
                         default "" (deployment azureConfig)]
                   else [])
               ++ (if includes OPENAI_V1_ENDPOINT provider then ["v1"] else [])
               ++ ["chat/completions" ^^
                   (if azure
                    then "?api-version=" ^^
                         default "2025-04-01-preview" (apiVersion azureConfig)
                    else "")])).

(** ** The handler *)

(** What the handler returns: an error response it formatted itself, or
    the converted upstream response. *)
Inductive Response (Converted : Type) :=
| ErrorBody (e : ErrorResponse)
| ConvertedBody (c : Converted).
Arguments ErrorBody {Converted} e.
Arguments ConvertedBody {Converted} c.

Section Handler.

(** The translated request body and [convertAnthropicToOpenAI], which
    throws on some bodies the validation lets through (a content block
    or a tool that is [null], for one). *)
Context {OpenAIRequest : Type}.
Variable convertAnthropicToOpenAI :
  AnthropicMessagesRequest -> string -> result OpenAIRequest.

(** The request sent upstream: its URL and its body. *)
Record ProviderRequest := {
  pr_url : string;
  pr_body : OpenAIRequest
}.

(** The upstream response: [ok], [status], and what
    [handleProviderError] finds in an error body: [None] when the body is
    not JSON, else [error.error?.message || error.message] ([None] when
    both are falsy). *)
Context {ProviderBody : Type}.
Record ProviderResponse := {
  resp_ok : bool;
  resp_status : Z;
  resp_error : option (option string);
  resp_body : ProviderBody
}.

(** [fetch]: the response, or the message of the exception it raised. *)
Variable fetch : ProviderRequest -> ProviderResponse + string.

(** [convertToAnthropicResponse]. *)
Context {Converted : Type}.
Variable convertToAnthropicResponse : ProviderResponse -> result Converted.

Definition convertToProviderRequest (requestBody : AnthropicMessagesRequest)
  (endpoint provider model : string) (azureConfig : AzureConfig)
  : result ProviderRequest :=
  match convertAnthropicToOpenAI requestBody
          (if isSupportedUnifiedApiEndpoint provider
           then provider ^^ "/" ^^ model else model) with
  | Throw e => Throw e
  | Ok convertedRequest =>
      match urlBuilder endpoint provider
              {| resource := resource azureConfig;
                 deployment := Some model;
                 apiVersion := apiVersion azureConfig |} with
      | Throw e => Throw e
      | Ok finalUrl => Ok {| pr_url := finalUrl; pr_body := convertedRequest |}
      end
  end.

Definition handleProviderError (providerResponse : ProviderResponse)
  (provider : string) : ErrorResponse :=
  match resp_error providerResponse with
  | Some message =>
      formatAnthropicErrorResponse
        ("[" ^^ provider ^^ "] " ^^ default "API request failed" message)
        "api_error" (resp_status providerResponse)
  | None =>
      formatAnthropicErrorResponse
        ("[" ^^ provider ^^ "] API request failed with status "
           ^^ Json.print_Z (resp_status providerResponse))
        "api_error" (resp_status providerResponse)
  end.

(** [handleAnthropicMessagesRequest]. [body] is what [request.json()]
    yields. The result pairs the requests sent upstream, in order, with
    what the handler returns or throws. (The handler also replaces a
    falsy message content by [[]]; after the validation no content is
    falsy.) *)
Definition handleAnthropicMessagesRequest
  (body : option AnthropicMessagesRequest) (endpoint : string)
  (azureConfig : AzureConfig)
  : list ProviderRequest * result (Response Converted) :=
  match validateRequest body with
  | Some validationResult => ([], Ok (ErrorBody validationResult))
  | None =>
      match body with
      | None => ([], Throw SyntaxError)
      | Some requestBody =>
          let modelName := default "" (model requestBody) in
          if negb (Js.truthy modelName) || Js.lacks "#" modelName
          then ([], Ok (ErrorBody
                          (formatAnthropicErrorResponse
                             ("Model '" ^^ modelName ^^ "' not found")
                             "model_not_found" 404)))
          else
            let pieces := Js.split "#" modelName in
            let model := nth 0 pieces "" in
            let provider := nth 1 pieces "" in
            match convertToProviderRequest requestBody endpoint provider model
                    azureConfig with
            | Throw e => ([], Throw e)
            | Ok providerRequest =>
                match fetch providerRequest with
                | inr message =>
                    ([providerRequest],
                     Ok (ErrorBody
                           (formatAnthropicErrorResponse
                              ("Connection failed to provider " ^^ provider
                                 ^^ ": " ^^ message)
                              "connection_error" 503)))
                | inl providerResponse =>
                    ([providerRequest],
                     if resp_ok providerResponse
                     then match convertToAnthropicResponse providerResponse with
                          | Ok c => Ok (ConvertedBody c)
                          | Throw e => Throw e
                          end
                     else Ok (ErrorBody
                                (handleProviderError providerResponse provider)))
                end
            end
      end
  end.

(** C7 (as amended). For a body that is not JSON, or whose members have
    the types of the Messages API where they are present ([model] a
    string, [max_tokens] an integer, each message an object with a
    string [role] and a [content] that is a string or an array): the
    validation runs first and reports no error exactly when the body is
    JSON, [model] is a non-empty string, [max_tokens] is present and
    greater than 0, [messages] is a non-empty array, and every message
    has role [user] or [assistant] and a truthy content (absent, [null]
    and the empty string all count as no content). Every error it
    reports is the client-facing 400 [invalid_request_error], and the
    handler returns it as it is, before any translation and without any
    request sent upstream. *)
Theorem C7_validation_exact
  (body : option AnthropicMessagesRequest) (endpoint : string)
  (azureConfig : AzureConfig) :
  (validateRequest body = None <->
     exists b, body = Some b /\ acceptable b = true) /\
  (forall e, validateRequest body = Some e ->
     err_status e = 400 /\ err_type e = "invalid_request_error" /\
     handleAnthropicMessagesRequest body endpoint azureConfig
       = ([], Ok (ErrorBody e))).
Proof.
  split.
  - destruct body as [b|].
    + rewrite validateRequest_none. split.
      * intros H. exists b. auto.
      * intros (b' & [= <-] & H). exact H.
    + simpl. split; [discriminate|]. intros (b' & Hb & _). discriminate.
  - intros e He. destruct (validateRequest_error _ _ He) as [Hs Ht].
    repeat split; auto. unfold handleAnthropicMessagesRequest. now rewrite He.
Qed.

(** C8 (as amended). A request whose model holds no [#] is answered
    without any request being sent upstream, by a client error: the 400
    [invalid_request_error] of the validation when the validation rejects
    the request, else the 404 [model_not_found]. *)
Theorem C8_no_separator_rejected
  (requestBody : AnthropicMessagesRequest) (endpoint : string)
  (azureConfig : AzureConfig) :
  Js.lacks "#" (default "" (model requestBody)) = true ->
  exists e,
    handleAnthropicMessagesRequest (Some requestBody) endpoint azureConfig
      = ([], Ok (ErrorBody e)) /\
    400 <= err_status e < 500 /\
    (validateRequest (Some requestBody) = Some e /\
       err_type e = "invalid_request_error" /\ err_status e = 400
     \/
     validateRequest (Some requestBody) = None /\
       e = formatAnthropicErrorResponse
             ("Model '" ^^ default "" (model requestBody) ^^ "' not found")
             "model_not_found" 404).
Proof.
  intros Hsep. unfold handleAnthropicMessagesRequest.
  destruct (validateRequest (Some requestBody)) as [e|] eqn:Ev.
  - destruct (validateRequest_error _ _ Ev) as [Hs Ht].
    exists e. split; [reflexivity|]. split; [lia|]. left. auto.
  - rewrite Hsep, orb_true_r. eexists. split; [reflexivity|].
    split; [simpl; lia|]. right. auto.
Qed.

End Handler.

Lemma C7_witness :
  err_status (invalid_request "Each message must have content") = 400 /\
  err_type (invalid_request "Each message must have content")
    = "invalid_request_error" /\
  handleAnthropicMessagesRequest (fun _ m => Ok m) (fun _ => inr "unreachable")
    (fun r : ProviderResponse (ProviderBody := unit) => Ok tt)
    (Some empty_content_request) "https://gateway"
    {| resource := None; deployment := None; apiVersion := None |}
  = ([], Ok (ErrorBody (invalid_request "Each message must have content"))).
Proof.
  apply (proj2 (C7_validation_exact (fun _ m => Ok m) (fun _ => inr "unreachable")
                  (fun r : ProviderResponse (ProviderBody := unit) => Ok tt)
                  (Some empty_content_request) "https://gateway"
                  {| resource := None; deployment := None; apiVersion := None |})).
  reflexivity.
Defined.

(** A request that passes the validation and names a model without
    provider. *)
Definition no_provider_request : AnthropicMessagesRequest :=
  {| model := Some "gpt-4o";
     max_tokens := Some 16;
     messages := MessagesArray
       [ {| role := Some "user"; content := Some (ContentString "Hello") |} ] |}.

Lemma C8_witness :
  exists e,
    handleAnthropicMessagesRequest (fun _ m => Ok m) (fun _ => inr "unreachable")
      (fun r : ProviderResponse (ProviderBody := unit) => Ok tt)
      (Some no_provider_request) "https://gateway"
      {| resource := None; deployment := None; apiVersion := None |}
      = ([], Ok (ErrorBody e)) /\
    400 <= err_status e < 500 /\
    (validateRequest (Some no_provider_request) = Some e /\
       err_type e = "invalid_request_error" /\ err_status e = 400
     \/
     validateRequest (Some no_provider_request) = None /\
       e = formatAnthropicErrorResponse
             ("Model '" ^^ default "" (model no_provider_request) ^^ "' not found")
             "model_not_found" 404).
Proof.
  apply C8_no_separator_rejected. reflexivity.
Defined.

(** C8 (as stated) fails on the kind of the error: the request above is
    rejected as [model_not_found] with status 404, not as an
    [invalid_request_error]. *)
Lemma C8_counterexample_model_not_found :
  handleAnthropicMessagesRequest (fun _ m => Ok m) (fun _ => inr "unreachable")
    (fun r : ProviderResponse (ProviderBody := unit) => Ok tt)
    (Some no_provider_request) "https://gateway"
    {| resource := None; deployment := None; apiVersion := None |}
  = ([], Ok (ErrorBody
               (formatAnthropicErrorResponse "Model 'gpt-4o' not found"
                  "model_not_found" 404))) /\
  "model_not_found" <> "invalid_request_error".
Proof. split; [reflexivity | discriminate]. Qed.

End Handler.

(* ================================================================== *)
(** * Request translation: [convertMessages], [convertAnthropicToOpenAI] *)
(* ================================================================== *)

Module RequestTranslation.
Import Json.

(** ** Anthropic side *)

Record ImageSource := {
  source_type : string;
  media_type : string;
  source_data : string
}.

(** [ExtendedAnthropicContentBlock]. [None] is a field that is absent or
    [null]; [input] and [content] hold any JSON value. *)
Record ContentBlock := {
  block_type : string;
  block_text : option string;
  block_source : option ImageSource;
  block_id : option string;
  block_name : option string;
  block_input : option json;
  block_tool_use_id : option string;
  block_content : option json
}.

Inductive MessageContent :=
| StringContent (s : string)
| BlockContent (blocks : list ContentBlock).

Record AnthropicMessage := {
  msg_role : string;
  msg_content : MessageContent
}.

Record AnthropicTool := {
  tool_name : string;
  tool_description : string;
  input_schema : json
}.

(** [tool_choice]: a string, or an object with [type] and [name]. *)
Inductive ToolChoiceIn :=
| ChoiceString (s : string)
| ChoiceObject (type : string) (name : option string).

(** [system]: a string or an array of blocks. *)
Inductive SystemPrompt :=
| SystemString (s : string)
| SystemBlocks (blocks : list ContentBlock).

(** [ExtendedAnthropicMessagesRequest]. The sampling parameters are the
    JSON values found under their keys, [None] when the key is absent. *)
Record AnthropicRequest := {
  req_messages : list AnthropicMessage;
  req_system : option SystemPrompt;
  req_tools : option (list AnthropicTool);
  req_tool_choice : option ToolChoiceIn;
  req_stream : option json;
  req_temperature : option json;
  req_max_tokens : option json;
  req_top_p : option json;
  req_stop_sequences : option json
}.

(** ** OpenAI side *)

Inductive OpenAIContentBlock :=
| text_part (text : string)
| image_url_part (url detail : string).

Inductive ChatContent :=
| PlainContent (s : string)
| PartsContent (parts : list OpenAIContentBlock).

Record OpenAIToolCall := {
  call_id : string;
  call_type : string;
  call_name : string;
  call_arguments : string
}.

(** [ExtendedChatMessage]. *)
Record ChatMessage := {
  role : string;
  content : ChatContent;
  tool_calls : option (list OpenAIToolCall);
  tool_call_id : option string
}.

Record ToolDefinition := {
  def_type : string;
  def_name : string;
  def_description : string;
  def_parameters : json
}.

Inductive ToolChoiceOut :=
| choice_auto
| choice_function (name : string).

Record ChatCompletionRequest := {
  out_model : string;
  out_messages : list ChatMessage;
  out_stream : option json;
  out_tools : option (list ToolDefinition);
  out_tool_choice : option ToolChoiceOut;
  out_temperature : option json;
  out_max_tokens : option json;
  out_top_p : option json;
  out_stop : option json
}.

(** Truthiness of an optional JSON value. *)
Definition truthy_json (v : option json) : bool :=
  match v with Some x => negb (falsy x) | None => false end.

(** [texts.join(sep)]. *)
Fixpoint join (sep : string) (l : list string) : string :=
  match l with
  | [] => ""
  | [x] => x
  | x :: r => x ^^ sep ^^ join sep r
  end.

(** ** [convertContentBlocks] *)

(** What one turn of the loop pushes. *)
Definition convertContentBlock (content : ContentBlock) : list OpenAIContentBlock :=
  if String.eqb (block_type content) "text" then
    if Js.truthy_opt (block_text content)
    then [text_part (default "" (block_text content))] else []
  else if String.eqb (block_type content) "image" then
    match block_source content with
    | Some source =>
        if String.eqb (source_type source) "base64"
        then [image_url_part
                ("data:" ^^ media_type source ^^ ";base64," ^^ source_data source)
                "auto"]
        else []
    | None => []
    end
  else [].

Definition convertContentBlocks (anthropicContent : list ContentBlock)
  : list OpenAIContentBlock :=
  fold_left (fun openAIContent content => openAIContent ++ convertContentBlock content)
            anthropicContent [].

Section Translation.

Variable JSON_stringify : json -> string.

(** ** [convertMessages] *)

(** The three arrays the block loop fills. *)
Record Scan := {
  textContents : list string;
  toolCalls : list OpenAIToolCall;
  toolResults : list (string * string)
}.

(** One turn of [for (const content of contentBlocks)]. *)
Definition scanBlock (st : Scan) (content : ContentBlock) : Scan :=
  if String.eqb (block_type content) "text" then
    if Js.truthy_opt (block_text content)
    then {| textContents := textContents st ++ [default "" (block_text content)];
            toolCalls := toolCalls st; toolResults := toolResults st |}
    else st
  else if String.eqb (block_type content) "tool_use" then
    if Js.truthy_opt (block_id content) && Js.truthy_opt (block_name content) &&
       truthy_json (block_input content)
    then {| textContents := textContents st;
            toolCalls := toolCalls st ++
              [ {| call_id := default "" (block_id content);
                   call_type := "function";
                   call_name := default "" (block_name content);
                   call_arguments :=
                     JSON_stringify (default JNull (block_input content)) |} ];
            toolResults := toolResults st |}
    else st
  else if String.eqb (block_type content) "tool_result" then
    if Js.truthy_opt (block_tool_use_id content) &&
       truthy_json (block_content content)
    then {| textContents := textContents st; toolCalls := toolCalls st;
            toolResults := toolResults st ++
              [ (default "" (block_tool_use_id content),
                 match block_content content with
                 | Some (JStr s) => s
                 | other => JSON_stringify (default JNull other)
                 end) ] |}
    else st
  else st.

Definition normal_role (r : string) : string :=
  if String.eqb r "assistant" then "assistant" else "user".

Definition tool_message (toolResult : string * string) : ChatMessage :=
  {| role := "tool"; content := PlainContent (snd toolResult);
     tool_calls := None; tool_call_id := Some (fst toolResult) |}.

Definition attach (toolCalls : list OpenAIToolCall) : option (list OpenAIToolCall) :=
  match toolCalls with [] => None | _ => Some toolCalls end.

(** What one turn of [for (const message of anthropicMessages)] pushes.
    ([toolCallMap] is written by the loop and never read; it is left
    out.) *)
Definition convertMessage (message : AnthropicMessage) : list ChatMessage :=
  match msg_content message with
  | StringContent s =>
      [ {| role := normal_role (msg_role message); content := PlainContent s;
           tool_calls := None; tool_call_id := None |} ]
  | BlockContent contentBlocks =>
      let scan :=
        fold_left scanBlock contentBlocks
          {| textContents := []; toolCalls := []; toolResults := [] |} in
      let hasMultimodalContent :=
        existsb (fun block => String.eqb (block_type block) "image") contentBlocks in
      (if hasMultimodalContent then
         match convertContentBlocks contentBlocks with
         | [] => []
         | openAIContent =>
             [ {| role := normal_role (msg_role message);
                  content := PartsContent openAIContent;
                  tool_calls := attach (toolCalls scan); tool_call_id := None |} ]
         end
       else
         match textContents scan, toolCalls scan with
         | [], [] => []
         | texts, calls =>
             [ {| role := normal_role (msg_role message);
                  content := PlainContent (join Js.nl texts);
                  tool_calls := attach calls; tool_call_id := None |} ]
         end)
      ++ map tool_message (toolResults scan)
  end.

Definition convertMessages (anthropicMessages : list AnthropicMessage)
  : list ChatMessage :=
  fold_left (fun openAIMessages message => openAIMessages ++ convertMessage message)
            anthropicMessages [].

(** ** [convertAnthropicToolsToOpenAI] *)

Definition convertAnthropicToolsToOpenAI (anthropicTools : list AnthropicTool)
  : list ToolDefinition :=
  map (fun tool =>
         {| def_type := "function";
            def_name := tool_name tool;
            def_description := tool_description tool;
            def_parameters := Schema.cleanJsonSchema (input_schema tool) |})
      anthropicTools.

(** ** [convertAnthropicToOpenAI] *)

(** The text of the system prompt. *)
Definition systemContent (system : SystemPrompt) : string :=
  match system with
  | SystemString s => s
  | SystemBlocks blocks =>
      join Js.nl
        (map (fun block => if Js.truthy_opt (block_text block)
                           then default "" (block_text block) else "")
             (List.filter (fun block => String.eqb (block_type block) "text") blocks))
  end.

(** [if (anthropicRequest.system)]: only the empty string is falsy. *)
Definition system_truthy (system : option SystemPrompt) : bool :=
  match system with
  | Some (SystemString s) => Js.truthy s
  | Some (SystemBlocks _) => true
  | None => false
  end.

Definition convertToolChoice (tool_choice : option ToolChoiceIn)
  : option ToolChoiceOut :=
  match tool_choice with
  | Some (ChoiceString s) =>
      if negb (Js.truthy s) then None
      else if String.eqb s "auto" then Some choice_auto
      else if String.eqb s "any" then Some choice_auto
      else None
  | Some (ChoiceObject type name) =>
      if String.eqb type "tool" && Js.truthy_opt name
      then Some (choice_function (default "" name)) else None
  | None => None
  end.

Definition convertAnthropicToOpenAI (anthropicRequest : AnthropicRequest)
  (model : string) : ChatCompletionRequest :=
  let messages := convertMessages (req_messages anthropicRequest) in
  let messages :=
    if system_truthy (req_system anthropicRequest) then
      let text := match req_system anthropicRequest with
                  | Some system => systemContent system
                  | None => ""
                  end in
      if Js.truthy (Js.trim text)
      then {| role := "system"; content := PlainContent text;
              tool_calls := None; tool_call_id := None |} :: messages
      else messages
    else messages in
  let hasTools :=
    match req_tools anthropicRequest with
    | Some (_ :: _) => true
    | _ => false
    end in
  {| out_model := model;
     out_messages := messages;
     out_stream := req_stream anthropicRequest;
     out_tools :=
       if hasTools
       then Some (convertAnthropicToolsToOpenAI
                    (default [] (req_tools anthropicRequest)))
       else None;
     out_tool_choice :=
       if hasTools then convertToolChoice (req_tool_choice anthropicRequest)
       else None;
     out_temperature := req_temperature anthropicRequest;
     out_max_tokens := req_max_tokens anthropicRequest;
     out_top_p := req_top_p anthropicRequest;
     out_stop := req_stop_sequences anthropicRequest |}.

(** ** The loops as maps *)

Lemma fold_push {X Y} (f : X -> list Y) l init :
  fold_left (fun acc x => acc ++ f x) l init = init ++ flat_map f l.
Proof.
  revert init. induction l as [|x l IH]; intros init; simpl.
  - now rewrite app_nil_r.
  - now rewrite IH, app_assoc.
Qed.

Lemma convertMessages_flat_map ms :
  convertMessages ms = flat_map convertMessage ms.
Proof. unfold convertMessages. now rewrite fold_push. Qed.

Lemma convertContentBlocks_flat_map bs :
  convertContentBlocks bs = flat_map convertContentBlock bs.
Proof. unfold convertContentBlocks. now rewrite fold_push. Qed.

(** What a block adds to each of the three arrays. *)
Definition block_texts (b : ContentBlock) : list string :=
  if String.eqb (block_type b) "text" && Js.truthy_opt (block_text b)
  then [default "" (block_text b)] else [].

Definition block_calls (b : ContentBlock) : list OpenAIToolCall :=
  if String.eqb (block_type b) "tool_use" && Js.truthy_opt (block_id b) &&
     Js.truthy_opt (block_name b) && truthy_json (block_input b)
  then [ {| call_id := default "" (block_id b); call_type := "function";
            call_name := default "" (block_name b);
            call_arguments := JSON_stringify (default JNull (block_input b)) |} ]
  else [].

Definition block_results (b : ContentBlock) : list (string * string) :=
  if String.eqb (block_type b) "tool_result" &&
     Js.truthy_opt (block_tool_use_id b) && truthy_json (block_content b)
  then [ (default "" (block_tool_use_id b),
          match block_content b with
          | Some (JStr s) => s
          | other => JSON_stringify (default JNull other)
          end) ]
  else [].

Lemma scanBlock_adds st b :
  scanBlock st b =
  {| textContents := textContents st ++ block_texts b;
     toolCalls := toolCalls st ++ block_calls b;
     toolResults := toolResults st ++ block_results b |}.
Proof.
  unfold scanBlock, block_texts, block_calls, block_results.
  destruct st as [ts cs rs]. simpl.
  destruct (String.eqb_spec (block_type b) "text") as [E|_].
  - rewrite E. simpl. destruct (Js.truthy_opt (block_text b));
      now rewrite !app_nil_r.
  - destruct (String.eqb_spec (block_type b) "tool_use") as [E|_].
    + rewrite E. simpl.
      destruct (Js.truthy_opt (block_id b) && Js.truthy_opt (block_name b) &&
                truthy_json (block_input b)); now rewrite !app_nil_r.
    + destruct (String.eqb_spec (block_type b) "tool_result") as [E|_]; simpl.
      * destruct (Js.truthy_opt (block_tool_use_id b) &&
                  truthy_json (block_content b)); now rewrite !app_nil_r.
      * now rewrite !app_nil_r.
Qed.

Lemma scan_blocks bs st :
  fold_left scanBlock bs st =
  {| textContents := textContents st ++ flat_map block_texts bs;
     toolCalls := toolCalls st ++ flat_map block_calls bs;
     toolResults := toolResults st ++ flat_map block_results bs |}.
Proof.
  revert st. induction bs as [|b bs IH]; intros st; simpl.
  - destruct st. simpl. now rewrite !app_nil_r.
  - rewrite IH, scanBlock_adds. simpl. now rewrite <- !app_assoc.
Qed.

(** The message pushed for the blocks themselves, before the tool
    results. *)
Definition main_message (role_in : string) (bs : list ContentBlock)
  : list ChatMessage :=
  if existsb (fun block => String.eqb (block_type block) "image") bs then
    match flat_map convertContentBlock bs with
    | [] => []
    | parts =>
        [ {| role := normal_role role_in; content := PartsContent parts;
             tool_calls := attach (flat_map block_calls bs);
             tool_call_id := None |} ]
    end
  else
    match flat_map block_texts bs, flat_map block_calls bs with
    | [], [] => []
    | texts, calls =>
        [ {| role := normal_role role_in;
             content := PlainContent (join Js.nl texts);
             tool_calls := attach calls; tool_call_id := None |} ]
    end.

Lemma convertMessage_blocks r bs :
  convertMessage {| msg_role := r; msg_content := BlockContent bs |} =
  main_message r bs ++ map tool_message (flat_map block_results bs).
Proof.
  unfold convertMessage, main_message. simpl.
  rewrite scan_blocks, convertContentBlocks_flat_map. reflexivity.
Qed.

Definition message_results (m : AnthropicMessage) : list (string * string) :=
  match msg_content m with
  | StringContent _ => []
  | BlockContent bs => flat_map block_results bs
  end.

Definition is_tool_message (m : ChatMessage) : bool := String.eqb (role m) "tool".

Lemma normal_role_cases r :
  normal_role r = "assistant" \/ normal_role r = "user".
Proof. unfold normal_role. destruct (String.eqb r "assistant"); auto. Qed.

Lemma main_message_roles r bs m :
  In m (main_message r bs) -> role m = "assistant" \/ role m = "user".
Proof.
  unfold main_message.
  destruct (existsb _ bs).
  - destruct (flat_map convertContentBlock bs); [intros []|].
    intros [<-|[]]. apply normal_role_cases.
  - destruct (flat_map block_texts bs), (flat_map block_calls bs); simpl;
      intros H; try contradiction;
      destruct H as [<-|[]]; apply normal_role_cases.
Qed.

Lemma filter_none {X} (p : X -> bool) l :
  (forall x, In x l -> p x = false) -> List.filter p l = [].
Proof.
  induction l as [|x l IH]; intros H; simpl; [reflexivity|].
  rewrite (H x (or_introl eq_refl)). apply IH. intros y Hy. apply H. now right.
Qed.

Lemma filter_all {X} (p : X -> bool) l :
  (forall x, In x l -> p x = true) -> List.filter p l = l.
Proof.
  induction l as [|x l IH]; intros H; simpl; [reflexivity|].
  rewrite (H x (or_introl eq_refl)). f_equal. apply IH. intros y Hy. apply H. now right.
Qed.

Lemma convertMessage_tool_messages m :
  List.filter is_tool_message (convertMessage m) =
  map tool_message (message_results m).
Proof.
  destruct m as [r [s|bs]].
  - unfold convertMessage, message_results, is_tool_message. simpl.
    destruct (normal_role_cases r) as [-> | ->]; reflexivity.
  - rewrite convertMessage_blocks. unfold message_results. simpl.
    rewrite List.filter_app, filter_none, filter_all; [reflexivity| |].
    + intros x Hx. apply in_map_iff in Hx as (y & <- & _). reflexivity.
    + intros x Hx. unfold is_tool_message.
      destruct (main_message_roles _ _ _ Hx) as [-> | ->]; reflexivity.
Qed.

Lemma convertMessages_cons m ms :
  convertMessages (m :: ms) = convertMessage m ++ convertMessages ms.
Proof. now rewrite !convertMessages_flat_map. Qed.

(** Blocks as a client writes them. *)
Definition text_block (s : string) : ContentBlock :=
  {| block_type := "text"; block_text := Some s; block_source := None;
     block_id := None; block_name := None; block_input := None;
     block_tool_use_id := None; block_content := None |}.

Definition tool_use_block (id name : string) (input : json) : ContentBlock :=
  {| block_type := "tool_use"; block_text := None; block_source := None;
     block_id := Some id; block_name := Some name; block_input := Some input;
     block_tool_use_id := None; block_content := None |}.

Definition tool_result_block (id : string) (result : json) : ContentBlock :=
  {| block_type := "tool_result"; block_text := None; block_source := None;
     block_id := None; block_name := None; block_input := None;
     block_tool_use_id := Some id; block_content := Some result |}.

Definition image_block (source : ImageSource) : ContentBlock :=
  {| block_type := "image"; block_text := None; block_source := Some source;
     block_id := None; block_name := None; block_input := None;
     block_tool_use_id := None; block_content := None |}.

Definition is_image (block : ContentBlock) : bool :=
  String.eqb (block_type block) "image".

Lemma text_blocks_scan texts :
  existsb is_image (map text_block texts) = false /\
  flat_map block_texts (map text_block texts) = List.filter Js.truthy texts /\
  flat_map block_calls (map text_block texts) = [] /\
  flat_map block_results (map text_block texts) = [].
Proof.
  induction texts as [|t texts (Hi & Ht & Hc & Hr)]; simpl; [auto|].
  rewrite Hi, Ht, Hc, Hr. repeat split.
  unfold block_texts. simpl. destruct (Js.truthy t); reflexivity.
Qed.

(** The tool calls a message of the result carries. *)
Definition calls_of (m : ChatMessage) : list OpenAIToolCall :=
  default [] (tool_calls m).

Definition message_calls (m : AnthropicMessage) : list OpenAIToolCall :=
  match msg_content m with
  | StringContent _ => []
  | BlockContent bs => flat_map block_calls bs
  end.

(** An image block is present and no block gives a part. *)
Definition lost_body (m : AnthropicMessage) : bool :=
  match msg_content m with
  | StringContent _ => false
  | BlockContent bs =>
      existsb is_image bs &&
      match convertContentBlocks bs with [] => true | _ => false end
  end.

Lemma attach_default cs : default [] (attach cs) = cs.
Proof. destruct cs; reflexivity. Qed.

Lemma tool_messages_no_calls rs :
  flat_map calls_of (map tool_message rs) = [].
Proof. induction rs as [|r rs IH]; simpl; [reflexivity|exact IH]. Qed.

Lemma convertMessage_calls m :
  lost_body m = false ->
  flat_map calls_of (convertMessage m) = message_calls m.
Proof.
  destruct m as [r [s|bs]]; [reflexivity|].
  unfold lost_body, message_calls. simpl msg_content.
  rewrite convertMessage_blocks, flat_map_app, tool_messages_no_calls, app_nil_r.
  rewrite convertContentBlocks_flat_map. unfold main_message.
  fold is_image. destruct (existsb is_image bs); simpl.
  - destruct (flat_map convertContentBlock bs); [discriminate|].
    intros _. simpl. unfold calls_of. simpl.
    now rewrite attach_default, app_nil_r.
  - intros _.
    destruct (flat_map block_texts bs), (flat_map block_calls bs);
      try reflexivity; simpl; unfold calls_of; simpl; now rewrite app_nil_r.
Qed.

Lemma convertMessages_not_system ms :
  Forall (fun m => role m <> "system") (convertMessages ms).
Proof.
  rewrite convertMessages_flat_map. apply List.Forall_flat_map.
  apply List.Forall_forall. intros m _. apply List.Forall_forall. intros x Hx.
  destruct m as [r [s|bs]].
  - unfold convertMessage in Hx. simpl in Hx. destruct Hx as [<-|[]]. simpl.
    destruct (normal_role_cases r) as [-> | ->]; discriminate.
  - rewrite convertMessage_blocks in Hx. apply in_app_or in Hx as [Hx|Hx].
    + destruct (main_message_roles _ _ _ Hx) as [-> | ->]; discriminate.
    + apply in_map_iff in Hx as (y & <- & _). discriminate.
Qed.

(** ** Properties of the translation *)

(** X2. The messages of role [tool] in the translation are, in order,
    exactly one per [tool_result] block that has a non-empty
    [tool_use_id] and a truthy [content]: the message carries that id as
    [tool_call_id], and as content the block's content when it is a
    string, its [JSON.stringify] otherwise. *)
Theorem convertMessages_tool_results (ms : list AnthropicMessage) :
  List.filter is_tool_message (convertMessages ms) =
  map tool_message (flat_map message_results ms).
Proof.
  induction ms as [|m ms IH]; [reflexivity|].
  rewrite convertMessages_cons, List.filter_app, IH,
    convertMessage_tool_messages.
  simpl. now rewrite map_app.
Qed.

(** X3. A block message that has an image block but no block giving a
    part (no non-empty text, no base64 image) is translated to its tool
    results only: no user or assistant message is pushed for it, so its
    [tool_use] blocks are not forwarded. *)
Theorem image_without_parts_drops_tool_calls (r : string) (bs : list ContentBlock) :
  existsb is_image bs = true ->
  convertContentBlocks bs = [] ->
  convertMessage {| msg_role := r; msg_content := BlockContent bs |} =
  map tool_message (flat_map block_results bs).
Proof.
  intros Hi Hp. rewrite convertMessage_blocks. unfold main_message.
  fold is_image. rewrite Hi, <- convertContentBlocks_flat_map, Hp. reflexivity.
Qed.

(** X4. A message made of text blocks becomes one message whose content
    is the non-empty texts joined by line feeds, with the role
    [assistant] kept and any other role turned into [user]; when every
    text is empty the message is dropped. *)
Theorem text_blocks_joined (r : string) (texts : list string) :
  convertMessage {| msg_role := r; msg_content := BlockContent (map text_block texts) |} =
  match List.filter Js.truthy texts with
  | [] => []
  | kept => [ {| role := if String.eqb r "assistant" then "assistant" else "user";
                 content := PlainContent (join Js.nl kept);
                 tool_calls := None; tool_call_id := None |} ]
  end.
Proof.
  rewrite convertMessage_blocks. unfold main_message. fold is_image.
  destruct (text_blocks_scan texts) as (-> & -> & -> & ->).
  destruct (List.filter Js.truthy texts); reflexivity.
Qed.

(** X5. Unless some message has an image block and no part (X3), the
    tool calls carried by the translated messages are, in order, exactly
    one per [tool_use] block with a non-empty [id], a non-empty [name]
    and a truthy [input], with that id and name and the [JSON.stringify]
    of the input as arguments. *)
Theorem convertMessages_tool_calls (ms : list AnthropicMessage) :
  Forall (fun m => lost_body m = false) ms ->
  flat_map calls_of (convertMessages ms) = flat_map message_calls ms.
Proof.
  induction 1 as [|m ms Hm _ IH]; [reflexivity|].
  rewrite convertMessages_cons, flat_map_app, IH, (convertMessage_calls m Hm).
  reflexivity.
Qed.

(** X6. The translated request has at most one message of role [system]:
    when there is one it is the first message and its content is not
    blank; the messages that follow are the translation of the
    conversation, none of which has the role [system] (a conversation
    message sent with the role [system] becomes a [user] message). *)
Theorem system_message_first_only (anthropicRequest : AnthropicRequest) (model : string) :
  exists head,
    out_messages (convertAnthropicToOpenAI anthropicRequest model) =
      head ++ convertMessages (req_messages anthropicRequest) /\
    (head = [] \/
     exists text, Js.trim text <> "" /\
       head = [ {| role := "system"; content := PlainContent text;
                   tool_calls := None; tool_call_id := None |} ]) /\
    Forall (fun m => role m <> "system")
           (convertMessages (req_messages anthropicRequest)).
Proof.
  unfold convertAnthropicToOpenAI. simpl.
  destruct (system_truthy (req_system anthropicRequest)).
  - destruct (Js.truthy (Js.trim _)) eqn:E.
    + eexists [_]. split; [reflexivity|]. split; [|apply convertMessages_not_system].
      right. eexists. split; [|reflexivity].
      intros H. rewrite H in E. discriminate E.
    + exists []. split; [reflexivity|]. split; [now left|apply convertMessages_not_system].
  - exists []. split; [reflexivity|]. split; [now left|apply convertMessages_not_system].
Qed.

(** X7. The tool definitions sent upstream are one per Anthropic tool, in
    order, under the same names and descriptions, all of type
    [function]; the [parameters] of each is [cleanJsonSchema] of the
    tool's [input_schema], so it holds no banned key and no [format]
    beside [type: "string"] as far as the cleaner descends, and cleaning
    it again changes nothing. They are sent exactly when the request
    has a non-empty tool list. *)
Theorem tools_translated_clean (anthropicRequest : AnthropicRequest) (model : string) :
  let anthropicTools := default [] (req_tools anthropicRequest) in
  let tools := convertAnthropicToolsToOpenAI anthropicTools in
  out_tools (convertAnthropicToOpenAI anthropicRequest model)
    = (if Nat.eqb (length anthropicTools) 0 then None else Some tools) /\
  map def_name tools = map tool_name anthropicTools /\
  map def_description tools = map tool_description anthropicTools /\
  map def_parameters tools =
    map (fun tool => Schema.cleanJsonSchema (input_schema tool)) anthropicTools /\
  Forall (fun tool =>
            def_type tool = "function" /\
            Schema.reach_clean (def_parameters tool) = true /\
            Schema.cleanJsonSchema (def_parameters tool) = def_parameters tool)
         tools.
Proof.
  cbv zeta. split; [|split; [|split; [|split]]].
  - unfold convertAnthropicToOpenAI. simpl.
    destruct (req_tools anthropicRequest) as [[|t ts]|]; reflexivity.
  - unfold convertAnthropicToolsToOpenAI. rewrite map_map. reflexivity.
  - unfold convertAnthropicToolsToOpenAI. rewrite map_map. reflexivity.
  - unfold convertAnthropicToolsToOpenAI. rewrite map_map. reflexivity.
  - unfold convertAnthropicToolsToOpenAI.
    apply List.Forall_forall. intros d Hd.
    apply in_map_iff in Hd as (t & <- & _). simpl.
    split; [reflexivity|]. split.
    + apply Schema.cleanJsonSchema_reach_clean.
    + apply Schema.cleanJsonSchema_idempotent.
Qed.

(** X8. A tool choice is sent upstream only with a non-empty tool list,
    and it is never [required]: it is [auto] for the strings [auto] and
    [any], or the named function for an object of type [tool] with a
    non-empty name. *)
Theorem tool_choice_sent (anthropicRequest : AnthropicRequest) (model : string)
  (choice : ToolChoiceOut) :
  out_tool_choice (convertAnthropicToOpenAI anthropicRequest model) = Some choice ->
  (exists tool tools,
      req_tools anthropicRequest = Some (tool :: tools) /\
      out_tools (convertAnthropicToOpenAI anthropicRequest model) =
        Some (convertAnthropicToolsToOpenAI (tool :: tools))) /\
  ((choice = choice_auto /\
    (req_tool_choice anthropicRequest = Some (ChoiceString "auto") \/
     req_tool_choice anthropicRequest = Some (ChoiceString "any"))) \/
   (exists name, name <> "" /\ choice = choice_function name /\
      req_tool_choice anthropicRequest = Some (ChoiceObject "tool" (Some name)))).
Proof.
  unfold convertAnthropicToOpenAI. simpl.
  destruct (req_tools anthropicRequest) as [[|t ts]|]; try discriminate.
  intros H. split; [now exists t, ts|].
  unfold convertToolChoice in H.
  destruct (req_tool_choice anthropicRequest) as [[s|ty name]|]; [| |discriminate].
  - destruct (negb (Js.truthy s)); [discriminate|].
    destruct (String.eqb_spec s "auto") as [Ea|_].
    + injection H as <-. rewrite Ea. left. auto.
    + destruct (String.eqb_spec s "any") as [Ea|_]; [|discriminate].
      injection H as <-. rewrite Ea. left. auto.
  - destruct (String.eqb_spec ty "tool") as [Et|_]; [|discriminate].
    destruct name as [n|]; [|discriminate]. simpl in H.
    destruct (Js.truthy n) eqn:E; [|discriminate].
    injection H as <-. rewrite Et. right. exists n. repeat split.
    intros En. rewrite En in E. discriminate E.
Qed.

End Translation.

(** ** Runs *)

Definition url_image : ContentBlock :=
  image_block {| source_type := "url"; media_type := "image/png";
                 source_data := "https://example.org/cat.png" |}.

Definition search_call : ContentBlock :=
  tool_use_block "toolu_1" "search" (JObj [("q", JStr "cats")]).

Lemma image_without_parts_witness :
  convertMessage Json.stringify
    {| msg_role := "assistant";
       msg_content := BlockContent [url_image; search_call] |} = [].
Proof.
  apply (image_without_parts_drops_tool_calls Json.stringify "assistant"
           [url_image; search_call]); reflexivity.
Defined.

Definition assistant_turn : AnthropicMessage :=
  {| msg_role := "assistant";
     msg_content := BlockContent [text_block "Looking."; search_call] |}.

Definition result_turn : AnthropicMessage :=
  {| msg_role := "user";
     msg_content := BlockContent [tool_result_block "toolu_1" (JStr "3 cats")] |}.

Lemma convertMessages_tool_calls_witness :
  flat_map calls_of (convertMessages Json.stringify [assistant_turn; result_turn]) =
  [ {| call_id := "toolu_1"; call_type := "function"; call_name := "search";
       call_arguments := Json.qq "{'q':'cats'}" |} ].
Proof.
  rewrite (convertMessages_tool_calls Json.stringify [assistant_turn; result_turn]).
  - reflexivity.
  - repeat constructor.
Defined.

Definition forced_tool_request : AnthropicRequest :=
  {| req_messages := [assistant_turn];
     req_system := None;
     req_tools := Some [ {| tool_name := "search"; tool_description := "Search";
                            input_schema := JObj [("type", JStr "object")] |} ];
     req_tool_choice := Some (ChoiceObject "tool" (Some "search"));
     req_stream := None; req_temperature := None; req_max_tokens := None;
     req_top_p := None; req_stop_sequences := None |}.

(** The one tool of that request, as sent: its schema goes through the
    cleaner. *)
Example tool_sent_cleaned :
  out_tools
    (convertAnthropicToOpenAI Json.stringify
       {| req_messages := []; req_system := None;
          req_tools := Some
            [ {| tool_name := "search"; tool_description := "Search";
                 input_schema :=
                   JObj [("type", JStr "object"); ("title", JStr "Search");
                         ("properties",
                          JObj [("q", JObj [("type", JStr "string");
                                            ("format", JStr "uri")])])] |} ];
          req_tool_choice := None; req_stream := None;
          req_temperature := None; req_max_tokens := None;
          req_top_p := None; req_stop_sequences := None |}
       "gpt-4o")
  = Some [ {| def_type := "function"; def_name := "search";
              def_description := "Search";
              def_parameters :=
                JObj [("type", JStr "object");
                      ("properties",
                       JObj [("q", JObj [("type", JStr "string")])])] |} ].
Proof. reflexivity. Qed.

Lemma tool_choice_sent_witness :
  exists name, name <> "" /\
    req_tool_choice forced_tool_request = Some (ChoiceObject "tool" (Some name)).
Proof.
  destruct (tool_choice_sent Json.stringify forced_tool_request "gpt-4o"
              (choice_function "search") eq_refl) as (_ & [(H & _) | (n & Hn & _ & Hc)]).
  - discriminate H.
  - exists n. split; assumption.
Defined.

End RequestTranslation.

(* ================================================================== *)
(** * Authentication: [verifyApiKey] ([utils.ts]) *)
(* ================================================================== *)

Module Auth.

(** Header values are strings of code units below 256. *)

(** [\s] on these code units: TAB, LF, VT, FF, CR, SPACE and the
    no-break space. *)
Definition is_space (c : ascii) : bool :=
  let n := nat_of_ascii c in
  ((9 <=? n)%nat && (n <=? 13)%nat) || (n =? 32)%nat || (n =? 160)%nat.

(** The characters [.] does not match: LF and CR. *)
Definition is_line_terminator (c : ascii) : bool :=
  let n := nat_of_ascii c in (n =? 10)%nat || (n =? 13)%nat.

(** Case folding of the [i] flag: only the letters a-z have another
    case among the code units that can match an ASCII letter. *)
Definition upper (c : ascii) : ascii :=
  let n := nat_of_ascii c in
  if (97 <=? n)%nat && (n <=? 122)%nat then ascii_of_nat (n - 32) else c.

(** A literal matched at the start of the input, any case: what follows
    it. *)
Fixpoint literal (pattern s : string) : option string :=
  match pattern, s with
  | EmptyString, _ => Some s
  | String p pattern', String c s' =>
      if Ascii.eqb (upper p) (upper c) then literal pattern' s' else None
  | String _ _, EmptyString => None
  end.

(** [\s+]: the inputs left after one or more white-space characters,
    in the order the matcher tries them (the longest run first). *)
Fixpoint spaces (s : string) : list string :=
  match s with
  | String c r => if is_space c then spaces r ++ [r] else []
  | EmptyString => []
  end.

Fixpoint no_line_terminator (s : string) : bool :=
  match s with
  | EmptyString => true
  | String c r => negb (is_line_terminator c) && no_line_terminator r
  end.

(** [(.+)$]: one or more characters, none a line terminator, up to the
    end of the input. *)
Definition rest_of_line (s : string) : bool :=
  Js.truthy s && no_line_terminator s.

(** [_authorization.match(/^Bearer\s+(.+)$/i)]: the group [match[1]], or
    [None] for [null]. *)
Definition bearer (authorization : string) : option string :=
  match literal "Bearer" authorization with
  | Some after => List.find rest_of_line (spaces after)
  | None => None
  end.

(** The two headers [verifyApiKey] reads; [None] is the [null] of
    [headers.get]. *)
Record Headers := {
  Authorization : option string;
  x_api_key : option string
}.

Definition verifyApiKey (headers : Headers) (apiKey : option string) : bool :=
  if negb (Js.truthy_opt apiKey) then true
  else
    let _authorization := Authorization headers in
    let _xApiKey := x_api_key headers in
    let authHeader :=
      if Js.truthy_opt _authorization then _authorization else _xApiKey in
    if negb (Js.truthy_opt authHeader) then false
    else if Js.truthy_opt _authorization then
      match bearer (default "" _authorization) with
      | None => false
      | Some group => String.eqb (default "" apiKey) group
      end
    else if Js.truthy_opt _xApiKey
    then String.eqb (default "" apiKey) (default "" _xApiKey)
    else false.

(** ** The matcher *)

Fixpoint all_spaces (s : string) : bool :=
  match s with
  | EmptyString => true
  | String c r => is_space c && all_spaces r
  end.

(** The first character, if any, is not white space. *)
Definition starts_plain (s : string) : bool :=
  match s with
  | EmptyString => true
  | String c _ => negb (is_space c)
  end.

Lemma literal_app pattern s after tail :
  literal pattern s = Some after ->
  literal pattern (s ^^ tail) = Some (after ^^ tail).
Proof.
  revert s. induction pattern as [|p pattern IH]; intros s; simpl.
  - intros [= <-]. reflexivity.
  - destruct s as [|c s]; [discriminate|]. simpl.
    destruct (Ascii.eqb (upper p) (upper c)); [apply IH | discriminate].
Qed.

Lemma spaces_plain s : starts_plain s = true -> spaces s = [].
Proof.
  destruct s as [|c r]; simpl; [reflexivity|].
  destruct (is_space c); [discriminate | reflexivity].
Qed.

Lemma spaces_run run token :
  run <> "" -> all_spaces run = true -> starts_plain token = true ->
  exists shorter, spaces (run ^^ token) = token :: shorter.
Proof.
  induction run as [|c run IH]; intros Hne Hall Hplain; [congruence|].
  simpl in Hall. apply andb_prop in Hall as [Hc Hall].
  simpl. rewrite Hc.
  destruct run as [|d run].
  - simpl. rewrite (spaces_plain _ Hplain). now exists [].
  - assert (Hd : String d run <> "") by discriminate.
    destruct (IH Hd Hall Hplain) as (shorter & ->).
    eexists. reflexivity.
Qed.

Lemma bearer_accepts scheme run token :
  literal "Bearer" scheme = Some "" ->
  run <> "" -> all_spaces run = true ->
  starts_plain token = true -> rest_of_line token = true ->
  bearer (scheme ^^ run ^^ token) = Some token.
Proof.
  intros Hs Hne Hall Hplain Hline. unfold bearer.
  rewrite (literal_app _ _ _ _ Hs). cbn [concat_str].
  destruct (spaces_run run token Hne Hall Hplain) as (shorter & ->).
  simpl. now rewrite Hline.
Qed.

Lemma literal_prefix pattern s after :
  literal pattern s = Some after ->
  exists before, s = before ^^ after /\ literal pattern before = Some "".
Proof.
  revert s. induction pattern as [|p pattern IH]; intros s; simpl.
  - intros [= <-]. now exists "".
  - destruct s as [|c s]; [discriminate|].
    destruct (Ascii.eqb (upper p) (upper c)) eqn:E; [|discriminate].
    intros H. destruct (IH _ H) as (before & -> & Hb).
    exists (String c before). simpl. rewrite E. auto.
Qed.

Lemma spaces_suffix s r :
  In r (spaces s) -> exists run, s = run ^^ r /\ run <> "" /\ all_spaces run = true.
Proof.
  revert r. induction s as [|c s IH]; intros r; simpl; [intros []|].
  destruct (is_space c) eqn:Hc; [|intros []].
  intros H. apply in_app_or in H as [H|[<-|[]]].
  - destruct (IH _ H) as (run & -> & _ & Hall).
    exists (String c run). simpl. rewrite Hc, Hall. repeat split. discriminate.
  - exists (String c ""). simpl. rewrite Hc. repeat split. discriminate.
Qed.

Lemma bearer_group authorization group :
  bearer authorization = Some group ->
  exists scheme run,
    authorization = scheme ^^ run ^^ group /\
    literal "Bearer" scheme = Some "" /\
    run <> "" /\ all_spaces run = true /\ rest_of_line group = true.
Proof.
  unfold bearer.
  destruct (literal "Bearer" authorization) as [after|] eqn:El; [|discriminate].
  intros Hf. apply List.find_some in Hf as [Hin Hline].
  destruct (spaces_suffix _ _ Hin) as (run & -> & Hne & Hall).
  destruct (literal_prefix _ _ _ El) as (scheme & -> & Hs).
  exists scheme, run. auto.
Qed.

(** The key of an accepted request is in its headers. *)
Lemma accepted_presents_key (headers : Headers) (key : string) :
  key <> "" ->
  verifyApiKey headers (Some key) = true ->
  (exists scheme run,
      Authorization headers = Some (scheme ^^ run ^^ key) /\
      literal "Bearer" scheme = Some "" /\
      run <> "" /\ all_spaces run = true)
  \/
  (Js.truthy_opt (Authorization headers) = false /\
   x_api_key headers = Some key).
Proof.
  intros Hkey. unfold verifyApiKey.
  destruct key as [|k key]; [congruence|]. cbn [Js.truthy_opt Js.truthy negb].
  destruct headers as [[a|] x]; cbn [Authorization x_api_key Js.truthy_opt].
  - destruct (Js.truthy a) eqn:Ea.
    + cbn [Js.truthy_opt]. rewrite Ea. cbn [negb default]. unfold id.
      destruct (bearer a) as [group|] eqn:Eb; [|discriminate].
      intros Heq. apply String.eqb_eq in Heq. subst group.
      destruct (bearer_group _ _ Eb) as (scheme & run & -> & Hs & Hne & Hall & _).
      left. exists scheme, run. auto.
    + destruct x as [x|]; [|discriminate]. cbn [Js.truthy_opt].
      destruct (Js.truthy x); [|discriminate]. cbn [negb default]. unfold id.
      intros Heq. apply String.eqb_eq in Heq. subst x. right. auto.
  - destruct x as [x|]; [|discriminate]. cbn [Js.truthy_opt].
    destruct (Js.truthy x); [|discriminate]. cbn [negb default]. unfold id.
    intros Heq. apply String.eqb_eq in Heq. subst x. right. auto.
Qed.

(** ** Properties *)

(** X9. With a key configured, a request whose [Authorization] header is
    the word Bearer in any case, then white space, then a token that is
    a non-empty line not starting with white space, is accepted exactly
    when the token is the configured key, whatever [x-api-key] holds. *)
Theorem verifyApiKey_bearer (scheme run token key : string) (other : option string) :
  literal "Bearer" scheme = Some "" ->
  run <> "" -> all_spaces run = true ->
  starts_plain token = true -> rest_of_line token = true ->
  key <> "" ->
  verifyApiKey {| Authorization := Some (scheme ^^ run ^^ token);
                  x_api_key := other |} (Some key)
  = String.eqb key token.
Proof.
  intros Hs Hne Hall Hplain Hline Hkey. unfold verifyApiKey.
  destruct key as [|k key]; [congruence|]. cbn [Js.truthy_opt Js.truthy negb].
  assert (Ht : Js.truthy (scheme ^^ run ^^ token) = true).
  { destruct scheme; [discriminate Hs|reflexivity]. }
  cbn [Authorization x_api_key Js.truthy_opt default]. rewrite Ht.
  cbn [Js.truthy_opt negb]. rewrite Ht. cbn [negb]. unfold id.
  rewrite (bearer_accepts _ _ _ Hs Hne Hall Hplain Hline). reflexivity.
Qed.

(** X10. With a key configured, an accepted request presents that key:
    either its [Authorization] header is the word Bearer in any case,
    white space and the key, or it has no (or an empty) [Authorization]
    header and its [x-api-key] header is the key. In particular a
    non-empty [Authorization] header of another form rejects the request
    even when [x-api-key] holds the key. *)
Theorem verifyApiKey_sound (headers : Headers) (key : string) :
  key <> "" ->
  verifyApiKey headers (Some key) = true ->
  (exists scheme run,
      Authorization headers = Some (scheme ^^ run ^^ key) /\
      literal "Bearer" scheme = Some "" /\
      run <> "" /\ all_spaces run = true)
  \/
  (Js.truthy_opt (Authorization headers) = false /\
   x_api_key headers = Some key).
Proof. apply accepted_presents_key. Qed.

Lemma verifyApiKey_bearer_witness :
  verifyApiKey {| Authorization := Some ("bearer" ^^ "  " ^^ "sk-1");
                  x_api_key := Some "other" |} (Some "sk-1")
  = String.eqb "sk-1" "sk-1".
Proof.
  apply (verifyApiKey_bearer "bearer" "  " "sk-1" "sk-1" (Some "other"));
    solve [reflexivity | discriminate].
Defined.

Lemma verifyApiKey_sound_witness :
  (exists scheme run,
      Some "" = Some (scheme ^^ run ^^ "sk-1") /\
      literal "Bearer" scheme = Some "" /\
      run <> "" /\ all_spaces run = true)
  \/
  (Js.truthy_opt (Some "") = false /\ Some "sk-1" = Some "sk-1").
Proof.
  apply (verifyApiKey_sound {| Authorization := Some ""; x_api_key := Some "sk-1" |}
           "sk-1"); [discriminate | reflexivity].
Defined.

(** A Basic credential beside a valid [x-api-key]: rejected. *)
Example basic_shadows_x_api_key :
  verifyApiKey {| Authorization := Some "Basic dXNlcjpwYXNz";
                  x_api_key := Some "sk-1" |} (Some "sk-1") = false.
Proof. reflexivity. Qed.

(** The matcher gives back one white-space character when nothing else
    follows the scheme. *)
Example bearer_of_spaces : bearer "Bearer   " = Some " ".
Proof. reflexivity. Qed.

End Auth.

(* ================================================================== *)
(** * Routing and outcomes of the Messages handler *)
(* ================================================================== *)

Module Routing.
Import Validation Handler.

(** ** [urlBuilder] *)

Lemma unified_supported provider :
  isSupportedUnifiedApiEndpoint provider = true ->
  includes SUPPORTED_ENDPOINTS provider = true.
Proof.
  unfold isSupportedUnifiedApiEndpoint, includes. simpl. intros H.
  repeat match type of H with
         | (String.eqb ?p ?s || _) = true =>
             destruct (String.eqb_spec p s) as [E|_];
             [rewrite E; reflexivity | simpl in H]
         end.
  discriminate H.
Qed.

Lemma unified_url endpoint provider azureConfig :
  isSupportedUnifiedApiEndpoint provider = true ->
  urlBuilder endpoint provider azureConfig
  = Ok (endpoint ^^ "/compat/chat/completions").
Proof.
  intros H. unfold urlBuilder.
  now rewrite (unified_supported _ H), H.
Qed.

Lemma fold_slash l a b :
  fold_left (fun acc s => acc ^^ "/" ^^ s) l (a ^^ b)
  = a ^^ fold_left (fun acc s => acc ^^ "/" ^^ s) l b.
Proof.
  revert b. induction l as [|x l IH]; intros b; simpl; [reflexivity|].
  rewrite Js.append_assoc. apply IH.
Qed.

Lemma join_slash_cons x y l :
  join_slash (x :: y :: l) = x ^^ "/" ^^ join_slash (y :: l).
Proof.
  unfold join_slash. simpl.
  rewrite fold_slash. f_equal. apply (fold_slash l "/" y).
Qed.

Lemma joined_under x y l url :
  @Ok string (join_slash (x :: y :: l)) = Ok url ->
  exists path, url = x ^^ "/" ^^ path.
Proof.
  rewrite join_slash_cons. intros [= <-]. eexists. reflexivity.
Qed.

(** ** Properties of the routing *)

(** X11. [urlBuilder] throws in two cases only: the provider is not in
    the supported list (the message is [Unsupported provider:] and the
    provider), or the provider is [azure-openai] and the resource or the
    deployment of the Azure configuration is missing or empty. *)
Theorem urlBuilder_throws (endpoint provider : string) (azureConfig : AzureConfig)
  (e : exn) :
  urlBuilder endpoint provider azureConfig = Throw e <->
  (includes SUPPORTED_ENDPOINTS provider = false /\
   e = Error ("Unsupported provider: " ^^ provider))
  \/
  (provider = "azure-openai" /\
   Js.truthy_opt (resource azureConfig) && Js.truthy_opt (deployment azureConfig)
     = false /\
   e = Error "Missing Azure config for provider: azure-openai").
Proof.
  unfold urlBuilder.
  destruct (includes SUPPORTED_ENDPOINTS provider) eqn:Es; simpl.
  - destruct (isSupportedUnifiedApiEndpoint provider) eqn:Eu.
    + split; [discriminate|]. intros [[H _]|[Hp _]]; [discriminate|].
      rewrite Hp in Eu. discriminate Eu.
    + destruct (String.eqb_spec provider "anthropic") as [Ea|_].
      { rewrite Ea in Eu. discriminate Eu. }
      destruct (String.eqb_spec provider "azure-openai") as [Ea|Hn]; simpl.
      * rewrite Ea.
        destruct (Js.truthy_opt (resource azureConfig) &&
                  Js.truthy_opt (deployment azureConfig)); simpl.
        -- split; [discriminate|]. intros [[H _]|(_ & H & _)]; discriminate.
        -- split; [intros [= <-]; right; auto|]. intros [[H _]|(_ & _ & ->)];
             [discriminate|reflexivity].
      * split; [discriminate|]. intros [[H _]|[Hp _]]; [discriminate|contradiction].
  - split; [intros [= <-]; left; auto|].
    intros [[_ ->]|[Hp _]]; [reflexivity|]. rewrite Hp in Es. discriminate Es.
Qed.


Section Outcomes.

Context {OpenAIRequest ProviderBody Converted : Type}.
Variable convertAnthropicToOpenAI :
  AnthropicMessagesRequest -> string -> result OpenAIRequest.
Variable fetch :
  ProviderRequest (OpenAIRequest := OpenAIRequest)
  -> ProviderResponse (ProviderBody := ProviderBody) + string.
Variable convertToAnthropicResponse :
  ProviderResponse (ProviderBody := ProviderBody) -> result Converted.

Local Abbreviation handle :=
  (handleAnthropicMessagesRequest convertAnthropicToOpenAI fetch
     convertToAnthropicResponse).

(** [const [model, provider] = modelName.split('#')]. *)
Definition model_part (b : AnthropicMessagesRequest) : string :=
  nth 0 (Js.split "#" (default "" (model b))) "".
Definition provider_part (b : AnthropicMessagesRequest) : string :=
  nth 1 (Js.split "#" (default "" (model b))) "".

(** The request reaches the translation: it passes the validation and
    its model holds a [#]. *)
Definition routed (b : AnthropicMessagesRequest) : bool :=
  acceptable b && negb (Js.lacks "#" (default "" (model b))).

Lemma handle_routed b endpoint azureConfig :
  routed b = true ->
  handle (Some b) endpoint azureConfig =
  match convertToProviderRequest convertAnthropicToOpenAI b endpoint
          (provider_part b) (model_part b) azureConfig with
  | Throw e => ([], Throw e)
  | Ok providerRequest =>
      match fetch providerRequest with
      | inr message =>
          ([providerRequest],
           Ok (ErrorBody
                 (formatAnthropicErrorResponse
                    ("Connection failed to provider " ^^ provider_part b
                       ^^ ": " ^^ message)
                    "connection_error" 503)))
      | inl providerResponse =>
          ([providerRequest],
           if resp_ok providerResponse
           then match convertToAnthropicResponse providerResponse with
                | Ok c => Ok (ConvertedBody c)
                | Throw e => Throw e
                end
           else Ok (ErrorBody
                      (handleProviderError providerResponse (provider_part b))))
      end
  end.
Proof.
  unfold routed. intros H. apply andb_prop in H as [Ha Hs].
  unfold handleAnthropicMessagesRequest.
  rewrite (proj2 (validateRequest_none b) Ha).
  assert (Hm : Js.truthy (default "" (model b)) = true).
  { unfold acceptable in Ha. destruct (model b) as [m|]; [|discriminate Ha].
    simpl in Ha |- *. destruct (Js.truthy m); [reflexivity|discriminate Ha]. }
  rewrite Hm. apply negb_true_iff in Hs. rewrite Hs. reflexivity.
Qed.

Lemma handle_not_routed body endpoint azureConfig :
  match body with Some b => routed b | None => false end = false ->
  exists e, handle body endpoint azureConfig = ([], Ok (ErrorBody e)) /\
    (err_type e = "invalid_request_error" /\ err_status e = 400 \/
     err_type e = "model_not_found" /\ err_status e = 404).
Proof.
  intros H. unfold handleAnthropicMessagesRequest.
  destruct (validateRequest body) as [e|] eqn:Ev.
  - exists e. split; [reflexivity|]. left.
    destruct (validateRequest_error _ _ Ev). auto.
  - destruct body as [b|]; [|discriminate Ev].
    apply validateRequest_none in Ev. unfold routed in H. rewrite Ev in H.
    simpl in H. apply negb_false_iff in H. rewrite H, orb_true_r.
    eexists. split; [reflexivity|]. right. auto.
Qed.

Lemma not_supported_not_unified provider :
  includes SUPPORTED_ENDPOINTS provider = false ->
  isSupportedUnifiedApiEndpoint provider = false.
Proof.
  intros H. destruct (isSupportedUnifiedApiEndpoint provider) eqn:E;
    [|reflexivity].
  rewrite (unified_supported _ E) in H. discriminate H.
Qed.

(** The translation runs first: its exception, when it throws, is the
    one that leaves the handler. *)
Lemma handle_unsupported b endpoint azureConfig :
  routed b = true ->
  includes SUPPORTED_ENDPOINTS (provider_part b) = false ->
  handle (Some b) endpoint azureConfig =
  ([], Throw match convertAnthropicToOpenAI b (model_part b) with
             | Throw e => e
             | Ok _ => Error ("Unsupported provider: " ^^ provider_part b)
             end).
Proof.
  intros Hr Hp. rewrite (handle_routed _ _ _ Hr).
  unfold convertToProviderRequest, urlBuilder.
  rewrite (not_supported_not_unified _ Hp), Hp.
  destruct (convertAnthropicToOpenAI b (model_part b)); reflexivity.
Qed.

(** X13. For a provider of the unified API (among them [anthropic]), the
    request sent upstream goes to the [compat/chat/completions] path of
    the gateway, and the model it names is the provider, a slash, and
    the model, whatever the Azure configuration; no request is built
    when the translation throws, and its exception is passed on. *)
Theorem unified_provider_request (requestBody : AnthropicMessagesRequest)
  (endpoint provider model : string) (azureConfig : AzureConfig) :
  isSupportedUnifiedApiEndpoint provider = true ->
  convertToProviderRequest convertAnthropicToOpenAI requestBody endpoint
    provider model azureConfig
  = match convertAnthropicToOpenAI requestBody (provider ^^ "/" ^^ model) with
    | Ok convertedRequest =>
        Ok {| pr_url := endpoint ^^ "/compat/chat/completions";
              pr_body := convertedRequest |}
    | Throw e => Throw e
    end.
Proof.
  intros H. unfold convertToProviderRequest.
  rewrite (unified_url _ _ _ H), H.
  destruct (convertAnthropicToOpenAI _ _); reflexivity.
Qed.

(** X14. The handler sends at most one request upstream, and only for a
    body that passes the validation and whose model holds a [#]; the
    request it sends is the one [convertToProviderRequest] builds from
    the two parts of the model. *)
Theorem at_most_one_upstream_request
  (body : option AnthropicMessagesRequest) (endpoint : string)
  (azureConfig : AzureConfig) :
  fst (handle body endpoint azureConfig) = [] \/
  exists b providerRequest,
    body = Some b /\ acceptable b = true /\
    Js.lacks "#" (default "" (model b)) = false /\
    convertToProviderRequest convertAnthropicToOpenAI b endpoint
      (provider_part b) (model_part b) azureConfig = Ok providerRequest /\
    fst (handle body endpoint azureConfig) = [providerRequest].
Proof.
  destruct (match body with Some b => routed b | None => false end) eqn:Hr.
  - destruct body as [b|]; [|discriminate Hr].
    rewrite (handle_routed _ _ _ Hr).
    destruct (convertToProviderRequest _ _ _ _ _ _) as [pr|e] eqn:Ec;
      [|left; reflexivity].
    right. exists b, pr. unfold routed in Hr. apply andb_prop in Hr as [Ha Hs].
    apply negb_true_iff in Hs. repeat split; auto.
    destruct (fetch pr); reflexivity.
  - destruct (handle_not_routed _ endpoint azureConfig Hr) as (e & -> & _).
    left. reflexivity.
Qed.

(** X15. An error response the handler builds is of one of four kinds:
    the 400 [invalid_request_error] and the 404 [model_not_found], both
    without any request sent upstream; the 503 [connection_error] when
    the fetch of the one request sent failed, whose message names the
    provider and the failure; the [api_error] that carries the status of
    an upstream response that was not ok. *)
Theorem error_responses
  (body : option AnthropicMessagesRequest) (endpoint : string)
  (azureConfig : AzureConfig) (e : ErrorResponse) :
  snd (handle body endpoint azureConfig) = Ok (ErrorBody e) ->
  (fst (handle body endpoint azureConfig) = [] /\
   (err_type e = "invalid_request_error" /\ err_status e = 400 \/
    err_type e = "model_not_found" /\ err_status e = 404))
  \/
  exists b providerRequest,
    body = Some b /\
    fst (handle body endpoint azureConfig) = [providerRequest] /\
    ((exists failure,
         fetch providerRequest = inr failure /\
         e = formatAnthropicErrorResponse
               ("Connection failed to provider " ^^ provider_part b
                  ^^ ": " ^^ failure)
               "connection_error" 503)
     \/
     (exists providerResponse,
         fetch providerRequest = inl providerResponse /\
         resp_ok providerResponse = false /\
         err_type e = "api_error" /\
         err_status e = resp_status providerResponse)).
Proof.
  destruct (match body with Some b => routed b | None => false end) eqn:Hr.
  - destruct body as [b|]; [|discriminate Hr].
    rewrite (handle_routed _ _ _ Hr).
    destruct (convertToProviderRequest _ _ _ _ _ _) as [pr|x]; [|discriminate].
    destruct (fetch pr) as [resp|failure] eqn:Ef; simpl.
    + destruct (resp_ok resp) eqn:Eo.
      * destruct (convertToAnthropicResponse resp); discriminate.
      * intros [= <-]. right. exists b, pr. repeat split.
        right. exists resp. repeat split; auto;
          unfold handleProviderError; destruct (resp_error resp); reflexivity.
    + intros [= <-]. right. exists b, pr. repeat split.
      left. exists failure. auto.
  - destruct (handle_not_routed _ endpoint azureConfig Hr) as (e' & -> & He).
    simpl. intros [= <-]. left. auto.
Qed.

End Outcomes.

(** ** Runs *)


Lemma unified_provider_request_witness :
  convertToProviderRequest (fun _ m => Ok m) no_provider_request "https://gateway"
    "anthropic" "claude-3" {| resource := None; deployment := None; apiVersion := None |}
  = Ok {| pr_url := "https://gateway/compat/chat/completions";
          pr_body := "anthropic/claude-3" |}.
Proof.
  apply (unified_provider_request (fun _ m => Ok m) no_provider_request
           "https://gateway" "anthropic" "claude-3"
           {| resource := None; deployment := None; apiVersion := None |}).
  reflexivity.
Defined.

(** A valid request for the provider [openai] whose upstream answers 429
    with an error body. *)
Definition openai_request : AnthropicMessagesRequest :=
  {| model := Some "gpt-4o#openai";
     max_tokens := Some 16;
     messages := MessagesArray
       [ {| role := Some "user"; content := Some (ContentString "Hello") |} ] |}.

Definition rate_limited : ProviderResponse (ProviderBody := unit) :=
  {| resp_ok := false; resp_status := 429;
     resp_error := Some (Some "Rate limit reached"); resp_body := tt |}.

Lemma error_responses_witness :
  let outcome :=
    handleAnthropicMessagesRequest (fun _ m => Ok m) (fun _ => inl rate_limited)
      (fun _ => Ok tt) (Some openai_request) "https://gateway"
      {| resource := None; deployment := None; apiVersion := None |} in
  outcome =
    ([ {| pr_url := "https://gateway/compat/chat/completions";
          pr_body := "openai/gpt-4o" |} ],
     Ok (ErrorBody (formatAnthropicErrorResponse "[openai] Rate limit reached"
                      "api_error" 429))) /\
  (fst outcome = [] \/ exists b providerRequest, Some openai_request = Some b /\
     fst outcome = [providerRequest]).
Proof.
  split; [reflexivity|].
  destruct (error_responses (fun _ m => Ok m) (fun _ => inl rate_limited)
              (fun _ => Ok tt) (Some openai_request) "https://gateway"
              {| resource := None; deployment := None; apiVersion := None |}
              (formatAnthropicErrorResponse "[openai] Rate limit reached"
                 "api_error" 429) eq_refl)
    as [[H _]|(b & pr & Hb & Hs & _)].
  - left. exact H.
  - right. exists b, pr. auto.
Defined.

End Routing.

(* ================================================================== *)
(** * The worker: [fetch] ([index.ts]) *)
(* ================================================================== *)

Module Worker.
Import Validation Handler.

(** [s.includes(needle)]. *)
Fixpoint str_includes (needle s : string) : bool :=
  String.prefix needle s ||
  match s with
  | String _ r => str_includes needle r
  | EmptyString => false
  end.

(** Response headers: names in lower case with their values;
    [headers.set] replaces the value of a name that is present. *)
Definition HeaderList := list (string * string).

Definition set_header (name value : string) (h : HeaderList) : HeaderList :=
  (name, value) :: List.filter (fun kv => negb (String.eqb (fst kv) name)) h.

Fixpoint get_header (name : string) (h : HeaderList) : option string :=
  match h with
  | [] => None
  | (k, v) :: r => if String.eqb k name then Some v else get_header name r
  end.

Definition corsHeaders : list (string * string) :=
  [ ("access-control-allow-origin", "*");
    ("access-control-allow-methods", "GET, POST, OPTIONS");
    ("access-control-allow-headers", "Authorization, Content-Type");
    ("access-control-max-age", "86400") ].

Record Env := {
  GatewayToken : option string;
  ACCOUNT_ID : string;
  GATEWAY_ID : string;
  AZURE_RESOURCE : option string;
  AZURE_API_VERSION : option string
}.

Definition getEndpoint (env : Env) : string :=
  "https://gateway.ai.cloudflare.com/v1/" ^^ ACCOUNT_ID env ^^ "/" ^^ GATEWAY_ID env.

Section Worker.

(** The request: its method, the path of its URL, the two headers the
    authentication reads, and its body. *)
Context {Body : Type}.
Record Request := {
  method : string;
  pathname : string;
  headers : Auth.Headers;
  body : Body
}.

(** What [request.json()] yields to the Messages handler. *)
Variable request_json : Body -> option AnthropicMessagesRequest.

(** The Messages handler's surroundings, as in [Handler]. *)
Context {OpenAIRequest ProviderBody Converted : Type}.
Variable convertAnthropicToOpenAI :
  AnthropicMessagesRequest -> string -> result OpenAIRequest.
Variable fetch_provider :
  ProviderRequest (OpenAIRequest := OpenAIRequest)
  -> ProviderResponse (ProviderBody := ProviderBody) + string.
Variable convertToAnthropicResponse :
  ProviderResponse (ProviderBody := ProviderBody) -> result Converted.

(** Status and headers of a converted response. *)
Variable converted_status : Converted -> Z.
Variable converted_headers : Converted -> HeaderList.

(** What a response carries. *)
Context {Chat : Type}.
Inductive Payload :=
| NoBody
| ErrorJson (message type : string)
| MessagesBody (r : Response Converted)
| ChatBody (c : Chat).

Record HttpResponse := {
  status : Z;
  response_headers : HeaderList;
  payload : Payload
}.

(** [handleChatCompletionsRequest]: status, headers and body of its
    response, or the exception it throws. *)
Variable handleChatCompletionsRequest :
  Request -> string -> AzureConfig -> result (Z * HeaderList * Chat).

(** The message of an exception that is not a plain [Error]. *)
Variable native_message : exn -> string.

Definition error_message (e : exn) : string :=
  match e with
  | Error message => message
  | other => native_message other
  end.

Definition corsWrapper (response : HttpResponse) : HttpResponse :=
  {| status := status response;
     response_headers :=
       fold_left (fun h kv => set_header (fst kv) (snd kv) h) corsHeaders
                 (response_headers response);
     payload := payload response |}.

(** [formatErrorResponse], without the [other] members the worker never
    passes. *)
Definition formatErrorResponse (message type : string) (status : Z) : HttpResponse :=
  corsWrapper
    {| status := status;
       response_headers := [("content-type", "application/json")];
       payload := ErrorJson message type |}.

(** The response of the Messages handler as an HTTP response. *)
Definition messages_response (r : Response Converted) : HttpResponse :=
  match r with
  | ErrorBody e =>
      {| status := err_status e;
         response_headers := [("content-type", "application/json");
                              ("access-control-allow-origin", "*")];
         payload := MessagesBody r |}
  | ConvertedBody c =>
      {| status := converted_status c;
         response_headers := converted_headers c;
         payload := MessagesBody r |}
  end.

(** [fetch]: the requests sent upstream by the Messages handler, and the
    response. The 405 response built for a method other than [POST] is
    stored in a variable that is never read. The logger only writes to
    the console and is left out. *)
Definition fetch (request : Request) (env : Env)
  : list ProviderRequest * HttpResponse :=
  let apiKey := GatewayToken env in
  let path := pathname request in
  if String.eqb (method request) "OPTIONS"
  then ([], corsWrapper {| status := 204; response_headers := []; payload := NoBody |})
  else if negb (Auth.verifyApiKey (headers request) apiKey)
  then ([], formatErrorResponse "Invalid API key" "unauthorized" 401)
  else
    let endpoint := getEndpoint env in
    let azureConfig :=
      {| resource := AZURE_RESOURCE env; deployment := None;
         apiVersion := AZURE_API_VERSION env |} in
    if str_includes "/messages" path then
      match handleAnthropicMessagesRequest convertAnthropicToOpenAI
              fetch_provider convertToAnthropicResponse
              (request_json (body request)) endpoint azureConfig with
      | (sent, Ok response) => (sent, corsWrapper (messages_response response))
      | (sent, Throw error) =>
          (sent, formatErrorResponse ("Unhandled error: " ^^ error_message error)
                   "internal_error" 500)
      end
    else if str_includes "/chat/completions" path then
      match handleChatCompletionsRequest request endpoint azureConfig with
      | Ok (s, h, c) =>
          ([], corsWrapper {| status := s; response_headers := h;
                              payload := ChatBody c |})
      | Throw error =>
          ([], formatErrorResponse ("Unhandled error: " ^^ error_message error)
                 "internal_error" 500)
      end
    else ([], formatErrorResponse "Not found" "not_found" 404).

(** ** Headers *)

Lemma get_set_same name value h :
  get_header name (set_header name value h) = Some value.
Proof. unfold set_header. simpl. now rewrite String.eqb_refl. Qed.

Lemma get_filter_other name other h :
  String.eqb other name = false ->
  get_header name (List.filter (fun kv => negb (String.eqb (fst kv) other)) h)
  = get_header name h.
Proof.
  intros Hne. induction h as [|[k v] h IH]; simpl; [reflexivity|].
  destruct (String.eqb_spec k other) as [E|_]; simpl.
  - rewrite E, Hne. exact IH.
  - now rewrite IH.
Qed.

Lemma get_set_other name other value h :
  String.eqb other name = false ->
  get_header name (set_header other value h) = get_header name h.
Proof.
  intros Hne. unfold set_header. simpl. rewrite Hne.
  now apply get_filter_other.
Qed.

Lemma corsWrapper_headers response :
  Forall (fun kv => get_header (fst kv) (response_headers (corsWrapper response))
                    = Some (snd kv)) corsHeaders.
Proof.
  unfold corsWrapper, corsHeaders. cbn [response_headers fold_left fst snd].
  repeat constructor; cbn [fst snd];
    repeat first [ apply get_set_same
                 | rewrite get_set_other by reflexivity ].
Qed.

(** ** Properties *)

(** X16. Every response of the worker carries the four CORS headers with
    their fixed values, whatever the handlers put in the headers of
    their responses: the preflight answer, the worker's own errors, and
    the responses of both handlers. *)
Theorem cors_on_every_response (request : Request) (env : Env) :
  Forall (fun kv =>
            get_header (fst kv) (response_headers (snd (fetch request env)))
            = Some (snd kv))
         corsHeaders.
Proof.
  unfold fetch.
  destruct (String.eqb (method request) "OPTIONS"); [apply corsWrapper_headers|].
  destruct (negb _); [apply corsWrapper_headers|].
  destruct (str_includes "/messages" (pathname request)).
  - destruct (handleAnthropicMessagesRequest _ _ _ _ _ _) as [sent [r|e]];
      apply corsWrapper_headers.
  - destruct (str_includes "/chat/completions" (pathname request));
      [|apply corsWrapper_headers].
    destruct (handleChatCompletionsRequest _ _ _) as [[[s h] c]|e];
      apply corsWrapper_headers.
Qed.

(** X17. A request is sent upstream through the Messages route only for
    an authenticated request: when the worker's result holds a request
    sent upstream, no key is configured, or the key is in the request's
    headers (as a Bearer credential, or as [x-api-key] with no
    [Authorization] header); moreover the method is not [OPTIONS] and
    the path holds [/messages]. *)
Theorem upstream_needs_key (request : Request) (env : Env) :
  fst (fetch request env) <> [] ->
  method request <> "OPTIONS" /\
  str_includes "/messages" (pathname request) = true /\
  (Js.truthy_opt (GatewayToken env) = false \/
   exists key, GatewayToken env = Some key /\
     ((exists scheme run,
          Auth.Authorization (headers request) = Some (scheme ^^ run ^^ key) /\
          Auth.literal "Bearer" scheme = Some "" /\
          run <> "" /\ Auth.all_spaces run = true)
      \/
      (Js.truthy_opt (Auth.Authorization (headers request)) = false /\
       Auth.x_api_key (headers request) = Some key))).
Proof.
  unfold fetch.
  destruct (String.eqb_spec (method request) "OPTIONS") as [|Hm];
    [intros H; now contradiction H|].
  destruct (Auth.verifyApiKey (headers request) (GatewayToken env)) eqn:Ev;
    cbn [negb]; [|intros H; now contradiction H].
  destruct (str_includes "/messages" (pathname request)).
  - intros _. split; [exact Hm|]. split; [reflexivity|].
    destruct (GatewayToken env) as [key|]; [|now left].
    destruct key as [|k key]; [now left|]. right.
    exists (String k key). split; [reflexivity|].
    apply Auth.accepted_presents_key; [discriminate | exact Ev].
  - destruct (str_includes "/chat/completions" (pathname request));
      [|intros H; now contradiction H].
    destruct (handleChatCompletionsRequest _ _ _) as [[[s h] c]|e];
      intros H; now contradiction H.
Qed.

(** X18. A request that passes the authentication and the validation on
    the Messages route, and whose model names a provider outside the
    supported list, is answered by the worker's 500 [internal_error],
    and nothing is sent upstream. The message is [Unhandled error:]
    followed by the message of the exception the translation throws,
    when it throws on this body (it runs first); else by [Unsupported
    provider:] and the provider. *)
Theorem unsupported_provider_internal_error (request : Request) (env : Env)
  (b : AnthropicMessagesRequest) :
  method request <> "OPTIONS" ->
  Auth.verifyApiKey (headers request) (GatewayToken env) = true ->
  str_includes "/messages" (pathname request) = true ->
  request_json (body request) = Some b ->
  Routing.routed b = true ->
  includes SUPPORTED_ENDPOINTS (Routing.provider_part b) = false ->
  fetch request env =
  ([], formatErrorResponse
         ("Unhandled error: " ^^
          match convertAnthropicToOpenAI b (Routing.model_part b) with
          | Throw e => error_message e
          | Ok _ => "Unsupported provider: " ^^ Routing.provider_part b
          end)
         "internal_error" 500).
Proof.
  intros Hm Hv Hp Hb Hr Hs. unfold fetch.
  destruct (String.eqb_spec (method request) "OPTIONS"); [contradiction|].
  rewrite Hv, Hp, Hb. cbn [negb].
  rewrite (Routing.handle_unsupported _ _ _ b _ _ Hr Hs).
  destruct (convertAnthropicToOpenAI b (Routing.model_part b)); reflexivity.
Qed.

(** X19. The errors the worker builds itself are of three kinds: the 401
    [unauthorized] with the message [Invalid API key], the 404
    [not_found], and the 500 [internal_error] whose message is
    [Unhandled error:] and the message of an exception a handler threw.
    The 405 [method_not_allowed] it builds for a method other than
    [POST] is never returned: such a request is authenticated and routed
    like any other. *)
Theorem worker_errors (request : Request) (env : Env) (message type : string) :
  payload (snd (fetch request env)) = ErrorJson message type ->
  (status (snd (fetch request env)) = 401 /\ type = "unauthorized" /\
   message = "Invalid API key" /\
   Auth.verifyApiKey (headers request) (GatewayToken env) = false)
  \/
  (status (snd (fetch request env)) = 404 /\ type = "not_found" /\
   message = "Not found")
  \/
  (status (snd (fetch request env)) = 500 /\ type = "internal_error" /\
   exists error, message = "Unhandled error: " ^^ error_message error).
Proof.
  unfold fetch.
  destruct (String.eqb (method request) "OPTIONS");
    [unfold corsWrapper; simpl; intros H; discriminate H|].
  destruct (Auth.verifyApiKey (headers request) (GatewayToken env)); cbn [negb].
  - destruct (str_includes "/messages" (pathname request)).
    + destruct (handleAnthropicMessagesRequest _ _ _ _ _ _) as [sent [[e|c]|e]];
        unfold formatErrorResponse, corsWrapper; simpl; intros H;
        try discriminate H.
      injection H as <- <-. right. right. repeat split. now exists e.
    + destruct (str_includes "/chat/completions" (pathname request)).
      * destruct (handleChatCompletionsRequest _ _ _) as [[[s h] c]|e];
          unfold formatErrorResponse, corsWrapper; simpl; intros H;
          try discriminate H.
        injection H as <- <-. right. right. repeat split. now exists e.
      * unfold formatErrorResponse, corsWrapper; simpl. intros H.
        injection H as <- <-. right. left. auto.
  - unfold formatErrorResponse, corsWrapper; simpl. intros H.
    injection H as <- <-. left. auto.
Qed.

End Worker.

(** ** Runs *)

Definition demo_env : Env :=
  {| GatewayToken := Some "sk-1"; ACCOUNT_ID := "acct"; GATEWAY_ID := "gw";
     AZURE_RESOURCE := None; AZURE_API_VERSION := None |}.

Definition messages_post (b : AnthropicMessagesRequest)
  : Request (Body := AnthropicMessagesRequest) :=
  {| method := "POST"; pathname := "/v1/messages";
     headers := {| Auth.Authorization := None; Auth.x_api_key := Some "sk-1" |};
     body := b |}.

(** The worker, with an upstream that answers 429 and a chat handler
    that is not reached. *)
Definition demo_fetch (request : Request (Body := AnthropicMessagesRequest))
  : list ProviderRequest * HttpResponse (Chat := unit) :=
  fetch Some (fun _ m => Ok m) (fun _ => inl Routing.rate_limited)
    (fun _ => Ok tt) (fun _ => 200) (fun _ => [])
    (fun _ _ _ => Throw TypeError) (fun _ => "") request demo_env.

Definition unknown_provider_request : AnthropicMessagesRequest :=
  {| model := Some "gpt-4o#acme";
     max_tokens := Some 16;
     messages := MessagesArray
       [ {| role := Some "user"; content := Some (ContentString "Hello") |} ] |}.

(** A body the validation lets through and the translation throws on (a
    content block that is [null]), for a provider that is not supported
    either: the client gets the message of the translation's
    exception. *)
Definition null_block_request : AnthropicMessagesRequest :=
  {| model := Some "gpt-4o#acme";
     max_tokens := Some 16;
     messages := MessagesArray
       [ {| role := Some "user"; content := Some (ContentBlocks [Json.JNull]) |} ] |}.

Example translation_exception_first :
  fetch (OpenAIRequest := string) (Chat := unit) Some
    (fun _ _ => Throw TypeError) (fun _ => inl Routing.rate_limited)
    (fun _ => Ok tt) (fun _ => 200) (fun _ => [])
    (fun _ _ _ => Throw TypeError)
    (fun _ => "Cannot read properties of null (reading 'type')")
    (messages_post null_block_request) demo_env
  = ([], formatErrorResponse
           "Unhandled error: Cannot read properties of null (reading 'type')"
           "internal_error" 500).
Proof. reflexivity. Qed.

Lemma upstream_needs_key_witness :
  fst (demo_fetch (messages_post Routing.openai_request)) <> [] /\
  method (messages_post Routing.openai_request) <> "OPTIONS".
Proof.
  assert (H : fst (demo_fetch (messages_post Routing.openai_request)) <> [])
    by (intros H; vm_compute in H; discriminate H).
  split; [exact H|].
  exact (proj1 (upstream_needs_key Some (fun _ m => Ok m)
                  (fun _ => inl Routing.rate_limited) (fun _ => Ok tt)
                  (fun _ => 200) (fun _ => []) (fun _ _ _ => Throw TypeError)
                  (fun _ => "") (messages_post Routing.openai_request)
                  demo_env H)).
Defined.

Lemma unsupported_provider_witness :
  demo_fetch (messages_post unknown_provider_request) =
  ([], formatErrorResponse "Unhandled error: Unsupported provider: acme"
         "internal_error" 500).
Proof.
  apply (unsupported_provider_internal_error Some (fun _ m => Ok m)
           (fun _ => inl Routing.rate_limited) (fun _ => Ok tt)
           (fun _ => 200) (fun _ => []) (fun _ _ _ => Throw TypeError)
           (fun _ => "") (messages_post unknown_provider_request) demo_env
           unknown_provider_request);
    solve [reflexivity | intros H; discriminate H].
Defined.

Definition unknown_path : Request (Body := AnthropicMessagesRequest) :=
  {| method := "GET"; pathname := "/v1/models";
     headers := {| Auth.Authorization := Some "Bearer sk-1"; Auth.x_api_key := None |};
     body := Routing.openai_request |}.

Lemma worker_errors_witness :
  payload (snd (demo_fetch unknown_path)) = ErrorJson "Not found" "not_found" /\
  status (snd (demo_fetch unknown_path)) = 404.
Proof.
  split; [reflexivity|].
  destruct (worker_errors (Chat := unit) Some (fun _ m => Ok m)
              (fun _ => inl Routing.rate_limited) (fun _ => Ok tt)
              (fun _ => 200) (fun _ => []) (fun _ _ _ => Throw TypeError)
              (fun _ => "") unknown_path demo_env "Not found" "not_found" eq_refl)
    as [(_ & H & _)|[(H & _)|(_ & H & _)]];
    [discriminate H | exact H | discriminate H].
Defined.

End Worker.

(* ================================================================== *)
(** * The text carried by a stream *)
(* ================================================================== *)

Module StreamText.
Import Json Streaming.

(** The text of the [text_delta] events, in order. *)
Definition delta_text (e : Event) : list string :=
  match e with
  | content_block_delta _ (text_delta text) => [text]
  | _ => []
  end.

Definition texts (l : list Event) : list string := flat_map delta_text l.

(** ** The chunk format

    The callback reads a chunk through [as_chunk], which takes a member
    of another type than the format's for an absent one. The code does
    not: it throws on a tool call that is [null] (and the events of the
    chunk are lost), it emits a content that is a number as it emits a
    string, it closes the text block on any truthy finish reason. On the
    chunks below the two agree: an object whose [choices], when it is an
    array that is not empty, starts with an object whose [finish_reason]
    is a string and whose [delta] is an object with a string [content]
    and an array [tool_calls] of objects with a number [index], a string
    [id] and an object [function] with strings [name] and [arguments];
    each of these members may be absent or [null]. *)
Definition string_or_absent (o : option json) : bool :=
  match o with
  | None | Some JNull | Some (JStr _) => true
  | _ => false
  end.

Definition number_or_absent (o : option json) : bool :=
  match o with
  | None | Some JNull | Some (JNum _) => true
  | _ => false
  end.

Definition function_in_format (o : option json) : bool :=
  match o with
  | None | Some JNull => true
  | Some (JObj members) =>
      string_or_absent (lookup "name" members) &&
      string_or_absent (lookup "arguments" members)
  | _ => false
  end.

Definition tool_call_in_format (v : json) : bool :=
  match v with
  | JObj members =>
      number_or_absent (lookup "index" members) &&
      string_or_absent (lookup "id" members) &&
      function_in_format (lookup "function" members)
  | _ => false
  end.

Definition delta_in_format (o : option json) : bool :=
  match o with
  | None | Some JNull => true
  | Some (JObj members) =>
      string_or_absent (lookup "content" members) &&
      match lookup "tool_calls" members with
      | None | Some JNull => true
      | Some (JArr toolCalls) => forallb tool_call_in_format toolCalls
      | _ => false
      end
  | _ => false
  end.

Definition choice_in_format (v : json) : bool :=
  match v with
  | JObj members =>
      string_or_absent (lookup "finish_reason" members) &&
      delta_in_format (lookup "delta" members)
  | _ => false
  end.

Definition in_format (v : json) : bool :=
  match v with
  | JObj members =>
      match lookup "choices" members with
      | None | Some JNull | Some (JArr []) => true
      | Some (JArr (choice :: _)) => choice_in_format choice
      | _ => false
      end
  | _ => false
  end.

Section Text.

Variable JSON_parse : string -> option json.
Variable JSON_stringify : json -> string.

Local Abbreviation callback := (processLine JSON_parse JSON_stringify).

(** The delta of the first choice of a payload, when the callback gets
    that far. *)
Definition first_delta (jsonStr : string) : option (StreamChoice * Delta) :=
  match JSON_parse jsonStr with
  | Some openAIData =>
      match choices (as_chunk openAIData) with
      | Some (choice :: _) =>
          match sc_delta choice with
          | Some delta => Some (choice, delta)
          | None => None
          end
      | _ => None
      end
  | None => None
  end.

(** The text a payload holds: the [content] of that delta when it is a
    non-empty string. *)
Definition payload_text (jsonStr : string) : list string :=
  match first_delta jsonStr with
  | Some (_, delta) =>
      if Js.truthy_opt (d_content delta) then [default "" (d_content delta)] else []
  | None => []
  end.

(** The text of a complete line. *)
Definition line_text (line : string) : list string :=
  if negb (Js.truthy (Js.trim line)) || negb (Js.startsWith "data: " line)
  then []
  else
    let jsonStr := Js.trim (Js.slice 6 line) in
    if String.eqb jsonStr "[DONE]" then []
    else if negb (Js.truthy jsonStr) then []
    else payload_text jsonStr.

(** The text of what is left in the buffer when the stream closes. *)
Definition flush_text (buffer : string) : list string :=
  if Js.truthy (Js.trim buffer) then
    if Js.startsWith "data: " (Js.trim buffer) then
      let finalJsonStr := Js.trim (Js.slice 6 buffer) in
      if Js.truthy finalJsonStr && negb (String.eqb finalJsonStr "[DONE]")
      then payload_text finalJsonStr else []
    else payload_text (Js.trim buffer)
  else [].

(** A payload that is not JSON, or a chunk in the format. *)
Definition payload_in_format (jsonStr : string) : bool :=
  match JSON_parse jsonStr with
  | Some openAIData => in_format openAIData
  | None => true
  end.

(** The payload the loop hands to the callback for a line, if any, is
    in the format. *)
Definition line_in_format (line : string) : bool :=
  if negb (Js.truthy (Js.trim line)) || negb (Js.startsWith "data: " line)
  then true
  else
    let jsonStr := Js.trim (Js.slice 6 line) in
    if String.eqb jsonStr "[DONE]" then true
    else if negb (Js.truthy jsonStr) then true
    else payload_in_format jsonStr.

(** The same for what is left in the buffer when the stream closes. *)
Definition buffer_in_format (buffer : string) : bool :=
  if Js.truthy (Js.trim buffer) then
    if Js.startsWith "data: " (Js.trim buffer) then
      let finalJsonStr := Js.trim (Js.slice 6 buffer) in
      if Js.truthy finalJsonStr && negb (String.eqb finalJsonStr "[DONE]")
      then payload_in_format finalJsonStr else true
    else payload_in_format (Js.trim buffer)
  else true.

(** A line the loop passes over: blank, not a [data: ] line, an empty
    payload, or a payload other than [[DONE]] that is not JSON or is a
    chunk in the format in which the callback finds no delta (no choice,
    or no delta in the first choice). *)
Definition passed_over (line : string) : bool :=
  negb (Js.truthy (Js.trim line)) || negb (Js.startsWith "data: " line) ||
  (let jsonStr := Js.trim (Js.slice 6 line) in
   negb (String.eqb jsonStr "[DONE]") &&
   (negb (Js.truthy jsonStr) ||
    (payload_in_format jsonStr &&
     match first_delta jsonStr with Some _ => false | None => true end))).

Lemma texts_app a b : texts (a ++ b) = texts a ++ texts b.
Proof. apply flat_map_app. Qed.

Lemma toolCallStep_texts cti st toolCall :
  texts (snd (fst (toolCallStep JSON_parse JSON_stringify cti st toolCall)))
  = texts (snd (fst st)).
Proof.
  destruct st as [[buf ev] cur].
  destruct (toolCallStep_events JSON_parse JSON_stringify cti buf ev cur toolCall)
    as [-> | (id & name & pj & ->)]; [reflexivity|].
  rewrite texts_app. simpl. apply app_nil_r.
Qed.

Lemma fold_toolCallStep_texts cti toolCalls st :
  texts (snd (fst (fold_left (toolCallStep JSON_parse JSON_stringify cti)
                     toolCalls st)))
  = texts (snd (fst st)).
Proof.
  revert st. induction toolCalls as [|t toolCalls IH]; intros st; simpl;
    [reflexivity|].
  rewrite IH. apply toolCallStep_texts.
Qed.

(** What the callback returns, through [first_delta]. *)
Lemma processLine_none buf jsonStr textIndex toolIndex :
  first_delta jsonStr = None ->
  callback buf jsonStr textIndex toolIndex = (buf, None).
Proof.
  unfold processLine, first_delta.
  destruct (JSON_parse jsonStr) as [v|]; [|reflexivity].
  destruct (choices (as_chunk v)) as [[|choice l]|]; try reflexivity.
  destruct (sc_delta choice); [discriminate | reflexivity].
Qed.

Lemma processLine_texts buf jsonStr textIndex toolIndex :
  texts (match snd (callback buf jsonStr textIndex toolIndex) with
         | Some r => events r
         | None => []
         end)
  = payload_text jsonStr.
Proof.
  unfold payload_text.
  destruct (first_delta jsonStr) as [[choice delta]|] eqn:E;
    [|now rewrite processLine_none].
  unfold first_delta in E. unfold processLine.
  destruct (JSON_parse jsonStr) as [v|]; [|discriminate E].
  destruct (choices (as_chunk v)) as [[|c l]|]; try discriminate E.
  destruct (sc_delta c) as [d|]; [|discriminate E].
  injection E as -> ->.
  set (first := if Js.truthy_opt (d_content delta) then _ else _).
  assert (Hfirst : texts (fst first) =
            if Js.truthy_opt (d_content delta)
            then [default "" (d_content delta)] else []).
  { subst first. destruct (Js.truthy_opt (d_content delta)); [|reflexivity].
    destruct (textIndex =? 0); reflexivity. }
  destruct first as [ev0 cti]. simpl in Hfirst.
  set (folded := match d_tool_calls delta with Some _ => _ | None => _ end).
  assert (Hfold : texts (snd (fst folded)) = texts ev0).
  { subst folded. destruct (d_tool_calls delta) as [tcs|]; [|reflexivity].
    apply fold_toolCallStep_texts. }
  destruct folded as [[buf' ev1] cur]. simpl in Hfold. simpl.
  destruct (Js.truthy_opt (sc_finish_reason choice) && (0 <? cti)).
  - rewrite texts_app, Hfold, Hfirst. simpl. apply app_nil_r.
  - now rewrite Hfold.
Qed.

Lemma callProcessLine_texts flag st jsonStr :
  texts (snd (callProcessLine callback flag st jsonStr)) = payload_text jsonStr.
Proof.
  unfold callProcessLine.
  pose proof (processLine_texts (closure st) jsonStr
                (if hasStartedContent st then 1 else 0) (toolUseIndex st)) as H.
  destruct (callback _ _ _ _) as [c [r|]]; exact H.
Qed.

Lemma handleLine_texts st line :
  texts (snd (handleLine callback st line)) = line_text line.
Proof.
  unfold handleLine, line_text.
  destruct (negb _ || negb _); [reflexivity|].
  destruct (String.eqb _ "[DONE]");
    [destruct (hasStartedContent st); reflexivity|].
  destruct (negb _); [reflexivity|].
  apply callProcessLine_texts.
Qed.

Lemma handleLines_texts st lines :
  texts (snd (handleLines callback st lines)) = flat_map line_text lines.
Proof.
  revert st. induction lines as [|line lines IH]; intros st; simpl;
    [reflexivity|].
  pose proof (handleLine_texts st line) as H.
  destruct (handleLine callback st line) as [st1 ev1].
  specialize (IH st1). destruct (handleLines callback st1 lines) as [st2 ev2].
  simpl in *. now rewrite texts_app, H, IH.
Qed.

Lemma flushBuffer_texts buffer st :
  texts (snd (flushBuffer callback JSON_parse buffer st)) = flush_text buffer.
Proof.
  unfold flushBuffer, flush_text.
  destruct (Js.truthy (Js.trim buffer)); [|reflexivity].
  destruct (Js.startsWith "data: " (Js.trim buffer)).
  - destruct (Js.truthy _ && negb _); [apply callProcessLine_texts|reflexivity].
  - destruct (JSON_parse (Js.trim buffer)) eqn:E; [apply callProcessLine_texts|].
    unfold payload_text, first_delta. now rewrite E.
Qed.

Lemma finish_texts buffer st :
  texts (finish callback JSON_parse buffer st) = flush_text buffer.
Proof.
  unfold finish. pose proof (flushBuffer_texts buffer st) as H.
  destruct (flushBuffer callback JSON_parse buffer st) as [st1 ev1].
  simpl in H. rewrite !texts_app, H. simpl.
  destruct (hasStartedContent st1); simpl; now rewrite app_nil_r.
Qed.

Lemma handleLine_passed_over st line :
  passed_over line = true -> handleLine callback st line = (st, []).
Proof.
  unfold passed_over, handleLine.
  destruct (negb _ || negb _); [reflexivity|]. simpl.
  destruct (String.eqb _ "[DONE]"); [discriminate|]. simpl.
  destruct (negb (Js.truthy _)); [reflexivity|]. simpl.
  destruct (payload_in_format _); [|discriminate]. simpl.
  destruct (first_delta _) eqn:E; [discriminate|]. intros _.
  unfold callProcessLine. rewrite (processLine_none _ _ _ _ E).
  destruct st; reflexivity.
Qed.

Section Decoded.

Context {Decoder : Type}.
Variable decode : Decoder -> list Byte.byte -> Decoder * string.
Hypothesis decode_nil : forall d, decode d [] = (d, "").
Hypothesis decode_app : forall d a b,
  decode d (a ++ b) =
  let (d1, s1) := decode d a in
  let (d2, s2) := decode d1 b in
  (d2, s1 ^^ s2).


End Decoded.


End Text.

(** ** Runs *)

Definition two_texts : string :=
  data "{'choices':[{'delta':{'content':'Hel'}}]}" ^^
  ": keep-alive" ^^ Js.nl ^^
  data "{'choices':[{'delta':{'content':'lo'},'finish_reason':'stop'}]}" ^^
  done.



End StreamText.

(* ================================================================== *)
(** * The content of a converted completion *)
(* ================================================================== *)

Module ResponseContent.
Import Json NonStreaming.

Section Content.

Variable JSON_parse : string -> option json.

(** The blocks of the message of a choice: its text when it is not
    empty, then its tool calls with their parsed arguments. *)
Definition text_blocks (m : ChatMessage) : list ContentBlock :=
  match msg_content m with
  | Some text => if Js.truthy text then [text_block text] else []
  | None => []
  end.

Definition tool_blocks (toolCalls : list ToolCall) (inputs : list json)
  : list ContentBlock :=
  map (fun p => tool_use_block (tc_id (fst p)) (fn_name (tc_function (fst p))) (snd p))
      (combine toolCalls inputs).

(** X22. A completion that is converted has, as content, the text of the
    first choice's message when it is not empty, followed by one
    [tool_use] block per tool call of that message, in order, under the
    id and the name of the call, with the parsed arguments as input;
    every arguments string parsed. The other choices are not read, and
    the id is the generated one. *)
Theorem convertNormalResponse_content (id : string) (d : OpenAIData)
  (choice : Choice) (rest : list Choice) (m : ChatMessage)
  (r : AnthropicResponse) :
  choices d = Some (choice :: rest) ->
  message choice = Some m ->
  convertNormalResponse JSON_parse id (Some d) = Ok r ->
  exists inputs,
    Forall2 (fun tc input =>
               JSON_parse (fn_arguments (tc_function tc)) = Some input)
            (default [] (msg_tool_calls m)) inputs /\
    resp_content r =
      text_blocks m ++ tool_blocks (default [] (msg_tool_calls m)) inputs /\
    resp_id r = id.
Proof.
  intros Hc Hm. unfold convertNormalResponse. rewrite Hc, Hm.
  fold (text_blocks m).
  destruct (msg_tool_calls m) as [tcs|]; simpl.
  - destruct (pushToolCalls JSON_parse (text_blocks m) tcs) as [content|e] eqn:E;
      [|discriminate].
    intros [= <-]. simpl.
    destruct (pushToolCalls_ok _ _ _ _ E) as (inputs & HF & ->).
    exists inputs. auto.
  - intros Hr. exists []. split; [constructor|].
    destruct (String.eqb _ _); injection Hr as <-; simpl;
      now rewrite app_nil_r.
Qed.

End Content.

(** A completion with a text and two tool calls. *)
Definition two_calls : OpenAIData :=
  {| choices := Some
       [ {| message := Some
              {| msg_content := Some "Checking.";
                 msg_tool_calls := Some
                   [ {| tc_id := "call_1";
                        tc_function := {| fn_name := "search";
                                          fn_arguments := qq "{'q':'cats'}" |} |};
                     {| tc_id := "call_2";
                        tc_function := {| fn_name := "clock";
                                          fn_arguments := "{}" |} |} ] |};
            finish_reason := Some "tool_calls" |} ];
     usage := None |}.

Lemma convertNormalResponse_content_witness :
  exists r,
    convertNormalResponse Json.parse "msg_1" (Some two_calls) = Ok r /\
    exists inputs,
      resp_content r =
        [text_block "Checking."] ++
        tool_blocks
          [ {| tc_id := "call_1";
               tc_function := {| fn_name := "search";
                                 fn_arguments := qq "{'q':'cats'}" |} |};
            {| tc_id := "call_2";
               tc_function := {| fn_name := "clock"; fn_arguments := "{}" |} |} ]
          inputs.
Proof.
  eexists. split; [reflexivity|].
  destruct (convertNormalResponse_content Json.parse "msg_1" two_calls
              _ _ _ _ eq_refl eq_refl eq_refl) as (inputs & _ & H & _).
  exists inputs. exact H.
Defined.

End ResponseContent.

(* ================================================================== *)
(** * Property names under [properties] *)
(* ================================================================== *)

Module SchemaProperties.
Import Json Schema.

Lemma banned_not_in_clean_members ts ms key :
  is_banned key = true -> lookup key (clean_members ts ms) = None.
Proof.
  intros Hb. induction ms as [|[k v] ms IH]; simpl; [reflexivity|].
  destruct (clean_key ts k v (cleanJsonSchema v)) as [v'|] eqn:E; [|exact IH].
  simpl. destruct (String.eqb_spec k key) as [Ek|_]; [|exact IH].
  unfold clean_key in E. rewrite Ek, Hb in E. discriminate E.
Qed.

(** X23. The cleaner takes the members of a [properties] object for
    schema keywords: a property that a tool declares under the name
    [title], [examples], [$schema] or [additionalProperties] is missing
    from the [properties] of the cleaned schema. *)
Theorem property_named_like_keyword_dropped
  (members props : list (string * json)) (name : string) :
  lookup "properties" members = Some (JObj props) ->
  is_banned name = true ->
  exists cleaned,
    get "properties" (cleanJsonSchema (JObj members)) = Some (JObj cleaned) /\
    lookup name cleaned = None.
Proof.
  intros Hp Hb. rewrite cleanJsonSchema_obj. unfold get.
  exists (clean_members (type_is_string props) props). split.
  - apply (lookup_clean_members _ _ _ _ _ Hp).
    rewrite cleanJsonSchema_obj. reflexivity.
  - now apply banned_not_in_clean_members.
Qed.

(** A tool with a parameter named [title]. *)
Definition book_schema : list (string * json) :=
  [ ("type", JStr "object");
    ("properties",
     JObj [ ("title", JObj [("type", JStr "string")]);
            ("year", JObj [("type", JStr "integer")]) ]) ].

Lemma property_named_like_keyword_witness :
  exists cleaned,
    get "properties" (cleanJsonSchema (JObj book_schema)) = Some (JObj cleaned) /\
    lookup "title" cleaned = None.
Proof.
  apply (property_named_like_keyword_dropped book_schema
           [ ("title", JObj [("type", JStr "string")]);
             ("year", JObj [("type", JStr "integer")]) ] "title");
    reflexivity.
Defined.

Example book_schema_cleaned :
  cleanJsonSchema (JObj book_schema) =
  JObj [ ("type", JStr "object");
         ("properties", JObj [ ("year", JObj [("type", JStr "integer")]) ]) ].
Proof. reflexivity. Qed.

End SchemaProperties.

(* ================================================================== *)
(** * The headers of the request sent upstream *)
(* ================================================================== *)

Module ProviderHeaders.
Import Worker.

(** [headers.delete(name)]. *)
Definition delete_header (name : string) (h : HeaderList) : HeaderList :=
  List.filter (fun kv => negb (String.eqb (fst kv) name)) h.

(** The headers [convertToProviderRequest] gives the upstream request:
    a copy of the client's, with two set and two deleted. *)
Definition provider_headers (request_headers : HeaderList) (api_key : string)
  : HeaderList :=
  let headers := request_headers in
  let headers := set_header "content-type" "application/json" headers in
  let headers := set_header "cf-aig-authorization" ("Bearer " ^^ api_key) headers in
  let headers := delete_header "x-api-key" headers in
  delete_header "authorization" headers.

Lemma get_delete_same name h : get_header name (delete_header name h) = None.
Proof.
  induction h as [|[k v] h IH]; simpl; [reflexivity|].
  destruct (String.eqb k name) eqn:E; simpl; [exact IH|].
  now rewrite E.
Qed.

Lemma get_delete_other name other h :
  String.eqb other name = false ->
  get_header name (delete_header other h) = get_header name h.
Proof. apply get_filter_other. Qed.

Lemma delete_comm a b h :
  delete_header a (delete_header b h) = delete_header b (delete_header a h).
Proof.
  unfold delete_header. induction h as [|[k v] h IH]; simpl; [reflexivity|].
  destruct (String.eqb k a) eqn:Ea, (String.eqb k b) eqn:Eb; simpl;
    rewrite ?Ea, ?Eb; simpl; now rewrite ?IH.
Qed.

(** X24. The client's credentials are not forwarded: whatever headers
    the client sent, the request sent upstream has no [Authorization]
    and no [x-api-key] header; its [cf-aig-authorization] header is
    [Bearer] and the gateway key, its [Content-Type] is
    [application/json], and every other header of the client is passed
    on unchanged. *)
Theorem credentials_not_forwarded (request_headers : HeaderList) (api_key : string) :
  let headers := provider_headers request_headers api_key in
  get_header "authorization" headers = None /\
  get_header "x-api-key" headers = None /\
  get_header "cf-aig-authorization" headers = Some ("Bearer " ^^ api_key) /\
  get_header "content-type" headers = Some "application/json" /\
  forall name,
    String.eqb "authorization" name = false ->
    String.eqb "x-api-key" name = false ->
    String.eqb "cf-aig-authorization" name = false ->
    String.eqb "content-type" name = false ->
    get_header name headers = get_header name request_headers.
Proof.
  unfold provider_headers. cbv zeta.
  split; [|split; [|split; [|split]]].
  - apply get_delete_same.
  - rewrite delete_comm. apply get_delete_same.
  - rewrite !get_delete_other by reflexivity. apply get_set_same.
  - rewrite !get_delete_other by reflexivity.
    rewrite get_set_other by reflexivity. apply get_set_same.
  - intros name Ha Hx Hc Ht.
    rewrite (get_delete_other _ _ _ Ha), (get_delete_other _ _ _ Hx),
      (get_set_other _ _ _ _ Hc), (get_set_other _ _ _ _ Ht).
    reflexivity.
Qed.

Example client_key_stripped :
  provider_headers
    [ ("authorization", "Bearer sk-1"); ("x-api-key", "sk-1");
      ("anthropic-version", "2023-06-01"); ("content-type", "text/plain") ]
    "sk-1"
  = [ ("cf-aig-authorization", "Bearer sk-1");
      ("content-type", "application/json");
      ("anthropic-version", "2023-06-01") ].
Proof. reflexivity. Qed.

End ProviderHeaders.

(* ================================================================== *)
(** * The boundary events of a stream *)
(* ================================================================== *)

Module StreamBoundary.
Import Json Streaming.

(** X25. A response without a body is converted to a stream without any
    event. Otherwise the stream starts with [message_start] and ends
    with [message_stop], and neither occurs in between, whatever the
    provider sent and however it was cut into chunks. *)
Theorem stream_envelope
  (JSON_parse : string -> option json) (JSON_stringify : json -> string)
  {Decoder : Type} (decode : Decoder -> list Byte.byte -> Decoder * string)
  (d0 : Decoder) :
  convertStreamResponse JSON_parse JSON_stringify decode d0 None = [] /\
  forall chunks : list (list Byte.byte),
    exists inner,
      convertStreamResponse JSON_parse JSON_stringify decode d0 (Some chunks)
        = message_start :: inner ++ [message_stop] /\
      Forall (fun e => e <> message_start /\ e <> message_stop) inner.
Proof.
  split; [reflexivity|]. intros chunks.
  destruct (convertStreamResponse_envelope JSON_parse JSON_stringify decode
              d0 chunks) as (inner & E & H).
  exists inner. split; [exact E|]. apply List.Forall_forall. exact H.
Qed.

End StreamBoundary.

(* ================================================================== *)
(** * The Chat Completions handler ([handlers.ts]) *)
(* ================================================================== *)

Module ChatCompletions.
Import Json Handler Worker.

(** What a response of the handler carries: an error in the OpenAI
    format, or the body of the upstream response passed through. *)
Inductive ChatPayload (ProviderBody : Type) :=
| ChatError (message type : string)
| Passthrough (body : ProviderBody).
Arguments ChatError {ProviderBody} message type.
Arguments Passthrough {ProviderBody} body.

(** The upstream response, through what the handler reads: [ok],
    [status], [headers], [body], and for an error body
    [error.error?.message] ([Throw] when the body is not JSON or is
    [null], [Ok None] when the message is absent). *)
Record Upstream (ProviderBody : Type) := {
  up_ok : bool;
  up_status : Z;
  up_headers : HeaderList;
  up_error : result (option string);
  up_body : ProviderBody
}.
Arguments up_ok {ProviderBody} _.
Arguments up_status {ProviderBody} _.
Arguments up_headers {ProviderBody} _.
Arguments up_error {ProviderBody} _.
Arguments up_body {ProviderBody} _.

Section ChatHandler.

Context {Body Parsed Out ProviderBody : Type}.

(** The [try] block: [request.json()] and the replacement of falsy
    message contents; [None] when either throws. *)
Variable read_body : Body -> option Parsed.

(** [requestBody.model], a string when it is there. *)
Variable model_of : Parsed -> option string.

(** The body sent upstream for a provider and a model name: the request
    body, without [stream_options.include_usage] for [mistral], with its
    [model] replaced. *)
Variable outgoing : Parsed -> string -> string -> Out.

(** [fetch(url, init)]: the response, or the exception. *)
Variable fetch_provider : string -> Out -> result (Upstream ProviderBody).

Variable JSON_stringify : json -> string.

(** [formatErrorResponse] as the handler calls it: status, headers and
    payload. *)
Definition chat_error (message type : string) (status : Z)
  : Z * HeaderList * ChatPayload ProviderBody :=
  (status,
   fold_left (fun h kv => set_header (fst kv) (snd kv) h) corsHeaders
             [("content-type", "application/json")],
   ChatError message type).

(** [handleChatCompletionsRequest]: the requests sent upstream and what
    the handler returns or throws. *)
Definition handleChatCompletionsRequest (request : Request (Body := Body))
  (endpoint : string) (azureConfig : AzureConfig)
  : list (string * Out) * result (Z * HeaderList * ChatPayload ProviderBody) :=
  match read_body (body request) with
  | None => ([], Ok (chat_error "Invalid request body" "invalid_request_error" 400))
  | Some requestBody =>
      let modelName := default "" (model_of requestBody) in
      if negb (Js.truthy modelName) || Js.lacks "#" modelName
      then ([], Ok (chat_error "Model parameter is required"
                      "invalid_request_error" 400))
      else
        let pieces := Js.split "#" modelName in
        let model := nth 0 pieces "" in
        let provider := nth 1 pieces "" in
        match urlBuilder endpoint provider
                {| resource := resource azureConfig;
                   deployment := Some model;
                   apiVersion := apiVersion azureConfig |} with
        | Throw e => ([], Throw e)
        | Ok url =>
            let init :=
              outgoing requestBody provider
                (if isSupportedUnifiedApiEndpoint provider
                 then provider ^^ "/" ^^ model else model) in
            match fetch_provider url init with
            | Throw e => ([(url, init)], Throw e)
            | Ok providerResponse =>
                ([(url, init)],
                 if up_ok providerResponse
                 then Ok (200, up_headers providerResponse,
                          Passthrough (up_body providerResponse))
                 else
                   match up_error providerResponse with
                   | Throw e => Throw e
                   | Ok message =>
                       Ok (chat_error
                             ("[" ^^ provider ^^ " error] API request failed, message: "
                                ^^ default "-" message ^^ ", meta: "
                                ^^ JSON_stringify
                                     (JObj [("url", JStr url);
                                            ("model", JStr model);
                                            ("provider", JStr provider)]))
                             "internal_server_error"
                             (up_status providerResponse))
                   end)
            end
        end
  end.

(** X26. What the Chat Completions handler returns is of one of three
    kinds: the 400 [invalid_request_error], without any request sent
    upstream; the [internal_server_error] that carries the status of the
    upstream response to the one request sent, which was not ok; the
    body and the headers of an upstream response that was ok, always
    under the status 200. A failed fetch is not among them: it leaves
    the handler as an exception. *)
Theorem chat_responses (request : Request (Body := Body)) (endpoint : string)
  (azureConfig : AzureConfig) (status : Z) (headers : HeaderList)
  (payload : ChatPayload ProviderBody) :
  snd (handleChatCompletionsRequest request endpoint azureConfig)
    = Ok (status, headers, payload) ->
  (fst (handleChatCompletionsRequest request endpoint azureConfig) = [] /\
   status = 400 /\
   exists message, payload = ChatError message "invalid_request_error")
  \/
  exists url init providerResponse,
    fst (handleChatCompletionsRequest request endpoint azureConfig) = [(url, init)] /\
    fetch_provider url init = Ok providerResponse /\
    ((up_ok providerResponse = false /\
      status = up_status providerResponse /\
      exists message, payload = ChatError message "internal_server_error")
     \/
     (up_ok providerResponse = true /\
      status = 200 /\
      headers = up_headers providerResponse /\
      payload = Passthrough (up_body providerResponse))).
Proof.
  unfold handleChatCompletionsRequest.
  destruct (read_body (body request)) as [requestBody|].
  - destruct (negb _ || Js.lacks _ _).
    + simpl. intros [= <- <- <-]. left. repeat split. eauto.
    + destruct (urlBuilder _ _ _) as [url|e]; [|discriminate].
      destruct (fetch_provider url _) as [resp|e] eqn:Ef; [|discriminate].
      simpl. destruct (up_ok resp) eqn:Eo.
      * intros [= <- <- <-]. right. do 3 eexists.
        split; [reflexivity|]. split; [exact Ef|]. right. auto.
      * destruct (up_error resp) as [message|e]; [|discriminate].
        intros [= <- <- <-]. right. do 3 eexists.
        split; [reflexivity|]. split; [exact Ef|]. left. repeat split; eauto.
  - simpl. intros [= <- <- <-]. left. repeat split. eauto.
Qed.

(** The handler as the worker calls it. *)
Definition for_worker (request : Request (Body := Body)) (endpoint : string)
  (azureConfig : AzureConfig) : result (Z * HeaderList * ChatPayload ProviderBody) :=
  snd (handleChatCompletionsRequest request endpoint azureConfig).

End ChatHandler.

Section TwoRoutes.

Context {Body Parsed Out ProviderBody OpenAIRequest MessagesBody Converted : Type}.
Variable request_json : Body -> option Validation.AnthropicMessagesRequest.
Variable convertAnthropicToOpenAI :
  Validation.AnthropicMessagesRequest -> string -> result OpenAIRequest.
Variable fetch_messages :
  ProviderRequest (OpenAIRequest := OpenAIRequest)
  -> ProviderResponse (ProviderBody := MessagesBody) + string.
Variable convertToAnthropicResponse :
  ProviderResponse (ProviderBody := MessagesBody) -> result Converted.
Variable converted_status : Converted -> Z.
Variable converted_headers : Converted -> HeaderList.
Variable read_body : Body -> option Parsed.
Variable model_of : Parsed -> option string.
Variable outgoing : Parsed -> string -> string -> Out.
Variable fetch_chat : string -> Out -> result (Upstream ProviderBody).
Variable JSON_stringify : json -> string.
Variable native_message : exn -> string.

(** The worker with both handlers. *)
Definition worker (request : Request (Body := Body)) (env : Env)
  : list ProviderRequest * HttpResponse :=
  fetch request_json convertAnthropicToOpenAI fetch_messages
    convertToAnthropicResponse converted_status converted_headers
    (for_worker read_body model_of outgoing fetch_chat JSON_stringify)
    native_message request env.

(** X27. On the Chat Completions route a failed connection to the
    provider is not answered by the handler: for an authenticated
    request whose model names a provider and a URL can be built for, the
    exception of the failed fetch reaches the worker, which answers with
    its 500 [internal_error] and the message [Unhandled error:] followed
    by the message of the exception. (The Messages route answers such a
    failure itself, with its 503 [connection_error].) *)
Theorem chat_fetch_failure_internal_error (request : Request (Body := Body))
  (env : Env) (requestBody : Parsed) (modelName url : string) (failure : exn) :
  method request <> "OPTIONS" ->
  Auth.verifyApiKey (headers request) (GatewayToken env) = true ->
  str_includes "/messages" (pathname request) = false ->
  str_includes "/chat/completions" (pathname request) = true ->
  read_body (body request) = Some requestBody ->
  model_of requestBody = Some modelName ->
  Js.truthy modelName = true -> Js.lacks "#" modelName = false ->
  urlBuilder (getEndpoint env) (nth 1 (Js.split "#" modelName) "")
    {| resource := AZURE_RESOURCE env;
       deployment := Some (nth 0 (Js.split "#" modelName) "");
       apiVersion := AZURE_API_VERSION env |} = Ok url ->
  (forall init, fetch_chat url init = Throw failure) ->
  snd (worker request env) =
  formatErrorResponse
    ("Unhandled error: " ^^ error_message native_message failure)
    "internal_error" 500.
Proof.
  intros Hm Hv Hp Hc Hb Hmodel Ht Hl Hu Hf. unfold worker, fetch.
  destruct (String.eqb_spec (method request) "OPTIONS"); [contradiction|].
  rewrite Hv, Hp, Hc. cbn [negb].
  unfold for_worker, handleChatCompletionsRequest.
  rewrite Hb, Hmodel. cbn [default from_option id].
  rewrite Ht, Hl. cbn [negb orb resource apiVersion].
  rewrite Hu, Hf. reflexivity.
Qed.

End TwoRoutes.

(** ** Runs *)

(** A chat request for the provider [openai], as the pair of its model
    and its other members. *)
Definition chat_post : Request (Body := string * string) :=
  {| method := "POST"; pathname := "/v1/chat/completions";
     headers := {| Auth.Authorization := Some "Bearer sk-1";
                   Auth.x_api_key := None |};
     body := ("gpt-4o#openai", "{}") |}.

Definition created : Upstream string :=
  {| up_ok := true; up_status := 201; up_headers := [("content-type", "application/json")];
     up_error := Throw SyntaxError; up_body := "{}" |}.

Lemma chat_responses_witness :
  snd (handleChatCompletionsRequest (fun b => Some b) (fun b => Some (fst b))
         (fun b provider model => (model, snd b)) (fun _ _ => Ok created)
         Json.stringify chat_post "https://gateway"
         {| resource := None; deployment := None; apiVersion := None |})
  = Ok (200, [("content-type", "application/json")], Passthrough "{}") /\
  200 <> up_status created.
Proof.
  split; [reflexivity|].
  destruct (chat_responses (fun b => Some b) (fun b => Some (fst b))
              (fun b provider model => (model, snd b)) (fun _ _ => Ok created)
              Json.stringify chat_post "https://gateway"
              {| resource := None; deployment := None; apiVersion := None |}
              200 [("content-type", "application/json")] (Passthrough "{}")
              eq_refl) as [(_ & H & _)|(url & init & resp & _ & _ & _)];
    [discriminate H | discriminate].
Defined.

Lemma chat_fetch_failure_witness :
  snd (worker (OpenAIRequest := string) (MessagesBody := unit) (Converted := unit)
         (ProviderBody := string)
         (fun _ => None) (fun _ m => Ok m)
         (fun _ => inr "unreachable") (fun _ => Ok tt) (fun _ => 200) (fun _ => [])
         (fun b => Some b) (fun b => Some (fst b))
         (fun b provider model => (model, snd b))
         (fun _ _ => Throw (Error "Network connection lost"))
         Json.stringify (fun _ => "") chat_post demo_env)
  = formatErrorResponse "Unhandled error: Network connection lost"
      "internal_error" 500.
Proof.
  apply (chat_fetch_failure_internal_error (OpenAIRequest := string)
           (MessagesBody := unit) (Converted := unit) (ProviderBody := string)
           (fun _ => None) (fun _ m => Ok m)
           (fun _ => inr "unreachable") (fun _ => Ok tt) (fun _ => 200) (fun _ => [])
           (fun b => Some b) (fun b => Some (fst b))
           (fun b provider model => (model, snd b))
           (fun _ _ => Throw (Error "Network connection lost"))
           Json.stringify (fun _ => "") chat_post demo_env
           ("gpt-4o#openai", "{}") "gpt-4o#openai"
           "https://gateway.ai.cloudflare.com/v1/acct/gw/compat/chat/completions"
           (Error "Network connection lost"));
    solve [reflexivity | intros H; discriminate H | intros; reflexivity].
Defined.

End ChatCompletions.
